(** * Ques-Gen: the chunker, the retriever, the reply parser, the store
      initializer and the request handler of [app.py], embedded in Rocq.

    [app.py] is a Flask service: at start-up it splits a transcript into
    chunks and embeds them; per request it embeds the course outcome, picks
    the nearest chunk, asks a generative model for questions and parses the
    reply.  This file embeds the pure text and list code of [app.py]
    function by function and takes the external collaborators (the
    sentence embedder, NumPy's norm and argsort, the generative model, the
    file system) as parameters of the section that uses them. *)

From Stdlib Require Import Ascii String.
From Stdlib Require Import List ZArith NArith Lia Bool Permutation Sorted.
From Corelib Require Import SpecFloat.
Import ListNotations.

Set Implicit Arguments.

(* ================================================================== *)
(** * Python values *)
(* ================================================================== *)

(** A Python [str] is a sequence of Unicode code points; [len] is the
    number of code points. *)
Abbreviation pychar := N (only parsing).
Abbreviation pystr := (list N) (only parsing).

(** A literal of the source, written as a Rocq string (ASCII only). *)
Definition str (s : string) : pystr :=
  map N_of_ascii (list_ascii_of_string s).
Arguments str s%_string.

(** The line feed, [chr(10)]. *)
Definition NL : pystr := [10%N].

Definition len {A : Type} (l : list A) : Z := Z.of_nat (length l).

(** Python exceptions, as far as [app.py] can meet them: an index out of
    range, an operator on a value of the wrong type, a subscript with a
    key that a dict does not hold, and a failure raised by an external
    collaborator (with its message).  All are instances of [Exception]. *)
Inductive pyexc : Type :=
| IndexError
| TypeError
| KeyError
| ExternalError (msg : pystr).

(** The outcome of a call that may raise. *)
Inductive outcome (A : Type) : Type :=
| Return (a : A)
| Raise (e : pyexc).
Arguments Return {A} a.
Arguments Raise {A} e.

Definition bind {A B : Type} (c : outcome A) (k : A -> outcome B) : outcome B :=
  match c with
  | Return a => k a
  | Raise e => Raise e
  end.

Notation "x <- c ;; k" := (bind c (fun x => k))
  (at level 61, c at next level, right associativity).

(** [try: body / except Exception: handler]. *)
Definition try_except {A : Type} (body : outcome A) (handler : pyexc -> outcome A)
  : outcome A :=
  match body with
  | Return a => Return a
  | Raise e => handler e
  end.

(** [l[i]] for a non-negative index. *)
Definition index {A : Type} (l : list A) (i : nat) : outcome A :=
  match nth_error l i with
  | Some a => Return a
  | None => Raise IndexError
  end.

(** [[f(x) for x in l]], where [f] may raise. *)
Fixpoint mapM {A B : Type} (f : A -> outcome B) (l : list A) : outcome (list B) :=
  match l with
  | [] => Return []
  | x :: l' => y <- f x ;; ys <- mapM f l' ;; Return (y :: ys)
  end.

(** [l[:k]]: a negative bound counts from the end, and both are clipped to
    the list. *)
Definition slice_to {A : Type} (l : list A) (k : Z) : list A :=
  if (0 <=? k)%Z then firstn (Z.to_nat k) l
  else firstn (Z.to_nat (len l + k)) l.

(** [l[k:]]. *)
Definition slice_from {A : Type} (l : list A) (k : Z) : list A :=
  if (0 <=? k)%Z then skipn (Z.to_nat k) l
  else skipn (Z.to_nat (len l + k)) l.

(* ================================================================== *)
(** * [str] methods used by [app.py] *)
(* ================================================================== *)

(** [c.isspace()], CPython's [Py_UNICODE_ISSPACE]: the ASCII table below
    128 and [_PyUnicode_IsWhitespace] above. *)
Definition isspace (c : pychar) : bool :=
  ((9 <=? c) && (c <=? 13) || (28 <=? c) && (c <=? 32)
   || (c =? 133) || (c =? 160) || (c =? 5760)
   || (8192 <=? c) && (c <=? 8202)
   || (c =? 8232) || (c =? 8233) || (c =? 8239) || (c =? 8287)
   || (c =? 12288))%N.

Fixpoint lstrip (s : pystr) : pystr :=
  match s with
  | [] => []
  | c :: s' => if isspace c then lstrip s' else s
  end.

Definition rstrip (s : pystr) : pystr := rev (lstrip (rev s)).

(** [s.strip()]. *)
Definition strip (s : pystr) : pystr := rstrip (lstrip s).

(** [s.startswith(p)]. *)
Fixpoint starts_with (p s : pystr) : bool :=
  match p, s with
  | [], _ => true
  | _ :: _, [] => false
  | a :: p', b :: s' => (a =? b)%N && starts_with p' s'
  end.

(** The index of the first occurrence of [sub] in [s], if any. *)
Fixpoint index_of (sub s : pystr) : option nat :=
  if starts_with sub s then Some 0
  else match s with
       | [] => None
       | _ :: s' => option_map S (index_of sub s')
       end.

(** [sub in s]. *)
Definition str_in (sub s : pystr) : bool :=
  match index_of sub s with Some _ => true | None => false end.

(** [s.find(sub)]. *)
Definition find (s sub : pystr) : Z :=
  match index_of sub s with Some i => Z.of_nat i | None => (-1)%Z end.

(** [s.split(sep)] for a non-empty [sep]: cut at the first occurrence and
    go on after it.  Each cut consumes at least one character, so [len(s)]
    rounds are enough. *)
Fixpoint split_fuel (fuel : nat) (sep s : pystr) : list pystr :=
  match fuel with
  | 0 => [s]
  | S fuel' =>
      match index_of sep s with
      | None => [s]
      | Some i => firstn i s :: split_fuel fuel' sep (skipn (i + length sep) s)
      end
  end.

Definition split (s sep : pystr) : list pystr := split_fuel (length s) sep s.

(** [sep.join(parts)]. *)
Fixpoint join (sep : pystr) (parts : list pystr) : pystr :=
  match parts with
  | [] => []
  | [p] => p
  | p :: rest => p ++ sep ++ join sep rest
  end.

(** [s.replace(old, new)] for a non-empty [old]: the occurrences replaced
    are the ones [split] cuts at. *)
Definition replace (s old new : pystr) : pystr := join new (split s old).

(* ================================================================== *)
(** * The chunker: [chunk_text] *)
(* ================================================================== *)

Definition EMPTY_TRANSCRIPT_CHUNK : pystr := str "Sample text for empty transcript".

(** One turn of the [for sentence in sentences] loop on the pair
    [(chunks, current_chunk)]. *)
Definition chunk_step (chunk_size : Z) (st : list pystr * pystr) (sentence : pystr)
  : list pystr * pystr :=
  let '(chunks, current_chunk) := st in
  if (len current_chunk + len sentence <=? chunk_size)%Z
  then (chunks, current_chunk ++ sentence ++ str ". ")
  else (chunks ++ [strip current_chunk], sentence ++ str ". ").

Definition chunk_text (text : pystr) (chunk_size : Z) : list pystr :=
  match text with
  | [] => [EMPTY_TRANSCRIPT_CHUNK]
  | _ :: _ =>
      let sentences := split text (str ". ") in
      let '(chunks, current_chunk) :=
        fold_left (chunk_step chunk_size) sentences ([], []) in
      match current_chunk with
      | [] => chunks
      | _ :: _ => chunks ++ [strip current_chunk]
      end
  end.

Definition DEFAULT_CHUNK_SIZE : Z := 500.

(* ================================================================== *)
(** * The reply parser: [parse_questions] *)
(* ================================================================== *)

Definition OBJECTIVE_MARKER : pystr := str "Objective Questions:".
Definition SHORT_ANSWER_MARKER : pystr := str "Short Answer Questions:".

(** The dictionary [parse_questions] returns. *)
Record questions : Type := {
  objective : list pystr;
  subjective : list pystr
}.

Section Parser.

(** [c.isdigit()] above ASCII is the digit property of the Unicode
    character database, a table that is no part of the repository. *)
Variable unicode_isdigit : pychar -> bool.

Definition isdigit (c : pychar) : bool :=
  if (c <? 128)%N then (48 <=? c)%N && (c <=? 57)%N else unicode_isdigit c.

(** The body of the two [for line in ...] loops, which are the same: the
    question a line yields, if it yields one. *)
Definition parse_line (line : pystr) : option pystr :=
  match strip line with
  | [] => None
  | _ :: _ =>
      if existsb isdigit (slice_to line 2) then
        let question := strip line in
        Some (if str_in (str ". ") (slice_to question 3)
              then slice_from question (find question (str ". ") + 2)
              else question)
      else None
  end.

Fixpoint extract_questions (lines : list pystr) : list pystr :=
  match lines with
  | [] => []
  | line :: rest =>
      match parse_line line with
      | Some question => question :: extract_questions rest
      | None => extract_questions rest
      end
  end.

Definition parse_questions (questions_text : pystr) : outcome questions :=
  if str_in OBJECTIVE_MARKER questions_text
     && str_in SHORT_ANSWER_MARKER questions_text
  then
    let parts := split questions_text SHORT_ANSWER_MARKER in
    part0 <- index parts 0 ;;
    let obj_part := strip (replace part0 OBJECTIVE_MARKER []) in
    part1 <- index parts 1 ;;
    let subj_part := strip part1 in
    Return {| objective := extract_questions (split obj_part NL);
              subjective := extract_questions (split subj_part NL) |}
  else Return {| objective := []; subjective := [] |}.

End Parser.

(* ================================================================== *)
(** * The generator call: [generate_questions] *)
(* ================================================================== *)

Definition full_prompt (retrieved_content co_text bloom_level : pystr) : pystr :=
  join NL
    [ str "You are a Question Generator Agent.";
      str "Course Outcome (CO): " ++ co_text;
      str "Bloom's Taxonomy Level: " ++ bloom_level;
      str "Based on the content below, generate multiple questions:";
      str "- Two Objective Type Questions";
      str "- Two Short Answer Type Questions";
      str "Content:" ++ NL ++ retrieved_content;
      NL ++ str "Only output the questions in the following format:";
      str "Objective Questions:";
      str "1. <question 1>";
      str "2. <question 2>";
      str "Short Answer Questions:";
      str "1. <question 1>";
      str "2. <question 2>" ].

Definition GENERATION_ERROR : pystr :=
  str "Error generating questions. Please check logs.".

Section Generator.

(** The external service: [GenerativeModel('gemini-1.5-pro')], its
    [generate_content(prompt)] and the reply's [.text], any of which may
    raise. *)
Variable generate_content : pystr -> outcome pystr.

Definition generate_questions (retrieved_content co_text bloom_level : pystr)
  : outcome pystr :=
  try_except
    (text <- generate_content (full_prompt retrieved_content co_text bloom_level) ;;
     Return (strip text))
    (fun _ => Return GENERATION_ERROR).

End Generator.

(* ================================================================== *)
(** * The retriever: [semantic_search] *)
(* ================================================================== *)

Section Retriever.

(** A row of the embedding matrix, and the floats NumPy computes. *)
Variables vec F : Type.
(** [embed_model.encode(texts)]: one row per text; it may raise. *)
Variable encode : list pystr -> outcome (list vec).
(** [row - query_embedding], the broadcast subtraction on one row. *)
Variable vsub : vec -> vec -> vec.
(** [np.linalg.norm] of one row ([axis=1]). *)
Variable norm : vec -> F.
(** [np.argsort] with its default [kind]. *)
Variable argsort : list F -> list nat.

Definition distances_to (query_embedding : vec) (embeddings : list vec) : list F :=
  map (fun row => norm (vsub row query_embedding)) embeddings.

Definition semantic_search (query_text : pystr) (chunks : list pystr)
    (embeddings : list vec) (top_k : Z) : outcome (list pystr) :=
  rows <- encode [query_text] ;;
  query_embedding <- index rows 0 ;;
  let distances := distances_to query_embedding embeddings in
  let top_indices := slice_to (argsort distances) top_k in
  mapM (fun i => index chunks i) top_indices.

End Retriever.

Definition DEFAULT_TOP_K : Z := 1.

(** What NumPy documents of [argsort]: the result lists every index of the
    array once, and reading the array along it gives values in ascending
    order ([fle] is the order NumPy sorts floats by).  The default kind,
    quicksort, promises nothing on the order of equal values. *)
Definition argsort_spec {F : Type} (fle : F -> F -> bool)
    (argsort : list F -> list nat) : Prop :=
  forall ds : list F,
    Permutation (argsort ds) (seq 0 (length ds)) /\
    forall a b ia ib da db,
      a < b ->
      nth_error (argsort ds) a = Some ia ->
      nth_error (argsort ds) b = Some ib ->
      nth_error ds ia = Some da ->
      nth_error ds ib = Some db ->
      fle da db = true.

(** What the Euclidean norm of a difference satisfies when it is computed
    exactly: it is [fzero] between equal vectors and above [fzero] between
    different ones. *)
Definition euclidean_spec {vec F : Type} (fle : F -> F -> bool) (fzero : F)
    (vsub : vec -> vec -> vec) (norm : vec -> F) : Prop :=
  (forall v, norm (vsub v v) = fzero) /\
  (forall u v, u <> v -> fle (norm (vsub u v)) fzero = false).

(* ================================================================== *)
(** * The store initializer: [initialize_vector_db] *)
(* ================================================================== *)

Definition TRANSCRIPT_PATH : pystr := str "cleaned_transcript.txt".
Definition INIT_CHUNK : pystr := str "Sample content for initialization".
Definition ERROR_CHUNK : pystr := str "Sample content for error case".

(** The module's globals [chunks] and [embeddings]; [None] is Python's
    [None]. *)
Record store (vec : Type) : Type := {
  chunks : option (list pystr);
  embeddings : option (list vec)
}.
Arguments chunks {vec} s.
Arguments embeddings {vec} s.

Section Initializer.

Variable vec : Type.
Variable encode : list pystr -> outcome (list vec).
(** [open(path).read()]: the file's text, or the error it raises. *)
Variable read_file : pystr -> outcome pystr.

(** A statement that reads and writes the globals and may raise: the store
    it leaves, and how it ended. *)
Definition stmt (A : Type) : Type := store vec -> store vec * outcome A.

Definition seq_ {A B : Type} (c : stmt A) (k : A -> stmt B) : stmt B :=
  fun s =>
    match c s with
    | (s', Return a) => k a s'
    | (s', Raise e) => (s', Raise e)
    end.

Definition call {A : Type} (c : outcome A) : stmt A := fun s => (s, c).

Definition assign_chunks (v : list pystr) : stmt unit :=
  fun s => ({| chunks := Some v; embeddings := embeddings s |}, Return tt).

Definition assign_embeddings (v : list vec) : stmt unit :=
  fun s => ({| chunks := chunks s; embeddings := Some v |}, Return tt).

(** [try: body / except Exception: handler] on statements: the handler
    starts from the store the body left. *)
Definition try_stmt {A : Type} (body : stmt A) (handler : pyexc -> stmt A) : stmt A :=
  fun s =>
    match body s with
    | (s', Return a) => (s', Return a)
    | (s', Raise e) => handler e s'
    end.

Definition load_file (file_path : pystr) : pystr :=
  match read_file file_path with
  | Return text => text
  | Raise _ => []
  end.

Definition initialize_vector_db : stmt unit :=
  try_stmt
    (let transcript := load_file TRANSCRIPT_PATH in
     match transcript with
     | _ :: _ =>
         let chunks := chunk_text transcript DEFAULT_CHUNK_SIZE in
         seq_ (assign_chunks chunks) (fun _ =>
         seq_ (call (encode chunks)) (fun rows =>
         assign_embeddings rows))
     | [] =>
         seq_ (assign_chunks [INIT_CHUNK]) (fun _ =>
         seq_ (call (encode [INIT_CHUNK])) (fun rows =>
         assign_embeddings rows))
     end)
    (fun _ =>
       seq_ (assign_chunks [ERROR_CHUNK]) (fun _ =>
       seq_ (call (encode [ERROR_CHUNK])) (fun rows =>
       assign_embeddings rows))).

End Initializer.

(** What the embedder promises: one row per text it was given. *)
Definition encode_spec {vec : Type} (encode : list pystr -> outcome (list vec)) : Prop :=
  forall texts rows, encode texts = Return rows -> length rows = length texts.

(* ================================================================== *)
(** * The API layer: [api_generate_questions] *)
(* ================================================================== *)

(** [a == b] on strings. *)
Definition str_eqb (a b : pystr) : bool :=
  if list_eq_dec N.eq_dec a b then true else false.

(** A JSON value as [request.get_json()] hands it to the handler: [None],
    a [bool], an [int], a [float], a [str], a [list] or a [dict] with
    string keys.  A [dict] is given by its items; a key is looked up from
    the front.  What [get_json] does with a body that is no JSON is
    Flask's and is outside this file. *)
#[warnings="-register-all"] Inductive json : Type :=
| JNull
| JBool (b : bool)
| JInt (n : Z)
| JFloat (x : spec_float)
| JString (s : pystr)
| JArray (elements : list json)
| JObject (items : list (pystr * json)).

Definition dict : Type := list (pystr * json).

(** [d.get(key)]: [Some d[key]] when the key is in [d], [None] when it is
    not. *)
Fixpoint dict_get (d : dict) (key : pystr) : option json :=
  match d with
  | [] => None
  | (k, v) :: d' => if str_eqb k key then Some v else dict_get d' key
  end.

(** [not data]. *)
Definition falsy (data : json) : bool :=
  match data with
  | JNull => true
  | JBool b => negb b
  | JInt n => (n =? 0)%Z
  | JFloat x => match x with S754_zero _ => true | _ => false end
  | JString s => match s with [] => true | _ :: _ => false end
  | JArray elements => match elements with [] => true | _ :: _ => false end
  | JObject items => match items with [] => true | _ :: _ => false end
  end.

(** [key == v] for a string [key]: only an equal string is equal to it. *)
Definition is_string (key : pystr) (v : json) : bool :=
  match v with
  | JString s => str_eqb s key
  | _ => false
  end.

(** [key in data] for a string [key]: a key of a dict, a substring of a
    string, an element of a list; on any other value [in] raises a
    [TypeError]. *)
Definition contains (data : json) (key : pystr) : outcome bool :=
  match data with
  | JObject items =>
      Return (match dict_get items key with Some _ => true | None => false end)
  | JString s => Return (str_in key s)
  | JArray elements => Return (existsb (is_string key) elements)
  | JNull | JBool _ | JInt _ | JFloat _ => Raise TypeError
  end.

(** [data[key]] for a string [key]: the value of the key in a dict; a
    string or a list cannot be subscripted with a string. *)
Definition subscript (data : json) (key : pystr) : outcome json :=
  match data with
  | JObject items =>
      match dict_get items key with
      | Some v => Return v
      | None => Raise KeyError
      end
  | _ => Raise TypeError
  end.

Definition COURSE_OUTCOME : pystr := str "course_outcome".
Definition BLOOM_LEVEL : pystr := str "bloom_level".

(** The test [not data or 'course_outcome' not in data or 'bloom_level'
    not in data], with [or] evaluated from the left as far as needed, and
    the two subscripts that follow it.  [None] is the way to the 400
    response. *)
Definition required_fields (data : json) : outcome (option (json * json)) :=
  if falsy data then Return None else
  has_co <- contains data COURSE_OUTCOME ;;
  if negb has_co then Return None else
  has_bloom <- contains data BLOOM_LEVEL ;;
  if negb has_bloom then Return None else
  selected_co <- subscript data COURSE_OUTCOME ;;
  selected_bloom <- subscript data BLOOM_LEVEL ;;
  Return (Some (selected_co, selected_bloom)).

Definition MISSING_PARAMETERS : pystr :=
  str "Missing required parameters. Please provide 'course_outcome' and 'bloom_level'.".

(** The JSON object of a response: [{"error": text}] with a text of the
    source, [{"error": str(e)}] with the exception caught, or the four
    fields of an answer. *)
Inductive response_body : Type :=
| ErrorBody (error : pystr)
| ExceptionBody (e : pyexc)
| QuestionsBody (course_outcome bloom_level : json) (questions_dict : questions)
    (raw_text : pystr).

(** What the handler returns: [jsonify(body)] has the status 200,
    [(jsonify(body), n)] the status [n]. *)
Record response : Type := {
  payload : response_body;
  status : Z
}.

Definition BAD_REQUEST : response :=
  {| payload := ErrorBody MISSING_PARAMETERS; status := 400 |}.

Section ApiLayer.

Variables vec F : Type.
Variable encode : list pystr -> outcome (list vec).
Variable vsub : vec -> vec -> vec.
Variable norm : vec -> F.
Variable argsort : list F -> list nat.
Variable generate_content : pystr -> outcome pystr.
Variable read_file : pystr -> outcome pystr.
Variable unicode_isdigit : pychar -> bool.
(** [embed_model.encode([v])] for a value [v] that is not a string. *)
Variable encode_value : json -> outcome (list vec).
(** [str(v)] for a value [v] that is not a string, which is how an
    f-string formats it. *)
Variable format_value : json -> pystr.

(** [f"{v}"]. *)
Definition text_of (v : json) : pystr :=
  match v with
  | JString s => s
  | _ => format_value v
  end.

(** [if chunks is None or embeddings is None: initialize_vector_db()]. *)
Definition ensure_vector_db : stmt vec unit :=
  fun s =>
    match chunks s, embeddings s with
    | Some _, Some _ => (s, Return tt)
    | _, _ => initialize_vector_db encode read_file s
    end.

(** [semantic_search(selected_co, chunks, embeddings, top_k=1)] on the
    globals.  The query is whatever value the request gave: a string is
    embedded as a text; for another value the embedder is [encode_value]
    on it, and the text argument is not looked at.  A global that is
    still [None] would make the call raise a [TypeError] inside the [try]
    block; the branch is there for the types only, because once
    [ensure_vector_db] has returned neither global is [None]
    ([initialize_vector_db_sets]). *)
Definition search_store (selected_co : json) (s : store vec) : outcome (list pystr) :=
  match chunks s, embeddings s with
  | Some cs, Some es =>
      match selected_co with
      | JString query_text =>
          semantic_search encode vsub norm argsort query_text cs es 1
      | _ =>
          semantic_search (fun _ => encode_value selected_co) vsub norm argsort
            [] cs es 1
      end
  | _, _ => Raise TypeError
  end.

(** The [try] block of the handler ... *)
Definition answer_body (selected_co selected_bloom : json) (s : store vec)
  : outcome response :=
  found <- search_store selected_co s ;;
  best_chunk <- index found 0 ;;
  questions_text <-
    generate_questions generate_content best_chunk
      (text_of selected_co) (text_of selected_bloom) ;;
  questions_dict <- parse_questions unicode_isdigit questions_text ;;
  Return {| payload := QuestionsBody selected_co selected_bloom
                         questions_dict questions_text;
            status := 200 |}.

(** ... and its [except Exception as e]. *)
Definition answer (selected_co selected_bloom : json) (s : store vec)
  : outcome response :=
  try_except (answer_body selected_co selected_bloom s)
    (fun e => Return {| payload := ExceptionBody e; status := 500 |}).

(** The handler of [POST /generate-questions], from the parsed body
    [data] on. *)
Definition api_generate_questions (data : json) : stmt vec response :=
  seq_ ensure_vector_db (fun _ =>
  seq_ (call (required_fields data)) (fun fields s =>
    match fields with
    | None => (s, Return BAD_REQUEST)
    | Some (selected_co, selected_bloom) =>
        (s, answer selected_co selected_bloom s)
    end)).

End ApiLayer.

(* ================================================================== *)
(** * The vocabulary of the statements *)
(* ================================================================== *)

(** [sub] occurs in [s] as a contiguous block. *)
Definition occurs (sub s : pystr) : Prop :=
  exists pre post, s = pre ++ sub ++ post.

(** [k] empty lines. *)
Definition blank_lines (k : nat) : list pystr := repeat [] k.

(** A line ["<number>. <question>"]. *)
Definition numbered_line (number question : pystr) : pystr :=
  number ++ str ". " ++ question.

(** The two lines of one part of the reply, with empty lines around. *)
Definition question_lines (before between after : nat) (l l' : pystr)
  : list pystr :=
  blank_lines before ++ [l] ++ blank_lines between ++ [l'] ++ blank_lines after.

(** The reply format the prompt asks for: each marker on a line of its
    own, followed by two lines ["<number>. <question>"].  After the
    [i]-th of these six lines the reply may leave [gaps i] lines empty. *)
Definition reply (gaps : nat -> nat) (n1 q1 n2 q2 n3 q3 n4 q4 : pystr) : pystr :=
  join NL
    ([OBJECTIVE_MARKER]
       ++ question_lines (gaps 0) (gaps 1) (gaps 2)
            (numbered_line n1 q1) (numbered_line n2 q2)
       ++ [SHORT_ANSWER_MARKER]
       ++ question_lines (gaps 3) (gaps 4) (gaps 5)
            (numbered_line n3 q3) (numbered_line n4 q4)).

Definition no_gaps : nat -> nat := fun _ => 0.

(** One empty line before the second marker. *)
Definition gap_before_second_marker : nat -> nat :=
  fun i => match i with 2 => 1 | _ => 0 end.

(** An ASCII decimal digit, and a number written with such digits. *)
Definition ascii_digit (c : pychar) : bool := ((48 <=? c) && (c <=? 57))%N.

Definition decimal (number : pystr) : Prop :=
  number <> [] /\ forallb ascii_digit number = true.

(** The text of a question on one line: not empty, no line feed in it, no
    whitespace at its end, and neither marker inside. *)
Definition question_text (q : pystr) : Prop :=
  q <> [] /\ rstrip q = q /\ ~ In 10%N q /\
  ~ occurs OBJECTIVE_MARKER q /\ ~ occurs SHORT_ANSWER_MARKER q.

Definition is_marker (mk : pystr) : Prop :=
  mk = OBJECTIVE_MARKER \/ mk = SHORT_ANSWER_MARKER.

(** The result [parse_questions] gives when a marker is missing. *)
Definition NO_QUESTIONS : questions := {| objective := []; subjective := [] |}.

(** [top] ranks nearest first over the distances [ds]: no index twice,
    distances ascending along [top], and no index left out is strictly
    closer than one that is in. *)
Definition nearest_first {F : Type} (fle : F -> F -> bool) (ds : list F)
    (top : list nat) : Prop :=
  NoDup top /\
  (forall a b ia ib da db,
      a < b -> nth_error top a = Some ia -> nth_error top b = Some ib ->
      nth_error ds ia = Some da -> nth_error ds ib = Some db ->
      fle da db = true) /\
  (forall i j di dj,
      In i top -> ~ In j top ->
      nth_error ds i = Some di -> nth_error ds j = Some dj ->
      fle di dj = true).

(** The invariant of the vector store: both globals are set, to lists of
    the same length that are not empty. *)
Definition store_ready {vec : Type} (s : store vec) : Prop :=
  exists cs es,
    chunks s = Some cs /\ embeddings s = Some es /\
    length es = length cs /\ cs <> [] /\ es <> [].

(** [chunks = cs; embeddings = embed_model.encode(chunks)]: the three
    statements every branch of [initialize_vector_db] runs. *)
Definition build {vec : Type} (encode : list pystr -> outcome (list vec))
    (cs : list pystr) : stmt vec unit :=
  seq_ (assign_chunks cs) (fun _ =>
  seq_ (call (encode cs)) (fun rows =>
  assign_embeddings rows)).

Definition EMPTY_STORE : store Z := {| chunks := None; embeddings := None |}.

(** A sentence with the terminator the loop of [chunk_text] appends, the
    buffer a group of sentences makes, and the chunk the buffer is
    flushed as. *)
Definition terminated (sentence : pystr) : pystr := sentence ++ str ". ".

Definition packed (group : list pystr) : pystr := concat (map terminated group).

Definition render (group : list pystr) : pystr := strip (packed group).

(** What a group of sentences that is flushed as one chunk satisfies: the
    chunk is at most one character over the budget, or the group is one
    sentence that alone exceeds the budget. *)
Definition group_fits (chunk_size : Z) (group : list pystr) : Prop :=
  (len (render group) <= chunk_size + 1)%Z \/
  exists sentence, group = [sentence] /\ (chunk_size < len sentence)%Z.

(** What the group in the buffer satisfies between two turns of the loop:
    the buffer, with the terminator of its last sentence, is at most two
    characters over the budget, or it holds one sentence that alone
    exceeds the budget. *)
Definition buffer_fits (chunk_size : Z) (group : list pystr) : Prop :=
  (len (packed group) <= chunk_size + 2)%Z \/
  exists sentence, group = [sentence] /\ (chunk_size < len sentence)%Z.

(** What every parsed question satisfies: it is not empty, has no
    whitespace at its end and no line feed. *)
Definition clean_question (q : pystr) : Prop :=
  q <> [] /\ rstrip q = q /\ ~ In 10%N q.

(** The chunks the [try] block of [initialize_vector_db] assigns: those of
    the transcript, or the initial sample when the file is missing or
    empty. *)
Definition first_chunks (read_file : pystr -> outcome pystr) : list pystr :=
  match read_file TRANSCRIPT_PATH with
  | Return (c :: text) => chunk_text (c :: text) DEFAULT_CHUNK_SIZE
  | _ => [INIT_CHUNK]
  end.

(** Neither global is [None]. *)
Definition store_set {vec : Type} (s : store vec) : Prop :=
  chunks s <> None /\ embeddings s <> None.

(** [key] is in [data], as [in] sees it: a key of a dict, a substring of
    a string, an element of a list. *)
Definition holds_name (data : json) (key : pystr) : Prop :=
  match data with
  | JObject items => exists v, dict_get items key = Some v
  | JString s => occurs key s
  | JArray elements => In (JString key) elements
  | JNull | JBool _ | JInt _ | JFloat _ => False
  end.

(** The request bodies that get the 400 response: [None], [False], a
    zero, and a dict, a string or a list in which one of the two names is
    not. *)
Definition lacks_parameters (data : json) : Prop :=
  match data with
  | JNull => True
  | JBool b => b = false
  | JInt n => n = 0%Z
  | JFloat x => exists sign, x = S754_zero sign
  | JString _ | JArray _ | JObject _ =>
      ~ holds_name data COURSE_OUTCOME \/ ~ holds_name data BLOOM_LEVEL
  end.

(** The request bodies on which the handler raises: [True] and a number
    that is not zero, on which [in] fails, and a string or a list that
    holds both names, which cannot be subscripted with a name. *)
Definition not_an_object (data : json) : Prop :=
  match data with
  | JBool b => b = true
  | JInt n => n <> 0%Z
  | JFloat x => forall sign, x <> S754_zero sign
  | JString _ | JArray _ =>
      holds_name data COURSE_OUTCOME /\ holds_name data BLOOM_LEVEL
  | JNull | JObject _ => False
  end.

(* ================================================================== *)
(** * A reference embedder, two reference argsorts, sample inputs *)
(* ================================================================== *)

(** A stand-in for the collaborators, on which the retriever can be run:
    a text is embedded as its length (one integer for a row), the norm of
    a difference is its absolute value, floats are integers. *)
Definition ref_encode (texts : list pystr) : outcome (list Z) :=
  Return (map (fun t => len t) texts).

(** Insertion of an (index, value) pair into a list sorted by value; [x]
    goes before the first [y] with [before x y]. *)
Fixpoint insert_by (before : Z -> Z -> bool) (x : nat * Z) (l : list (nat * Z))
  : list (nat * Z) :=
  match l with
  | [] => [x]
  | y :: l' =>
      if before (snd x) (snd y) then x :: l else y :: insert_by before x l'
  end.

Definition sort_by (before : Z -> Z -> bool) (l : list (nat * Z)) : list (nat * Z) :=
  fold_right (insert_by before) [] l.

Definition enumerate (ds : list Z) : list (nat * Z) :=
  combine (seq 0 (length ds)) ds.

(** An argsort that keeps equal values in index order. *)
Definition argsort_stable (ds : list Z) : list nat :=
  map fst (sort_by Z.leb (enumerate ds)).

(** [np.argsort] of four values on a CPU with AVX2 or AVX-512.  NumPy
    then sorts floats with the networks of its vendored x86-simd-sort:
    the four values sit in one register, each lane with the index it came
    from, and three rounds of compare-exchange sort the register.

    One compare-exchange, seen from one lane: the lane gets the larger or
    the smaller of its key and its partner's, and keeps its index when
    the key it got equals the one it had; otherwise it takes the
    partner's index. *)
Definition cmp_merge (take_max : bool) (own partner : nat * Z) : nat * Z :=
  let key := if take_max then Z.max (snd partner) (snd own)
             else Z.min (snd partner) (snd own) in
  (if (key =? snd own)%Z then fst own else fst partner, key).

Definition register : Type := (nat * Z) * (nat * Z) * (nat * Z) * (nat * Z).

(** Lanes 0 and 1, and lanes 2 and 3: the smaller key to the lower lane. *)
Definition exchange_neighbours (r : register) : register :=
  let '(l0, l1, l2, l3) := r in
  (cmp_merge false l0 l1, cmp_merge true l1 l0,
   cmp_merge false l2 l3, cmp_merge true l3 l2).

(** Lanes 0 and 3, and lanes 1 and 2: each lane against the reversed
    register, the smaller keys to lanes 0 and 1. *)
Definition exchange_mirrored (r : register) : register :=
  let '(l0, l1, l2, l3) := r in
  (cmp_merge false l0 l3, cmp_merge false l1 l2,
   cmp_merge true l2 l1, cmp_merge true l3 l0).

Definition sort_register (r : register) : register :=
  exchange_neighbours (exchange_mirrored (exchange_neighbours r)).

(** The ranking of exactly four values.  For any other number of values
    the network is another one, which is not embedded here: the indices
    are then returned as they are. *)
Definition argsort_four_lanes (ds : list Z) : list nat :=
  match ds with
  | [a; b; c; d] =>
      let '(l0, l1, l2, l3) := sort_register ((0, a), (1, b), (2, c), (3, d)) in
      [fst l0; fst l1; fst l2; fst l3]
  | _ => seq 0 (length ds)
  end.

(** NumPy's arithmetic on rows of IEEE floats of precision [prec] and
    exponent bound [emax] (binary32, the embedder's dtype: 24 and 128;
    binary64: 53 and 1024).  [np.linalg.norm] on a row is the square root
    of the sum of the squares; the sum is taken here in index order (on
    the rows of one component used below there is nothing to add). *)
Definition float_vsub (prec emax : Z) (row q : list spec_float) : list spec_float :=
  map (fun xy => SFsub prec emax (fst xy) (snd xy)) (combine row q).

Definition float_sum (prec emax : Z) (l : list spec_float) : spec_float :=
  match l with
  | [] => S754_zero false
  | x :: rest => fold_left (SFadd prec emax) rest x
  end.

Definition float_norm (prec emax : Z) (row : list spec_float) : spec_float :=
  SFsqrt prec emax
    (float_sum prec emax (map (fun x => SFmul prec emax x x) row)).

(** [0.0], and [2**-100] in binary32 and [2**-600] in binary64: numbers
    that are not zero and whose square is too small to be one. *)
Definition float_zero : spec_float := S754_zero false.
Definition tiny32 : spec_float := S754_finite false 8388608 (-123).
Definition tiny64 : spec_float := S754_finite false 4503599627370496 (-652).

(** An embedder that maps every text to the row [[0.0]]. *)
Definition zero_encode (texts : list pystr) : outcome (list (list spec_float)) :=
  Return (map (fun _ => [float_zero]) texts).

(** The order of the sorted pairs. *)
Definition by_value (x y : nat * Z) : Prop := (snd x <= snd y)%Z.

(** Two sentences of 249 characters each, and one sentence of 501. *)
Definition two_sentences : pystr :=
  repeat 97%N 249 ++ str ". " ++ repeat 98%N 249.
Definition long_sentence : pystr := repeat 97%N 501.

(** A reply whose objective questions are numbered 10 and 11. *)
Definition reply_numbered_from_ten : pystr :=
  reply no_gaps (str "10") (str "A") (str "11") (str "B")
                (str "1") (str "C") (str "2") (str "D").

(** An embedder that fails on more than one text, and one that fails on
    every call. *)
Definition fails_on_long_batches (texts : list pystr) : outcome (list Z) :=
  match texts with
  | _ :: _ :: _ => Raise (ExternalError (str "out of memory"))
  | _ => ref_encode texts
  end.

Definition no_model : list pystr -> outcome (list Z) :=
  fun _ => Raise (ExternalError (str "model not loaded")).

(** A generator that gives the same reply to every prompt, and one that
    fails on every prompt. *)
Definition canned_reply (reply_text : pystr) : pystr -> outcome pystr :=
  fun _ => Return reply_text.

Definition service_down : pystr -> outcome pystr :=
  fun _ => Raise (ExternalError (str "quota exceeded")).

Definition sample_reply : pystr :=
  reply no_gaps (str "1") (str "What is a chunk?") (str "2") (str "Define top_k.")
                (str "1") (str "Explain chunking.") (str "2") (str "Why embed?").

(** A transcript of two short sentences, the store it is built into by
    [ref_encode], and a request body with both fields. *)
Definition ref_read_file : pystr -> outcome pystr :=
  fun _ => Return (str "One. Two").

Definition READY_STORE : store Z :=
  {| chunks := Some [str "One. Two."]; embeddings := Some [9%Z] |}.

Definition request (co bloom : pystr) : dict :=
  [(COURSE_OUTCOME, JString co); (BLOOM_LEVEL, JString bloom);
   (str "save_to_json", JBool false)].

(** Stand-ins for the embedder and for [str] on a value that is not a
    string; the requests below hold strings only. *)
Definition rejects_value : json -> outcome (list Z) := fun _ => Raise TypeError.
Definition no_format : json -> pystr := fun _ => [].

(** The handler on the reference collaborators. *)
Definition ref_handler (encode : list pystr -> outcome (list Z))
    (generate_content : pystr -> outcome pystr) : json -> stmt Z response :=
  api_generate_questions encode Z.sub Z.abs argsort_stable generate_content
    ref_read_file (fun _ => false) rejects_value no_format.

(* ================================================================== *)
(** * Facts about the [str] methods *)
(* ================================================================== *)

Example split_sentences :
  split (str "One. Two. Three") (str ". ") = [str "One"; str "Two"; str "Three"].
Proof. reflexivity. Qed.

Example split_trailing_separator :
  split (str "One. ") (str ". ") = [str "One"; []].
Proof. reflexivity. Qed.

Example split_no_separator : split (str "One") (str ". ") = [str "One"].
Proof. reflexivity. Qed.

Example strip_both_ends : strip (NL ++ str "  1. Why?  " ++ NL) = str "1. Why?".
Proof. reflexivity. Qed.

Example strip_blank : strip (str "   ") = [].
Proof. reflexivity. Qed.

Example find_separator : find (str "1. Why?") (str ". ") = 1%Z.
Proof. reflexivity. Qed.

Example find_absent : find (str "10.") (str ". ") = (-1)%Z.
Proof. reflexivity. Qed.

Example replace_marker :
  replace (str "Objective Questions:1. Why?") OBJECTIVE_MARKER [] = str "1. Why?".
Proof. reflexivity. Qed.

Example slice_to_negative : slice_to [1; 2; 3] (-1) = [1; 2].
Proof. reflexivity. Qed.

Example slice_to_past_the_end : slice_to [1; 2; 3] 7 = [1; 2; 3].
Proof. reflexivity. Qed.

Lemma len_app (A : Type) (l1 l2 : list A) : len (l1 ++ l2) = (len l1 + len l2)%Z.
Proof. unfold len. rewrite length_app. lia. Qed.

Lemma len_nonneg (A : Type) (l : list A) : (0 <= len l)%Z.
Proof. unfold len. lia. Qed.

(** ** [strip] *)

Lemma lstrip_length (s : pystr) : length (lstrip s) <= length s.
Proof.
  induction s as [|c s IH]; simpl; [lia|].
  destruct (isspace c); simpl; lia.
Qed.

Lemma rstrip_length (s : pystr) : length (rstrip s) <= length s.
Proof.
  unfold rstrip. rewrite length_rev.
  pose proof (lstrip_length (rev s)) as H. rewrite length_rev in H. exact H.
Qed.

Lemma strip_length (s : pystr) : length (strip s) <= length s.
Proof.
  unfold strip.
  pose proof (rstrip_length (lstrip s)). pose proof (lstrip_length s). lia.
Qed.

Lemma lstrip_app (s t : pystr) :
  lstrip (s ++ t) = if forallb isspace s then lstrip t else lstrip s ++ t.
Proof.
  induction s as [|c s IH]; simpl; [reflexivity|].
  destruct (isspace c); simpl; [exact IH | reflexivity].
Qed.

Lemma lstrip_all_space (s : pystr) : forallb isspace s = true -> lstrip s = [].
Proof.
  induction s as [|c s IH]; simpl; [reflexivity|].
  destruct (isspace c); simpl; [exact IH | discriminate].
Qed.

Lemma lstrip_head (c : pychar) (s : pystr) :
  isspace c = false -> lstrip (c :: s) = c :: s.
Proof. intros H. simpl. rewrite H. reflexivity. Qed.

Lemma forallb_rev (A : Type) (f : A -> bool) (l : list A) :
  forallb f (rev l) = forallb f l.
Proof.
  induction l as [|a l IH]; simpl; [reflexivity|].
  rewrite forallb_app, IH. simpl. rewrite andb_true_r. apply andb_comm.
Qed.

Lemma rstrip_app_space (s ws : pystr) :
  forallb isspace ws = true -> rstrip (s ++ ws) = rstrip s.
Proof.
  intros H. unfold rstrip. rewrite rev_app_distr, lstrip_app.
  rewrite forallb_rev, H. reflexivity.
Qed.

Lemma rstrip_app_keep (a b : pystr) :
  b <> [] -> rstrip b = b -> rstrip (a ++ b) = a ++ b.
Proof.
  intros Hne Hb. unfold rstrip in *.
  rewrite rev_app_distr, lstrip_app.
  assert (Hl : lstrip (rev b) = rev b).
  { rewrite <- (rev_involutive (lstrip (rev b))), Hb. reflexivity. }
  destruct (forallb isspace (rev b)) eqn:Hall.
  - apply lstrip_all_space in Hall. rewrite Hall in Hl.
    exfalso. apply Hne. rewrite <- (rev_involutive b), <- Hl. reflexivity.
  - rewrite Hl, <- rev_app_distr, rev_involutive. reflexivity.
Qed.

(** A trailing whitespace character never reaches the chunk. *)
Lemma strip_snoc_space (x : pystr) (c : pychar) :
  isspace c = true -> strip (x ++ [c]) = strip x.
Proof.
  intros Hc. unfold strip. rewrite lstrip_app.
  destruct (forallb isspace x) eqn:Hall.
  - simpl. rewrite Hc. rewrite (lstrip_all_space x Hall). reflexivity.
  - apply rstrip_app_space. simpl. rewrite Hc. reflexivity.
Qed.

(** [strip] keeps a text that starts and ends with a non-space and drops
    the whitespace around it. *)
Lemma strip_core (pre post : pystr) (c : pychar) (body : pystr) :
  forallb isspace pre = true ->
  forallb isspace post = true ->
  isspace c = false ->
  rstrip (c :: body) = c :: body ->
  strip (pre ++ (c :: body) ++ post) = c :: body.
Proof.
  intros Hpre Hpost Hc Hr. unfold strip.
  rewrite lstrip_app, Hpre.
  change ((c :: body) ++ post) with (c :: (body ++ post)).
  rewrite lstrip_head by exact Hc.
  change (c :: (body ++ post)) with ((c :: body) ++ post).
  rewrite rstrip_app_space by exact Hpost. exact Hr.
Qed.

Lemma strip_clean (c : pychar) (body : pystr) :
  isspace c = false -> rstrip (c :: body) = c :: body ->
  strip (c :: body) = c :: body.
Proof.
  intros Hc Hr.
  pose proof (@strip_core [] [] c body eq_refl eq_refl Hc Hr) as H.
  simpl in H. rewrite app_nil_r in H. exact H.
Qed.

(** ** [startswith], [in], [find] *)

Lemma starts_with_app (p t : pystr) : starts_with p (p ++ t) = true.
Proof.
  induction p as [|a p IH]; simpl; [reflexivity|].
  rewrite N.eqb_refl. exact IH.
Qed.

Lemma starts_with_inv (p s : pystr) :
  starts_with p s = true -> exists t, s = p ++ t.
Proof.
  revert s. induction p as [|a p IH]; intros s H.
  - exists s. reflexivity.
  - destruct s as [|b s]; simpl in H; [discriminate|].
    apply andb_true_iff in H. destruct H as [Hab Hp].
    apply N.eqb_eq in Hab. subst b.
    destruct (IH s Hp) as [t ->]. exists t. reflexivity.
Qed.

Lemma starts_with_nil_r (p : pystr) : p <> [] -> starts_with p [] = false.
Proof. destruct p; [congruence | reflexivity]. Qed.

Lemma occurs_cons (sub s : pystr) (c : pychar) : occurs sub s -> occurs sub (c :: s).
Proof. intros (pre & post & ->). exists (c :: pre), post. reflexivity. Qed.

Lemma index_of_Some (sub s : pystr) (i : nat) :
  index_of sub s = Some i ->
  exists pre post, s = pre ++ sub ++ post /\ length pre = i.
Proof.
  revert i. induction s as [|c s IH]; intros i H; simpl in H.
  - destruct (starts_with sub []) eqn:Hs; [|discriminate].
    injection H as <-. apply starts_with_inv in Hs. destruct Hs as [t Ht].
    exists [], t. split; [exact Ht | reflexivity].
  - destruct (starts_with sub (c :: s)) eqn:Hs.
    + injection H as <-. apply starts_with_inv in Hs. destruct Hs as [t Ht].
      exists [], t. split; [exact Ht | reflexivity].
    + destruct (index_of sub s) as [j|] eqn:Hj; simpl in H; [|discriminate].
      injection H as <-.
      destruct (IH j eq_refl) as (pre & post & -> & Hlen).
      exists (c :: pre), post. split; [reflexivity | simpl; lia].
Qed.

Lemma index_of_None (sub s : pystr) : index_of sub s = None <-> ~ occurs sub s.
Proof.
  split.
  - induction s as [|c s IH]; intros H (pre & post & Heq); simpl in H.
    + destruct (starts_with sub []) eqn:Hs; [discriminate|].
      symmetry in Heq. apply app_eq_nil in Heq. destruct Heq as [-> Heq].
      apply app_eq_nil in Heq. destruct Heq as [-> _]. discriminate.
    + destruct (starts_with sub (c :: s)) eqn:Hs; [discriminate|].
      destruct (index_of sub s) as [j|] eqn:Hj; simpl in H; [discriminate|].
      destruct pre as [|c' pre]; simpl in Heq.
      * rewrite Heq, starts_with_app in Hs. discriminate.
      * injection Heq as _ Heq. apply (IH eq_refl). exists pre, post. exact Heq.
  - intros Hn. destruct (index_of sub s) as [i|] eqn:Hi; [|reflexivity].
    exfalso. apply Hn. destruct (index_of_Some _ _ Hi) as (pre & post & Heq & _).
    exists pre, post. exact Heq.
Qed.

Lemma str_in_true (sub s : pystr) : str_in sub s = true <-> occurs sub s.
Proof.
  unfold str_in. destruct (index_of sub s) as [i|] eqn:Hi.
  - split; [|reflexivity]. intros _.
    destruct (index_of_Some _ _ Hi) as (pre & post & Heq & _).
    exists pre, post. exact Heq.
  - split; [discriminate|]. intros Ho.
    apply index_of_None in Hi. contradiction.
Qed.

Lemma str_in_false (sub s : pystr) : str_in sub s = false <-> ~ occurs sub s.
Proof.
  rewrite <- str_in_true. destruct (str_in sub s); split; congruence.
Qed.

Lemma occurs_refl (sub : pystr) : occurs sub sub.
Proof. exists [], []. simpl. rewrite app_nil_r. reflexivity. Qed.

Lemma occurs_app_l (sub a b : pystr) : occurs sub a -> occurs sub (a ++ b).
Proof.
  intros (pre & post & ->). exists pre, (post ++ b).
  rewrite <- !app_assoc. reflexivity.
Qed.

Lemma occurs_app_r (sub a b : pystr) : occurs sub b -> occurs sub (a ++ b).
Proof.
  intros (pre & post & ->). exists (a ++ pre), post.
  rewrite <- !app_assoc. reflexivity.
Qed.

(** An occurrence that starts inside a non-empty [pre] of
    [pre ++ sub ++ post] and is a prefix of the text lies within [pre]
    followed by all of [sub] but its last character. *)
Lemma early_prefix_occurs (r : pystr) (z : pychar) (pre post : pystr) :
  pre <> [] ->
  starts_with (r ++ [z]) (pre ++ (r ++ [z]) ++ post) = true ->
  occurs (r ++ [z]) (pre ++ r).
Proof.
  intros Hpre Hs. apply starts_with_inv in Hs. destruct Hs as [t Ht].
  assert (Hcut : firstn (length (r ++ [z])) (pre ++ r) = r ++ [z]).
  { assert (H1 : firstn (length (r ++ [z])) (pre ++ (r ++ [z]) ++ post)
                 = r ++ [z]).
    { rewrite Ht, firstn_app, firstn_all, Nat.sub_diag. simpl.
      apply app_nil_r. }
    replace (pre ++ (r ++ [z]) ++ post) with ((pre ++ r) ++ (z :: post)) in H1
      by (rewrite <- !app_assoc; reflexivity).
    rewrite firstn_app in H1.
    replace (length (r ++ [z]) - length (pre ++ r)) with 0 in H1.
    - simpl in H1. rewrite app_nil_r in H1. exact H1.
    - rewrite !length_app. simpl. destruct pre; [congruence | simpl; lia]. }
  exists [], (skipn (length (r ++ [z])) (pre ++ r)). simpl.
  pose proof (firstn_skipn (length (r ++ [z])) (pre ++ r)) as Hfs.
  rewrite Hcut in Hfs. symmetry. exact Hfs.
Qed.

(** Where [find] and [split] see the first occurrence. *)
Lemma index_of_first (sub pre post : pystr) :
  ~ occurs sub (pre ++ removelast sub) ->
  index_of sub (pre ++ sub ++ post) = Some (length pre).
Proof.
  induction pre as [|c pre IH]; intros Hno.
  - simpl. destruct (sub ++ post) eqn:E.
    + simpl. rewrite <- E, starts_with_app. reflexivity.
    + simpl. rewrite <- E, starts_with_app. reflexivity.
  - assert (Hne : sub <> []).
    { intros ->. apply Hno. exists [], ((c :: pre) ++ removelast []).
      reflexivity. }
    destruct (exists_last Hne) as (r & z & ->).
    rewrite removelast_last in Hno, IH.
    change ((c :: pre) ++ (r ++ [z]) ++ post)
      with (c :: (pre ++ (r ++ [z]) ++ post)).
    cbn [index_of].
    destruct (starts_with (r ++ [z]) (c :: pre ++ (r ++ [z]) ++ post)) eqn:Hs.
    + exfalso. apply Hno.
      apply (@early_prefix_occurs r z (c :: pre) post); [discriminate | exact Hs].
    + rewrite IH; [reflexivity|]. intros Ho. apply Hno.
      apply (@occurs_cons _ _ c) in Ho. exact Ho.
Qed.

(** A block without the character [c] that occurs in [a ++ c :: b] occurs
    in [a] or in [b]. *)
Lemma occurs_around_char (sub a b : pystr) (c : pychar) :
  ~ In c sub -> occurs sub (a ++ c :: b) -> occurs sub a \/ occurs sub b.
Proof.
  intros Hc (pre & post & Heq).
  apply app_eq_app in Heq. destruct Heq as [l [[Ha Hb] | [Hp Hb]]].
  - (* [a = pre ++ l], [sub ++ post = l ++ c :: b] *)
    apply app_eq_app in Hb. destruct Hb as [l' [[Hs Hcb] | [Hl Hpost]]].
    + destruct l' as [|x l'].
      * left. exists pre, []. rewrite app_nil_r in Hs. subst.
        rewrite app_nil_r. reflexivity.
      * exfalso. simpl in Hcb. injection Hcb as -> _.
        apply Hc. rewrite Hs. apply in_or_app. right. left. reflexivity.
    + left. exists pre, l'. subst. reflexivity.
  - (* [pre = a ++ l], [c :: b = l ++ sub ++ post] *)
    destruct l as [|x l].
    + destruct sub as [|y sub].
      * left. exists a, []. rewrite app_nil_r. reflexivity.
      * exfalso. simpl in Hb. injection Hb as -> _. apply Hc. left. reflexivity.
    + right. simpl in Hb. injection Hb as _ ->. exists l, post. reflexivity.
Qed.

(** A block whose first character is not in [a] and that occurs in
    [a ++ b] occurs in [b]. *)
Lemma occurs_after_prefix (x : pychar) (sub a b : pystr) :
  ~ In x a -> occurs (x :: sub) (a ++ b) -> occurs (x :: sub) b.
Proof.
  intros Hx (pre & post & Heq).
  apply app_eq_app in Heq. destruct Heq as [l [[Ha Hb] | [Hp Hb]]].
  - destruct l as [|y l].
    + exists [], post. simpl in *. symmetry. exact Hb.
    + exfalso. simpl in Hb. injection Hb as -> _.
      apply Hx. rewrite Ha. apply in_or_app. right. left. reflexivity.
  - exists l, post. exact Hb.
Qed.

Lemma occurs_single (c : pychar) (s : pystr) : occurs [c] s <-> In c s.
Proof.
  split.
  - intros (pre & post & ->). apply in_or_app. right. left. reflexivity.
  - intros H. apply in_split in H. destruct H as (l1 & l2 & ->).
    exists l1, l2. reflexivity.
Qed.

Lemma occurs_length (sub s : pystr) : occurs sub s -> length sub <= length s.
Proof. intros (pre & post & ->). rewrite !length_app. lia. Qed.

(** ** [split] *)

Lemma index_of_nil (sep : pystr) : sep <> [] -> index_of sep [] = None.
Proof. intros H. simpl. rewrite starts_with_nil_r by exact H. reflexivity. Qed.

Lemma split_fuel_enough (sep : pystr) :
  sep <> [] ->
  forall fuel1 fuel2 s,
    length s <= fuel1 -> length s <= fuel2 ->
    split_fuel fuel1 sep s = split_fuel fuel2 sep s.
Proof.
  intros Hsep. induction fuel1 as [|f1 IH]; intros fuel2 s H1 H2.
  - destruct s; [|simpl in H1; lia].
    destruct fuel2; simpl; [reflexivity|].
    rewrite starts_with_nil_r by exact Hsep. reflexivity.
  - destruct fuel2 as [|f2].
    + destruct s; [|simpl in H2; lia]. simpl.
      rewrite starts_with_nil_r by exact Hsep. reflexivity.
    + cbn [split_fuel]. destruct (index_of sep s) as [i|] eqn:Hi; [|reflexivity].
      f_equal. destruct (index_of_Some _ _ Hi) as (pre & post & Hs & Hlen).
      assert (length (skipn (i + length sep) s) < length s).
      { rewrite length_skipn. subst s. rewrite !length_app.
        destruct sep; [congruence | simpl; lia]. }
      apply IH; lia.
Qed.

(** The two equations of [split]. *)
Lemma split_None (s sep : pystr) : index_of sep s = None -> split s sep = [s].
Proof.
  intros H. unfold split. destruct (length s); simpl; [reflexivity|].
  rewrite H. reflexivity.
Qed.

Lemma split_Some (s sep : pystr) (i : nat) :
  sep <> [] -> index_of sep s = Some i ->
  split s sep = firstn i s :: split (skipn (i + length sep) s) sep.
Proof.
  intros Hsep Hi. unfold split.
  destruct (length s) as [|n] eqn:Hn.
  - destruct s; [|discriminate]. rewrite index_of_nil in Hi by exact Hsep.
    discriminate.
  - cbn [split_fuel]. rewrite Hi. f_equal.
    destruct (index_of_Some _ _ Hi) as (pre & post & Hs & Hlen).
    assert (length (skipn (i + length sep) s) < length s).
    { rewrite length_skipn. subst s. rewrite !length_app.
      destruct sep; [congruence | simpl; lia]. }
    apply split_fuel_enough; [exact Hsep | lia | lia].
Qed.

Lemma split_cut (pre sep post : pystr) :
  sep <> [] -> ~ occurs sep (pre ++ removelast sep) ->
  split (pre ++ sep ++ post) sep = pre :: split post sep.
Proof.
  intros Hsep Hno.
  rewrite (@split_Some _ sep (length pre) Hsep (index_of_first _ post Hno)).
  f_equal.
  - rewrite firstn_app, firstn_all, Nat.sub_diag. simpl. apply app_nil_r.
  - f_equal. rewrite app_assoc, <- length_app. 
    rewrite skipn_app, skipn_all, Nat.sub_diag. reflexivity.
Qed.

Lemma split_absent (s sep : pystr) : ~ occurs sep s -> split s sep = [s].
Proof. intros H. apply split_None, index_of_None, H. Qed.

Lemma split_not_nil (s sep : pystr) : split s sep <> [].
Proof.
  unfold split. destruct (length s); simpl; [discriminate|].
  destruct (index_of sep s); discriminate.
Qed.

(* ================================================================== *)
(** * The chunker *)
(* ================================================================== *)

Example chunk_text_three_sentences :
  chunk_text (str "One. Two. Three") 7 = [str "One."; str "Two."; str "Three."].
Proof. vm_compute. reflexivity. Qed.

(** The loop of [chunk_text] never leaves [current_chunk] empty once it
    has seen a sentence. *)
Lemma chunk_step_current (chunk_size : Z) (st : list pystr * pystr) (s : pystr) :
  snd (chunk_step chunk_size st s) <> [].
Proof.
  destruct st as [chunks cur]. unfold chunk_step.
  destruct (len cur + len s <=? chunk_size)%Z; simpl; intros H.
  - apply app_eq_nil in H. destruct H as [_ H].
    apply app_eq_nil in H. destruct H as [_ H]. discriminate.
  - apply app_eq_nil in H. destruct H as [_ H]. discriminate.
Qed.

Lemma chunk_loop_current (chunk_size : Z) (sentences : list pystr)
    (st : list pystr * pystr) :
  sentences <> [] \/ snd st <> [] ->
  snd (fold_left (chunk_step chunk_size) sentences st) <> [].
Proof.
  revert st. induction sentences as [|s rest IH]; intros st H; simpl.
  - destruct H as [H | H]; [congruence | exact H].
  - apply IH. right. apply chunk_step_current.
Qed.

(** [chunk_text] never returns an empty list. *)
Lemma chunk_text_not_nil (text : pystr) (chunk_size : Z) :
  chunk_text text chunk_size <> [].
Proof.
  unfold chunk_text. destruct text as [|c text]; [discriminate|].
  pose proof (@chunk_loop_current chunk_size (split (c :: text) (str ". "))
                ([], []) (or_introl (@split_not_nil _ _))) as H.
  destruct (fold_left _ _ _) as [chunks cur]. simpl in H.
  destruct cur; [congruence|].
  intros E. apply app_eq_nil in E. destruct E as [_ E]. discriminate.
Qed.

(** ** When a chunk is empty *)

Lemma lstrip_keeps (c : pychar) (s : pystr) :
  isspace c = false -> In c s -> In c (lstrip s).
Proof.
  intros Hc. induction s as [|a s IH]; intros Hin; [contradiction|].
  simpl. destruct (isspace a) eqn:Ha; [|exact Hin].
  destruct Hin as [-> | Hin]; [congruence | exact (IH Hin)].
Qed.

Lemma strip_keeps (c : pychar) (s : pystr) :
  isspace c = false -> In c s -> In c (strip s).
Proof.
  intros Hc Hin. unfold strip, rstrip.
  apply in_rev. rewrite rev_involutive.
  apply lstrip_keeps; [exact Hc|]. apply in_rev. rewrite rev_involutive.
  apply lstrip_keeps; assumption.
Qed.

(** A buffer that holds a sentence holds its full stop, which [strip]
    keeps. *)
Lemma strip_terminated_not_nil (cur : pystr) :
  In 46%N cur -> strip cur <> [].
Proof.
  intros Hin E. apply (@strip_keeps 46%N cur eq_refl) in Hin.
  rewrite E in Hin. contradiction.
Qed.

Lemma chunk_step_keeps_stop (chunk_size : Z) (st : list pystr * pystr) (s : pystr) :
  In 46%N (snd (chunk_step chunk_size st s)).
Proof.
  destruct st as [chunks cur]. unfold chunk_step.
  destruct (len cur + len s <=? chunk_size)%Z; simpl;
    rewrite ?in_app_iff; simpl; auto.
Qed.

Lemma chunk_loop_no_empty (chunk_size : Z) (l : list pystr)
    (st : list pystr * pystr) :
  Forall (fun c => c <> []) (fst st) -> In 46%N (snd st) ->
  Forall (fun c => c <> []) (fst (fold_left (chunk_step chunk_size) l st)) /\
  In 46%N (snd (fold_left (chunk_step chunk_size) l st)).
Proof.
  revert st. induction l as [|s l IH]; intros st Hchunks Hcur; cbn [fold_left].
  - split; assumption.
  - apply IH; [|apply chunk_step_keeps_stop].
    destruct st as [chunks cur]. unfold chunk_step.
    destruct (len cur + len s <=? chunk_size)%Z; simpl; [exact Hchunks|].
    apply Forall_app. split; [exact Hchunks|].
    constructor; [apply strip_terminated_not_nil, Hcur | constructor].
Qed.

Lemma chunk_loop_grows (chunk_size : Z) (l : list pystr)
    (chunks : list pystr) (cur : pystr) :
  exists more,
    fst (fold_left (chunk_step chunk_size) l (chunks, cur)) = chunks ++ more.
Proof.
  revert chunks cur. induction l as [|s l IH]; intros chunks cur; cbn [fold_left].
  - exists []. simpl. rewrite app_nil_r. reflexivity.
  - unfold chunk_step at 2.
    destruct (len cur + len s <=? chunk_size)%Z.
    + apply IH.
    + destruct (IH (chunks ++ [strip cur]) (s ++ str ". ")) as [more Hmore].
      exists (strip cur :: more). rewrite Hmore, <- app_assoc. reflexivity.
Qed.

(** Exactly when the first sentence is longer than the budget, the first
    chunk of [chunk_text] is the empty string ... *)
Lemma chunk_text_first_chunk_empty (text : pystr) (chunk_size : Z)
    (first : pystr) (rest : list pystr) :
  text <> [] ->
  split text (str ". ") = first :: rest ->
  (chunk_size < len first)%Z ->
  exists more, chunk_text text chunk_size = [] :: more.
Proof.
  intros Htext Hsplit Hlong. unfold chunk_text.
  destruct text as [|a text]; [congruence|]. rewrite Hsplit.
  cbn [fold_left]. unfold chunk_step at 2.
  change (len (@nil N)) with 0%Z.
  destruct (Z.leb_spec (0 + len first) chunk_size) as [Hfit|_]; [lia|].
  destruct (@chunk_loop_grows chunk_size rest ([] ++ [strip []])
              (first ++ str ". ")) as [more Hmore].
  destruct (fold_left _ rest _) as [chunks cur]. simpl in Hmore. subst chunks.
  destruct cur; eexists; reflexivity.
Qed.

(** ... and otherwise no chunk is empty. *)
Lemma chunk_text_no_empty_chunk (text : pystr) (chunk_size : Z)
    (first : pystr) (rest : list pystr) :
  text <> [] ->
  split text (str ". ") = first :: rest ->
  (len first <= chunk_size)%Z ->
  Forall (fun c => c <> []) (chunk_text text chunk_size).
Proof.
  intros Htext Hsplit Hfit. unfold chunk_text.
  destruct text as [|a text]; [congruence|]. rewrite Hsplit.
  cbn [fold_left]. unfold chunk_step at 2.
  change (len (@nil N)) with 0%Z.
  destruct (Z.leb_spec (0 + len first) chunk_size) as [_|Hlong]; [|lia].
  destruct (@chunk_loop_no_empty chunk_size rest ([], [] ++ first ++ str ". "))
    as [Hchunks Hcur].
  - constructor.
  - simpl. rewrite in_app_iff. right. left. reflexivity.
  - destruct (fold_left _ rest _) as [chunks cur]. simpl in Hchunks, Hcur.
    destruct cur as [|x cur]; [contradiction|].
    apply Forall_app. split; [exact Hchunks|].
    constructor; [apply strip_terminated_not_nil, Hcur | constructor].
Qed.

(** Stripping a buffer removes at least the space of its terminator. *)
Lemma strip_terminated (body : pystr) :
  (len (strip (body ++ str ". ")) <= len body + 1)%Z.
Proof.
  change (str ". ") with ([46%N] ++ [32%N]).
  rewrite app_assoc, strip_snoc_space by reflexivity.
  pose proof (strip_length (body ++ [46%N])) as H.
  rewrite length_app in H. change (length [46%N]) with 1 in H.
  unfold len. lia.
Qed.

(** C5.  For the empty text [chunk_text] returns exactly one chunk, the
    placeholder, whatever the budget. *)
Theorem chunk_text_empty_input (chunk_size : Z) :
  chunk_text [] chunk_size = [EMPTY_TRANSCRIPT_CHUNK] /\
  length (chunk_text [] chunk_size) = 1.
Proof. split; reflexivity. Qed.

(** C4.  A text that is one sentence of 501 characters, chunked with the
    default budget of 500: the loop flushes the still empty buffer before
    it stores the sentence, so the first chunk returned is the empty
    string.  (The flush after the loop is guarded by [if current_chunk:];
    the one inside the loop is not.) *)
Theorem chunk_text_flushes_empty_buffer :
  chunk_text long_sentence DEFAULT_CHUNK_SIZE = [[]; long_sentence ++ str "."].
Proof. vm_compute. reflexivity. Qed.

(** C3, as stated, fails: with the default budget of 500, two sentences of
    249 characters are packed into one chunk of 501 characters, because
    the test [len(current_chunk) + len(sentence) <= chunk_size] does not
    count the terminator appended after the sentence. *)
Lemma chunk_text_hard_budget_fails :
  split two_sentences (str ". ") = [repeat 97%N 249; repeat 98%N 249] /\
  chunk_text two_sentences DEFAULT_CHUNK_SIZE = [two_sentences ++ str "."] /\
  len (two_sentences ++ str ".") = 501%Z /\
  len (repeat 97%N 249) = 249%Z /\ len (repeat 98%N 249) = 249%Z.
Proof. vm_compute. repeat split. Qed.

(** ** Chunks as groups of whole sentences *)

Lemma packed_snoc (g : list pystr) (s : pystr) :
  packed (g ++ [s]) = packed g ++ s ++ str ". ".
Proof.
  unfold packed. rewrite map_app, concat_app. cbn [map concat].
  rewrite app_nil_r. reflexivity.
Qed.

(** The invariant of the loop: the chunks flushed so far are the groups
    [done], the buffer holds the group [g], and the two together are the
    sentences read so far.  Only the first flushed group can be empty. *)
Lemma chunk_loop_groups (chunk_size : Z) (l : list pystr) :
  forall done g,
    (done <> [] -> g <> []) ->
    Forall (fun x : list pystr => x <> []) (tl done) ->
    exists done' g',
      fold_left (chunk_step chunk_size) l (map render done, packed g)
      = (map render done', packed g') /\
      concat done' ++ g' = (concat done ++ g) ++ l /\
      Forall (fun x : list pystr => x <> []) (tl done') /\
      (g <> [] \/ l <> [] -> g' <> []).
Proof.
  induction l as [|s l IH]; intros done g Hg Hdone.
  - exists done, g. cbn [fold_left]. rewrite app_nil_r.
    repeat split; try assumption. intros [H|H]; congruence.
  - cbn [fold_left]. unfold chunk_step at 2.
    destruct (len (packed g) + len s <=? chunk_size)%Z.
    + rewrite <- packed_snoc.
      destruct (IH done (g ++ [s])) as (done' & g' & Hrun & Hcat & Ht & Hl).
      * intros _. destruct g; discriminate.
      * exact Hdone.
      * exists done', g'. rewrite Hrun, Hcat, <- !app_assoc.
        repeat split; try assumption.
        intros _. apply Hl. left. destruct g; discriminate.
    + change (s ++ str ". ") with (terminated s).
      replace (terminated s) with (packed [s])
        by (unfold packed; cbn [map concat]; apply app_nil_r).
      change (map render done ++ [strip (packed g)])
        with (map render done ++ map render [g]).
      rewrite <- map_app.
      destruct (IH (done ++ [g]) [s]) as (done' & g' & Hrun & Hcat & Ht & Hl).
      * intros _. discriminate.
      * destruct done as [|d done]; [constructor|].
        cbn [tl app] in *. apply Forall_app. split; [exact Hdone|].
        constructor; [|constructor]. apply Hg. discriminate.
      * exists done', g'. rewrite Hrun, Hcat, concat_app. cbn [concat].
        rewrite app_nil_r, <- !app_assoc.
        repeat split; try assumption.
        intros _. apply Hl. left. discriminate.
Qed.

(** X1.  The chunks of a non-empty text are groups of consecutive whole
    sentences: the sentences [text.split('. ')] fall, in order, into
    groups, and each chunk is one group, every sentence followed by
    ['. '], stripped.  No sentence is cut, dropped or repeated.  Only the
    first group can be empty. *)
Theorem chunk_text_groups_sentences (text : pystr) (chunk_size : Z) :
  text <> [] ->
  exists groups,
    concat groups = split text (str ". ") /\
    chunk_text text chunk_size = map render groups /\
    Forall (fun g : list pystr => g <> []) (tl groups).
Proof.
  intros Htext. destruct text as [|c text]; [congruence|].
  unfold chunk_text.
  destruct (@chunk_loop_groups chunk_size (split (c :: text) (str ". ")) [] [])
    as (done & g & Hrun & Hcat & Ht & Hl); [congruence | constructor |].
  change (@nil pystr, @nil N) with (map render [], packed []).
  rewrite Hrun. cbn [concat app] in Hcat.
  assert (Hg : g <> []).
  { apply Hl. right. apply split_not_nil. }
  assert (Hp : packed g <> []).
  { destruct g as [|s g]; [congruence|]. unfold packed, terminated.
    cbn [map concat]. destruct s; discriminate. }
  exists (done ++ [g]). split; [|split].
  - rewrite concat_app. cbn [concat]. rewrite app_nil_r. exact Hcat.
  - destruct (packed g) eqn:E; [congruence|]. rewrite <- E.
    rewrite map_app. reflexivity.
  - destruct done as [|d done]; [constructor|].
    cbn [tl app] in *. apply Forall_app. split; [exact Ht|].
    constructor; [exact Hg | constructor].
Qed.

Lemma chunk_text_groups_sentences_witness :
  exists groups,
    concat groups = split (str "One. Two. Three") (str ". ") /\
    chunk_text (str "One. Two. Three") 9 = map render groups /\
    Forall (fun g : list pystr => g <> []) (tl groups).
Proof.
  apply (@chunk_text_groups_sentences (str "One. Two. Three") 9). discriminate.
Defined.

(** ** How many chunks *)

Lemma chunk_loop_count (chunk_size : Z) (l : list pystr) :
  forall st,
    length (fst (fold_left (chunk_step chunk_size) l st))
    <= length (fst st) + length l.
Proof.
  induction l as [|s l IH]; intros [chunks cur]; cbn [fold_left].
  - cbn. lia.
  - etransitivity; [apply IH|]. unfold chunk_step.
    destruct (len cur + len s <=? chunk_size)%Z; cbn [fst length].
    + lia.
    + rewrite length_app. cbn [length]. lia.
Qed.

(** X2.  [chunk_text] returns at least one chunk, for every text and every
    budget, and at most one chunk more than the text has sentences. *)
Theorem chunk_text_count (text : pystr) (chunk_size : Z) :
  1 <= length (chunk_text text chunk_size)
    <= length (split text (str ". ")) + 1.
Proof.
  split.
  - pose proof (chunk_text_not_nil text chunk_size).
    destruct (chunk_text text chunk_size); [congruence | cbn; lia].
  - destruct text as [|c text]; [cbn; lia|].
    unfold chunk_text.
    pose proof (chunk_loop_count chunk_size (split (c :: text) (str ". ")) ([], []))
      as H.
    destruct (fold_left _ _ _) as [chunks cur]. cbn [fst length] in H.
    destruct cur; [lia|]. rewrite length_app. cbn [length]. lia.
Qed.

(** ** A text within the budget *)

Lemma split_fuel_not_nil (fuel : nat) (sep s : pystr) : split_fuel fuel sep s <> [].
Proof.
  destruct fuel; cbn; [discriminate|]. destruct (index_of sep s); discriminate.
Qed.

Lemma join_two (sep l l' : pystr) (rest : list pystr) :
  join sep (l :: l' :: rest) = l ++ sep ++ join sep (l' :: rest).
Proof. reflexivity. Qed.

(** [sep.join(s.split(sep)) == s]. *)
Lemma join_split_fuel (sep : pystr) (fuel : nat) :
  forall s, join sep (split_fuel fuel sep s) = s.
Proof.
  induction fuel as [|fuel IH]; intros s; cbn [split_fuel]; [reflexivity|].
  destruct (index_of sep s) as [i|] eqn:Hi; [|reflexivity].
  pose proof (split_fuel_not_nil fuel sep (skipn (i + length sep) s)) as Hne.
  cbn [join]. rewrite IH.
  destruct (split_fuel fuel sep (skipn (i + length sep) s)); [congruence|].
  destruct (index_of_Some _ _ Hi) as (pre & post & -> & <-).
  rewrite firstn_app, firstn_all, Nat.sub_diag. cbn [firstn].
  rewrite app_nil_r. f_equal.
  rewrite skipn_app.
  rewrite skipn_all2 by lia. cbn [app].
  replace (length pre + length sep - length pre) with (length sep) by lia.
  rewrite skipn_app, skipn_all, Nat.sub_diag. reflexivity.
Qed.

Lemma join_split (s sep : pystr) : join sep (split s sep) = s.
Proof. apply join_split_fuel. Qed.

Lemma packed_join (l : list pystr) :
  l <> [] -> packed l = join (str ". ") l ++ str ". ".
Proof.
  induction l as [|s l IH]; [congruence|]. intros _.
  unfold packed in *. cbn [map concat]. unfold terminated at 1.
  destruct l as [|s' l].
  - cbn [map concat join]. rewrite app_nil_r. reflexivity.
  - rewrite IH by discriminate. rewrite (join_two _ s).
    rewrite <- !app_assoc. reflexivity.
Qed.

(** While the buffer and the sentences still to come fit the budget
    together, nothing is flushed. *)
Lemma chunk_loop_fits (chunk_size : Z) (chunks : list pystr) (l : list pystr) :
  forall cur,
    (len cur + len (join (str ". ") l) <= chunk_size)%Z ->
    fold_left (chunk_step chunk_size) l (chunks, cur) = (chunks, cur ++ packed l).
Proof.
  induction l as [|s l IH]; intros cur Hfit.
  - cbn. rewrite app_nil_r. reflexivity.
  - cbn [fold_left]. unfold chunk_step at 2.
    assert (Hs : (len cur + len s <= chunk_size)%Z).
    { destruct l as [|s' l']; [exact Hfit|].
      rewrite join_two, len_app in Hfit.
      pose proof (len_nonneg (str ". " ++ join (str ". ") (s' :: l'))). lia. }
    destruct (Z.leb_spec (len cur + len s) chunk_size); [|lia].
    destruct l as [|s' l].
    + cbn [fold_left]. unfold packed, terminated. cbn [map concat].
      rewrite app_nil_r. reflexivity.
    + rewrite IH.
      * unfold packed. cbn [map concat]. unfold terminated.
        rewrite <- !app_assoc. reflexivity.
      * rewrite join_two in Hfit. rewrite !len_app in *. lia.
Qed.

(** X3.  A non-empty text that is no longer than the budget comes back as
    one chunk: the whole text followed by ['. '], stripped. *)
Theorem chunk_text_within_budget (text : pystr) (chunk_size : Z) :
  text <> [] ->
  (len text <= chunk_size)%Z ->
  chunk_text text chunk_size = [strip (text ++ str ". ")].
Proof.
  intros Htext Hfit. destruct text as [|c text]; [congruence|].
  unfold chunk_text. rewrite chunk_loop_fits.
  - cbn [app]. rewrite packed_join by apply split_not_nil.
    rewrite join_split. reflexivity.
  - rewrite join_split. exact Hfit.
Qed.

Lemma chunk_text_within_budget_witness :
  chunk_text (str "One. Two.  ") 11 = [strip (str "One. Two.  " ++ str ". ")].
Proof.
  apply chunk_text_within_budget; [discriminate | vm_compute; discriminate].
Defined.

(** ** Which chunks can be empty *)

Lemma chunk_loop_more (chunk_size : Z) (l : list pystr) :
  forall chunks cur,
    In 46%N cur ->
    exists more,
      fst (fold_left (chunk_step chunk_size) l (chunks, cur)) = chunks ++ more /\
      Forall (fun c : pystr => c <> []) more /\
      In 46%N (snd (fold_left (chunk_step chunk_size) l (chunks, cur))).
Proof.
  induction l as [|s l IH]; intros chunks cur Hcur; cbn [fold_left].
  - exists []. cbn [fst snd]. rewrite app_nil_r.
    split; [reflexivity|]. split; [constructor | exact Hcur].
  - pose proof (chunk_step_keeps_stop chunk_size (chunks, cur) s) as Hnext.
    unfold chunk_step in *.
    destruct (len cur + len s <=? chunk_size)%Z; cbn [snd] in Hnext.
    + apply IH. exact Hnext.
    + destruct (IH (chunks ++ [strip cur]) (s ++ str ". ") Hnext)
        as (more & Hmore & Hall & Hlast).
      exists (strip cur :: more). rewrite Hmore, <- app_assoc.
      split; [reflexivity|]. split; [|exact Hlast].
      constructor; [apply strip_terminated_not_nil, Hcur | exact Hall].
Qed.

(** X4.  Of the chunks of a non-empty text only the first can be the empty
    string, and it is exactly when the first sentence is longer than the
    budget: the loop then flushes the buffer before anything was put into
    it.  No later chunk is empty. *)
Theorem chunk_text_only_first_chunk_empty (text : pystr) (chunk_size : Z) :
  text <> [] ->
  exists first_chunk more,
    chunk_text text chunk_size = first_chunk :: more /\
    Forall (fun c : pystr => c <> []) more /\
    (first_chunk = [] <->
     (chunk_size < len (hd [] (split text (str ". "))))%Z).
Proof.
  intros Htext. destruct text as [|a text]; [congruence|].
  unfold chunk_text.
  destruct (split (a :: text) (str ". ")) as [|first rest] eqn:Hsplit;
    [exfalso; exact (split_not_nil _ _ Hsplit)|].
  cbn [hd fold_left]. unfold chunk_step at 2.
  change (len (@nil N)) with 0%Z.
  assert (Hstop : In 46%N (first ++ str ". ")).
  { rewrite in_app_iff. right. left. reflexivity. }
  destruct (Z.leb_spec (0 + len first) chunk_size) as [Hfit|Hlong].
  - cbn [app].
    destruct (@chunk_loop_more chunk_size rest [] (first ++ str ". ") Hstop)
      as (more & Hmore & Hall & Hcur).
    destruct (fold_left _ rest _) as [chunks cur]. cbn [fst snd app] in *.
    subst chunks. destruct cur as [|x cur]; [contradiction|].
    assert (Hlast : strip (x :: cur) <> [])
      by (apply strip_terminated_not_nil, Hcur).
    destruct more as [|c more].
    + exists (strip (x :: cur)), []. split; [reflexivity|].
      split; [constructor|]. split; [congruence | lia].
    + exists c, (more ++ [strip (x :: cur)]). split; [reflexivity|].
      inversion Hall as [|? ? Hc Hrest]; subst.
      split; [|split; [congruence | lia]].
      apply Forall_app. split; [exact Hrest|].
      constructor; [exact Hlast | constructor].
  - destruct (@chunk_loop_more chunk_size rest ([] ++ [strip []])
                (first ++ str ". ") Hstop)
      as (more & Hmore & Hall & Hcur).
    destruct (fold_left _ rest _) as [chunks cur]. cbn [fst snd app] in *.
    subst chunks. destruct cur as [|x cur]; [contradiction|].
    exists [], (more ++ [strip (x :: cur)]). split; [reflexivity|].
    split; [|split; [intros _; lia | reflexivity]].
    apply Forall_app. split; [exact Hall|].
    constructor; [apply strip_terminated_not_nil, Hcur | constructor].
Qed.

Lemma chunk_text_only_first_chunk_empty_witness :
  exists first_chunk more,
    chunk_text (str "abcdef. gh") 3 = first_chunk :: more /\
    Forall (fun c : pystr => c <> []) more /\
    (first_chunk = [] <->
     (3 < len (hd [] (split (str "abcdef. gh") (str ". "))))%Z).
Proof.
  apply (@chunk_text_only_first_chunk_empty (str "abcdef. gh") 3). discriminate.
Defined.

(** ** The soft budget *)

Lemma buffer_fits_flush (chunk_size : Z) (g : list pystr) :
  (0 <= chunk_size)%Z -> buffer_fits chunk_size g -> group_fits chunk_size g.
Proof.
  intros Hbudget [Hlen | Hlong]; [left | right; exact Hlong].
  destruct g as [|s g].
  - change (render []) with (@nil pychar). unfold len. cbn [length]. lia.
  - unfold render. rewrite packed_join in * by discriminate.
    pose proof (strip_terminated (join (str ". ") (s :: g))) as Hstrip.
    rewrite len_app in Hlen. change (len (str ". ")) with 2%Z in Hlen. lia.
Qed.

Lemma buffer_fits_single (chunk_size : Z) (s : pystr) : buffer_fits chunk_size [s].
Proof.
  destruct (Z_le_gt_dec (len s) chunk_size) as [Hs | Hs].
  - left. unfold packed, terminated. cbn [map concat].
    rewrite app_nil_r, len_app. change (len (str ". ")) with 2%Z. lia.
  - right. exists s. split; [reflexivity | lia].
Qed.

(** The invariant of the loop, with the budget: the chunks flushed so far
    are the groups [done], each within the soft budget, and the buffer
    holds the group [g]. *)
Lemma chunk_loop_budget (chunk_size : Z) (l : list pystr) :
  (0 <= chunk_size)%Z ->
  forall done g,
    Forall (group_fits chunk_size) done -> buffer_fits chunk_size g ->
    exists done' g',
      fold_left (chunk_step chunk_size) l (map render done, packed g)
      = (map render done', packed g') /\
      concat done' ++ g' = (concat done ++ g) ++ l /\
      Forall (group_fits chunk_size) done' /\
      buffer_fits chunk_size g' /\
      (g <> [] \/ l <> [] -> g' <> []).
Proof.
  intros Hbudget. induction l as [|s l IH]; intros done g Hdone Hg.
  - exists done, g. cbn [fold_left]. rewrite app_nil_r.
    repeat split; try assumption. intros [H|H]; congruence.
  - cbn [fold_left]. unfold chunk_step at 2.
    destruct (Z.leb_spec (len (packed g) + len s) chunk_size) as [Hfit|Hfull].
    + rewrite <- packed_snoc.
      destruct (IH done (g ++ [s])) as (done' & g' & Hrun & Hcat & Hd & Hb & Hl).
      * exact Hdone.
      * left. rewrite packed_snoc, !len_app.
        change (len (str ". ")) with 2%Z. lia.
      * exists done', g'. rewrite Hrun, Hcat, <- !app_assoc.
        repeat split; try assumption.
        intros _. apply Hl. left. destruct g; discriminate.
    + change (s ++ str ". ") with (terminated s).
      replace (terminated s) with (packed [s])
        by (unfold packed; cbn [map concat]; apply app_nil_r).
      change (map render done ++ [strip (packed g)])
        with (map render done ++ map render [g]).
      rewrite <- map_app.
      destruct (IH (done ++ [g]) [s]) as (done' & g' & Hrun & Hcat & Hd & Hb & Hl).
      * apply Forall_app. split; [exact Hdone|].
        constructor; [exact (buffer_fits_flush Hbudget Hg) | constructor].
      * apply buffer_fits_single.
      * exists done', g'. rewrite Hrun, Hcat, concat_app. cbn [concat].
        rewrite app_nil_r, <- !app_assoc.
        repeat split; try assumption.
        intros _. apply Hl. left. discriminate.
Qed.

(** C3, amended.  For a non-empty text and a budget that is not negative,
    the chunks of [chunk_text] are groups of consecutive whole sentences
    of the text: the sentences [text.split('. ')] fall, in order, into
    groups, and each chunk is one group, every sentence followed by
    ['. '], stripped; so no sentence is cut, dropped or repeated.  Every
    chunk is at most one character longer than the budget, or it is made
    of a single sentence that alone exceeds the budget: that sentence
    whole, followed by its terminator, and stripped. *)
Theorem chunk_text_soft_budget (text : pystr) (chunk_size : Z) :
  text <> [] ->
  (0 <= chunk_size)%Z ->
  exists groups,
    concat groups = split text (str ". ") /\
    chunk_text text chunk_size = map render groups /\
    Forall (fun group =>
              (len (render group) <= chunk_size + 1)%Z \/
              exists sentence,
                group = [sentence] /\ (chunk_size < len sentence)%Z /\
                render group = strip (sentence ++ str ". "))
           groups.
Proof.
  intros Htext Hbudget. destruct text as [|c text]; [congruence|].
  unfold chunk_text.
  destruct (@chunk_loop_budget chunk_size (split (c :: text) (str ". "))
              Hbudget [] [])
    as (done & g & Hrun & Hcat & Hd & Hb & Hl).
  { constructor. }
  { left. change (len (packed [])) with 0%Z. lia. }
  change (@nil pystr, @nil N) with (map render [], packed []).
  rewrite Hrun. cbn [concat app] in Hcat.
  assert (Hg : g <> []).
  { apply Hl. right. apply split_not_nil. }
  assert (Hp : packed g <> []).
  { destruct g as [|s g]; [congruence|]. unfold packed, terminated.
    cbn [map concat]. destruct s; discriminate. }
  exists (done ++ [g]). split; [|split].
  - rewrite concat_app. cbn [concat]. rewrite app_nil_r. exact Hcat.
  - destruct (packed g) eqn:E; [congruence|]. rewrite <- E.
    rewrite map_app. reflexivity.
  - assert (Hall : Forall (group_fits chunk_size) (done ++ [g])).
    { apply Forall_app. split; [exact Hd|].
      constructor; [exact (buffer_fits_flush Hbudget Hb) | constructor]. }
    eapply Forall_impl; [|exact Hall].
    intros group [Hlen | (sentence & -> & Hlong)]; [left; exact Hlen | right].
    exists sentence. split; [reflexivity|]. split; [exact Hlong|].
    unfold render, packed, terminated. cbn [map concat].
    rewrite app_nil_r. reflexivity.
Qed.

Lemma chunk_text_soft_budget_witness :
  exists groups,
    concat groups = split (str "abcdefghijkl. xy. z") (str ". ") /\
    chunk_text (str "abcdefghijkl. xy. z") 5 = map render groups /\
    Forall (fun group =>
              (len (render group) <= 5 + 1)%Z \/
              exists sentence,
                group = [sentence] /\ (5 < len sentence)%Z /\
                render group = strip (sentence ++ str ". "))
           groups.
Proof.
  apply (@chunk_text_soft_budget (str "abcdefghijkl. xy. z") 5);
    [discriminate | lia].
Defined.

(* ================================================================== *)
(** * The reply parser *)
(* ================================================================== *)

Lemma ascii_digit_range (d : pychar) :
  ascii_digit d = true -> (48 <= d <= 57)%N.
Proof.
  unfold ascii_digit. intros H. apply andb_true_iff in H.
  destruct H as [H1 H2]. apply N.leb_le in H1, H2. lia.
Qed.

Lemma ascii_digit_not_space (d : pychar) : ascii_digit d = true -> isspace d = false.
Proof.
  intros H. apply ascii_digit_range in H. unfold isspace.
  repeat match goal with
         | |- context [(?a <=? ?b)%N] =>
             destruct (N.leb_spec a b); [try (exfalso; lia) | try (exfalso; lia)]
         | |- context [(?a =? ?b)%N] =>
             destruct (N.eqb_spec a b); [try (exfalso; lia) | try (exfalso; lia)]
         end.
  reflexivity.
Qed.

Lemma ascii_digit_isdigit (ud : pychar -> bool) (d : pychar) :
  ascii_digit d = true -> isdigit ud d = true.
Proof.
  intros H. unfold isdigit. pose proof (ascii_digit_range d H) as Hr.
  destruct (N.ltb_spec d 128); [exact H | lia].
Qed.

(** No block occurs in a text made of lines none of which holds it, when
    the block itself has no line feed. *)
Lemma not_occurs_join (x : pychar) (m : pystr) (lines : list pystr) :
  ~ In 10%N (x :: m) ->
  Forall (fun l => ~ occurs (x :: m) l) lines ->
  ~ occurs (x :: m) (join NL lines).
Proof.
  intros Hnl. induction lines as [|l rest IH]; intros Hall.
  - simpl. intros Ho. apply occurs_length in Ho. simpl in Ho. lia.
  - inversion Hall as [|? ? Hl Hrest]; subst.
    destruct rest as [|l' rest].
    + exact Hl.
    + change (join NL (l :: l' :: rest)) with (l ++ 10%N :: join NL (l' :: rest)).
      intros Ho. apply occurs_around_char in Ho; [|exact Hnl].
      destruct Ho as [Ho | Ho]; [exact (Hl Ho) | exact (IH Hrest Ho)].
Qed.

Lemma not_occurs_shorter (sub s : pystr) : length s < length sub -> ~ occurs sub s.
Proof. intros H Ho. apply occurs_length in Ho. lia. Qed.

Section ParserFacts.

Variable unicode_isdigit : pychar -> bool.

Lemma separator_at_one (d : pychar) (rest : pystr) :
  index_of (str ". ") (d :: str ". " ++ rest) = Some 1.
Proof.
  apply (@index_of_first (str ". ") [d] rest).
  apply index_of_None. simpl. rewrite andb_false_r. reflexivity.
Qed.

(** A line ["<digit>. <question>"] yields the question. *)
Lemma parse_line_numbered (d : pychar) (q : pystr) :
  ascii_digit d = true -> q <> [] -> rstrip q = q ->
  parse_line unicode_isdigit (numbered_line [d] q) = Some q.
Proof.
  intros Hd Hq Hr. unfold numbered_line.
  change ([d] ++ str ". " ++ q) with (d :: str ". " ++ q).
  assert (Hstrip : strip (d :: str ". " ++ q) = d :: str ". " ++ q).
  { apply strip_clean; [apply ascii_digit_not_space, Hd|].
    change (d :: str ". " ++ q) with ((d :: str ". ") ++ q).
    apply rstrip_app_keep; assumption. }
  unfold parse_line. rewrite Hstrip.
  change (slice_to (d :: str ". " ++ q) 2) with [d; 46%N].
  change (slice_to (d :: str ". " ++ q) 3) with [d; 46%N; 32%N].
  cbn [existsb]. rewrite (ascii_digit_isdigit unicode_isdigit d Hd).
  cbn [orb].
  assert (Hin : str_in (str ". ") [d; 46%N; 32%N] = true).
  { apply str_in_true. exists [d], []. reflexivity. }
  rewrite Hin. unfold find. rewrite separator_at_one. reflexivity.
Qed.

Lemma numbered_line_no_marker (x : pychar) (m : pystr) (d : pychar) (q : pystr) :
  ascii_digit d = true ->
  ascii_digit x = false -> x <> 46%N -> x <> 32%N ->
  ~ occurs (x :: m) q ->
  ~ occurs (x :: m) (numbered_line [d] q).
Proof.
  intros Hd Hx0 Hx1 Hx2 Hq Ho. apply Hq.
  unfold numbered_line in Ho. rewrite app_assoc in Ho.
  apply occurs_after_prefix in Ho; [exact Ho|].
  simpl. intros [E | [E | [E | []]]]; subst x; congruence.
Qed.

End ParserFacts.

(** ** Lines joined by line feeds *)

Lemma join_cons (l l' : pystr) (rest : list pystr) :
  join NL (l :: l' :: rest) = l ++ NL ++ join NL (l' :: rest).
Proof. reflexivity. Qed.

Lemma join_app (xs ys : list pystr) :
  xs <> [] -> ys <> [] ->
  join NL (xs ++ ys) = join NL xs ++ NL ++ join NL ys.
Proof.
  intros Hxs Hys. induction xs as [|x xs IH]; [congruence|].
  destruct xs as [|x' xs].
  - destruct ys as [|y ys]; [congruence|]. reflexivity.
  - change ((x :: x' :: xs) ++ ys) with (x :: x' :: (xs ++ ys)).
    rewrite !join_cons.
    change (x' :: xs ++ ys) with ((x' :: xs) ++ ys).
    rewrite IH by discriminate. rewrite <- !app_assoc. reflexivity.
Qed.

Lemma join_blank_lines (k : nat) : join NL (blank_lines (S k)) = repeat 10%N k.
Proof.
  induction k as [|k IH]; [reflexivity|].
  change (blank_lines (S (S k))) with ([] :: [] :: blank_lines k).
  rewrite join_cons. change ([] :: blank_lines k) with (blank_lines (S k)).
  rewrite IH. reflexivity.
Qed.

Lemma join_padded (a c : nat) (lines : list pystr) :
  lines <> [] ->
  join NL (blank_lines a ++ lines ++ blank_lines c)
  = repeat 10%N a ++ join NL lines ++ repeat 10%N c.
Proof.
  intros Hlines.
  assert (Hright : join NL (lines ++ blank_lines c)
                   = join NL lines ++ repeat 10%N c).
  { destruct c as [|c]; [simpl; rewrite !app_nil_r; reflexivity|].
    rewrite join_app by (exact Hlines || discriminate).
    rewrite join_blank_lines. reflexivity. }
  assert (Hne : lines ++ blank_lines c <> []).
  { destruct lines; [congruence | discriminate]. }
  rewrite <- Hright. clear Hright.
  induction a as [|a IH]; [reflexivity|].
  change (blank_lines (S a) ++ lines ++ blank_lines c)
    with ([] :: (blank_lines a ++ lines ++ blank_lines c)).
  destruct (blank_lines a ++ lines ++ blank_lines c) as [|y ys] eqn:E.
  - apply app_eq_nil in E. destruct E as [_ E]. congruence.
  - rewrite join_cons, IH. reflexivity.
Qed.

(** [split] undoes [join] on lines that hold no line feed. *)
Lemma split_join (lines : list pystr) :
  lines <> [] -> Forall (fun l => ~ In 10%N l) lines ->
  split (join NL lines) NL = lines.
Proof.
  intros Hne Hall. induction Hall as [|l rest Hl Hrest IH]; [congruence|].
  destruct rest as [|l' rest].
  - apply split_absent. unfold NL. rewrite occurs_single. exact Hl.
  - rewrite join_cons, split_cut.
    + rewrite IH by discriminate. reflexivity.
    + discriminate.
    + change (removelast NL) with (@nil N). rewrite app_nil_r.
      unfold NL. rewrite occurs_single. exact Hl.
Qed.

Lemma feeds_are_space (k : nat) : forallb isspace (repeat 10%N k) = true.
Proof. induction k as [|k IH]; [reflexivity | exact IH]. Qed.

Lemma strip_padded (pre core post : pystr) :
  forallb isspace pre = true -> forallb isspace post = true ->
  core <> [] -> lstrip core = core -> rstrip core = core ->
  strip (pre ++ core ++ post) = core.
Proof.
  intros Hpre Hpost Hne Hl Hr. unfold strip.
  rewrite lstrip_app, Hpre, lstrip_app.
  destruct (forallb isspace core) eqn:Hall.
  - apply lstrip_all_space in Hall. congruence.
  - rewrite Hl, rstrip_app_space by exact Hpost. exact Hr.
Qed.

Lemma Forall_blank_lines (P : pystr -> Prop) (k : nat) :
  P [] -> Forall P (blank_lines k).
Proof. intros H. apply Forall_forall. intros x Hx. apply repeat_spec in Hx. subst. exact H. Qed.

Lemma Forall_question_lines (P : pystr -> Prop) (a b c : nat) (l l' : pystr) :
  P [] -> P l -> P l' -> Forall P (question_lines a b c l l').
Proof.
  intros H0 Hl Hl'. unfold question_lines.
  repeat (apply Forall_app; split);
    try (apply Forall_blank_lines; exact H0);
    constructor; (assumption || constructor).
Qed.

Lemma question_lines_not_nil (a b c : nat) (l l' : pystr) :
  question_lines a b c l l' <> [].
Proof.
  unfold question_lines. intros E.
  apply app_eq_nil in E. destruct E as [_ E]. discriminate.
Qed.

Section NumberedReply.

Variable unicode_isdigit : pychar -> bool.

Lemma numbered_line_no_feed (d : pychar) (q : pystr) :
  ascii_digit d = true -> ~ In 10%N q -> ~ In 10%N (numbered_line [d] q).
Proof.
  intros Hd Hq. unfold numbered_line. simpl.
  apply ascii_digit_range in Hd.
  intros [E | [E | [E | Hin]]]; try discriminate; [lia | exact (Hq Hin)].
Qed.

Lemma extract_blank_lines (k : nat) (rest : list pystr) :
  extract_questions unicode_isdigit (blank_lines k ++ rest)
  = extract_questions unicode_isdigit rest.
Proof. induction k as [|k IH]; [reflexivity | exact IH]. Qed.

(** What is parsed out of one part of the reply: two numbered lines, with
    empty lines and whitespace around them, yield their two questions. *)
Lemma part_questions (w1 w2 : pystr) (a b c : nat) (d d' : pychar) (q q' : pystr) :
  forallb isspace w1 = true -> forallb isspace w2 = true ->
  ascii_digit d = true -> ascii_digit d' = true ->
  q <> [] -> rstrip q = q -> ~ In 10%N q ->
  q' <> [] -> rstrip q' = q' -> ~ In 10%N q' ->
  extract_questions unicode_isdigit
    (split
       (strip (w1 ++ join NL (question_lines a b c (numbered_line [d] q)
                                (numbered_line [d'] q')) ++ w2))
       NL)
  = [q; q'].
Proof.
  intros Hw1 Hw2 Hd Hd' Hq Hr Hn Hq' Hr' Hn'.
  set (l := numbered_line [d] q). set (l' := numbered_line [d'] q').
  set (core_lines := [l] ++ blank_lines b ++ [l']).
  assert (Hcore_ne : core_lines <> []) by discriminate.
  assert (Hjoin : join NL (question_lines a b c l l')
                  = repeat 10%N a ++ join NL core_lines ++ repeat 10%N c).
  { unfold question_lines.
    replace (blank_lines a ++ [l] ++ blank_lines b ++ [l'] ++ blank_lines c)
      with (blank_lines a ++ core_lines ++ blank_lines c)
      by (unfold core_lines; rewrite <- !app_assoc; reflexivity).
    apply join_padded, Hcore_ne. }
  assert (Hhead : exists body, join NL core_lines = d :: body).
  { unfold core_lines.
    replace ([l] ++ blank_lines b ++ [l']) with (l :: (blank_lines b ++ [l']))
      by reflexivity.
    destruct (blank_lines b ++ [l']) as [|y ys] eqn:E.
    - apply app_eq_nil in E. destruct E as [_ E]. discriminate.
    - rewrite join_cons. unfold l, numbered_line. eexists. reflexivity. }
  assert (Htail : rstrip (join NL core_lines) = join NL core_lines).
  { unfold core_lines.
    replace ([l] ++ blank_lines b ++ [l']) with (([l] ++ blank_lines b) ++ [l'])
      by (rewrite <- app_assoc; reflexivity).
    rewrite join_app by discriminate.
    change (join NL [l']) with ([d'] ++ str ". " ++ q').
    rewrite !app_assoc. apply rstrip_app_keep; assumption. }
  assert (Hstrip : strip (w1 ++ join NL (question_lines a b c l l') ++ w2)
                   = join NL core_lines).
  { rewrite Hjoin.
    replace (w1 ++ (repeat 10%N a ++ join NL core_lines ++ repeat 10%N c) ++ w2)
      with ((w1 ++ repeat 10%N a) ++ join NL core_lines
              ++ (repeat 10%N c ++ w2))
      by (rewrite <- !app_assoc; reflexivity).
    destruct Hhead as [body Hbody].
    apply strip_padded.
    - rewrite forallb_app, Hw1, feeds_are_space. reflexivity.
    - rewrite forallb_app, Hw2, feeds_are_space. reflexivity.
    - rewrite Hbody. discriminate.
    - rewrite Hbody. apply lstrip_head, ascii_digit_not_space, Hd.
    - exact Htail. }
  rewrite Hstrip, split_join.
  - unfold core_lines. cbn [app extract_questions].
    unfold l. rewrite parse_line_numbered by assumption.
    rewrite extract_blank_lines. cbn [extract_questions].
    unfold l'. rewrite parse_line_numbered by assumption. reflexivity.
  - exact Hcore_ne.
  - unfold core_lines. repeat (apply Forall_app; split).
    + constructor; [apply numbered_line_no_feed; assumption | constructor].
    + apply Forall_blank_lines. intros [].
    + constructor; [apply numbered_line_no_feed; assumption | constructor].
Qed.

End NumberedReply.

Lemma marker_free_join (mk : pystr) (lines : list pystr) :
  is_marker mk ->
  Forall (fun l => ~ occurs mk l) lines -> ~ occurs mk (join NL lines).
Proof.
  intros [-> | ->].
  - change OBJECTIVE_MARKER with (79%N :: tl OBJECTIVE_MARKER).
    apply not_occurs_join. vm_compute. intuition discriminate.
  - change SHORT_ANSWER_MARKER with (83%N :: tl SHORT_ANSWER_MARKER).
    apply not_occurs_join. vm_compute. intuition discriminate.
Qed.

Lemma marker_free_line (mk : pystr) (d : pychar) (q : pystr) :
  is_marker mk -> ascii_digit d = true ->
  ~ occurs mk q -> ~ occurs mk (numbered_line [d] q).
Proof.
  intros [-> | ->] Hd.
  - change OBJECTIVE_MARKER with (79%N :: tl OBJECTIVE_MARKER).
    apply numbered_line_no_marker; [exact Hd | reflexivity | | ]; discriminate.
  - change SHORT_ANSWER_MARKER with (83%N :: tl SHORT_ANSWER_MARKER).
    apply numbered_line_no_marker; [exact Hd | reflexivity | | ]; discriminate.
Qed.

Lemma markers_apart :
  ~ occurs SHORT_ANSWER_MARKER OBJECTIVE_MARKER /\
  ~ occurs OBJECTIVE_MARKER SHORT_ANSWER_MARKER.
Proof. split; apply str_in_false; reflexivity. Qed.

(** C7.  A reply in which one of the two markers does not occur is parsed
    into two empty lists, and the call returns (it does not raise). *)
Theorem parse_questions_missing_marker (unicode_isdigit : pychar -> bool)
    (questions_text : pystr) :
  ~ occurs OBJECTIVE_MARKER questions_text \/
  ~ occurs SHORT_ANSWER_MARKER questions_text ->
  parse_questions unicode_isdigit questions_text = Return NO_QUESTIONS.
Proof.
  intros H. unfold parse_questions.
  destruct H as [H | H]; apply str_in_false in H; rewrite H.
  - reflexivity.
  - rewrite andb_false_r. reflexivity.
Qed.

Lemma parse_questions_missing_marker_witness :
  parse_questions (fun _ => false)
    (str "Objective Questions: 1. What is a chunk?")
  = Return NO_QUESTIONS.
Proof.
  apply parse_questions_missing_marker.
  right. apply str_in_false. reflexivity.
Defined.

(** [parse_questions] never raises: when both markers occur, [split]
    returns at least two parts. *)
Lemma parse_questions_returns (unicode_isdigit : pychar -> bool)
    (questions_text : pystr) :
  exists result, parse_questions unicode_isdigit questions_text = Return result.
Proof.
  unfold parse_questions.
  destruct (str_in OBJECTIVE_MARKER questions_text); cbn [andb];
    [|eexists; reflexivity].
  destruct (str_in SHORT_ANSWER_MARKER questions_text) eqn:Hs;
    [|eexists; reflexivity].
  unfold str_in in Hs.
  destruct (index_of SHORT_ANSWER_MARKER questions_text) as [i|] eqn:Hi;
    [|discriminate].
  rewrite (@split_Some _ SHORT_ANSWER_MARKER i) by (discriminate || exact Hi).
  pose proof (@split_not_nil
                (skipn (i + length SHORT_ANSWER_MARKER) questions_text)
                SHORT_ANSWER_MARKER) as Hne.
  destruct (split (skipn (i + length SHORT_ANSWER_MARKER) questions_text)
              SHORT_ANSWER_MARKER) as [|p1 rest]; [congruence|].
  eexists. reflexivity.
Qed.

(** C8, amended.  A reply in the format the prompt asks for, each marker
    on a line of its own and followed by two lines ["<digit>. <question>"]
    numbered with one decimal digit, with any number of empty lines
    between these lines, is parsed into exactly the two objective and the
    two short-answer questions, without their number prefixes. *)
Theorem parse_questions_numbered_reply (unicode_isdigit : pychar -> bool)
    (gaps : nat -> nat) (d1 d2 d3 d4 : pychar) (q1 q2 q3 q4 : pystr) :
  ascii_digit d1 = true -> ascii_digit d2 = true ->
  ascii_digit d3 = true -> ascii_digit d4 = true ->
  question_text q1 -> question_text q2 ->
  question_text q3 -> question_text q4 ->
  parse_questions unicode_isdigit (reply gaps [d1] q1 [d2] q2 [d3] q3 [d4] q4)
  = Return {| objective := [q1; q2]; subjective := [q3; q4] |}.
Proof.
  intros Hd1 Hd2 Hd3 Hd4
    (Hq1 & Hr1 & Hn1 & Ho1 & Hs1) (Hq2 & Hr2 & Hn2 & Ho2 & Hs2)
    (Hq3 & Hr3 & Hn3 & Ho3 & Hs3) (Hq4 & Hr4 & Hn4 & Ho4 & Hs4).
  set (l1 := numbered_line [d1] q1). set (l2 := numbered_line [d2] q2).
  set (l3 := numbered_line [d3] q3). set (l4 := numbered_line [d4] q4).
  set (X := question_lines (gaps 0) (gaps 1) (gaps 2) l1 l2).
  set (Y := question_lines (gaps 3) (gaps 4) (gaps 5) l3 l4).
  set (obj_rest := NL ++ join NL X ++ NL).
  set (subj_rest := NL ++ join NL Y ++ []).
  assert (HX : X <> []) by apply question_lines_not_nil.
  assert (HY : Y <> []) by apply question_lines_not_nil.
  assert (Hshape : reply gaps [d1] q1 [d2] q2 [d3] q3 [d4] q4
                   = (OBJECTIVE_MARKER ++ obj_rest)
                       ++ SHORT_ANSWER_MARKER ++ subj_rest).
  { unfold reply. fold l1 l2 l3 l4. fold X Y.
    replace ([OBJECTIVE_MARKER] ++ X ++ [SHORT_ANSWER_MARKER] ++ Y)
      with (([OBJECTIVE_MARKER] ++ X) ++ ([SHORT_ANSWER_MARKER] ++ Y))
      by (rewrite <- app_assoc; reflexivity).
    rewrite join_app by discriminate.
    rewrite (join_app (xs := [OBJECTIVE_MARKER])) by (discriminate || exact HX).
    rewrite (join_app (xs := [SHORT_ANSWER_MARKER])) by (discriminate || exact HY).
    unfold obj_rest, subj_rest. cbn [join].
    rewrite ?app_nil_r, <- ?app_assoc. reflexivity. }
  assert (Hfree : forall mk, is_marker mk ->
            Forall (fun l => ~ occurs mk l) X /\ Forall (fun l => ~ occurs mk l) Y).
  { intros mk Hmk.
    assert (Hblank : ~ occurs mk []).
    { apply not_occurs_shorter. destruct Hmk as [-> | ->]; simpl; lia. }
    split; apply Forall_question_lines; try exact Hblank;
      apply marker_free_line; try assumption;
      destruct Hmk as [-> | ->]; assumption. }
  assert (Hobj_free : ~ occurs OBJECTIVE_MARKER obj_rest).
  { destruct (Hfree OBJECTIVE_MARKER (or_introl eq_refl)) as [FX _].
    replace obj_rest with (join NL (([[]] ++ X) ++ [[]])).
    - apply marker_free_join; [left; reflexivity|].
      apply Forall_app. split; [apply Forall_app; split; [|exact FX]|];
        (constructor; [apply not_occurs_shorter; simpl; lia | constructor]).
    - rewrite join_app by discriminate.
      rewrite (join_app (xs := [[]])) by (discriminate || exact HX).
      unfold obj_rest. cbn [join]. rewrite ?app_nil_r, <- ?app_assoc. reflexivity. }
  assert (Hsubj_free : ~ occurs SHORT_ANSWER_MARKER subj_rest).
  { destruct (Hfree SHORT_ANSWER_MARKER (or_intror eq_refl)) as [_ FY].
    replace subj_rest with (join NL ([[]] ++ Y)).
    - apply marker_free_join; [right; reflexivity|].
      apply Forall_app. split; [|exact FY].
      constructor; [apply not_occurs_shorter; simpl; lia | constructor].
    - rewrite (join_app (xs := [[]])) by (discriminate || exact HY).
      unfold subj_rest. cbn [join]. rewrite ?app_nil_r, <- ?app_assoc. reflexivity. }
  assert (Hfirst : ~ occurs SHORT_ANSWER_MARKER
                     ((OBJECTIVE_MARKER ++ obj_rest)
                        ++ removelast SHORT_ANSWER_MARKER)).
  { destruct (Hfree SHORT_ANSWER_MARKER (or_intror eq_refl)) as [FX _].
    replace ((OBJECTIVE_MARKER ++ obj_rest) ++ removelast SHORT_ANSWER_MARKER)
      with (join NL (([OBJECTIVE_MARKER] ++ X)
                       ++ [removelast SHORT_ANSWER_MARKER])).
    - apply marker_free_join; [right; reflexivity|].
      apply Forall_app. split; [apply Forall_app; split; [|exact FX]|].
      + constructor; [apply markers_apart | constructor].
      + constructor; [apply not_occurs_shorter; simpl; lia | constructor].
    - rewrite join_app by discriminate.
      rewrite (join_app (xs := [OBJECTIVE_MARKER])) by (discriminate || exact HX).
      unfold obj_rest. cbn [join]. rewrite ?app_nil_r, <- ?app_assoc. reflexivity. }
  unfold parse_questions.
  assert (Hin1 : str_in OBJECTIVE_MARKER
                   (reply gaps [d1] q1 [d2] q2 [d3] q3 [d4] q4) = true).
  { apply str_in_true. rewrite Hshape. apply occurs_app_l, occurs_app_l.
    apply occurs_refl. }
  assert (Hin2 : str_in SHORT_ANSWER_MARKER
                   (reply gaps [d1] q1 [d2] q2 [d3] q3 [d4] q4) = true).
  { apply str_in_true. rewrite Hshape. apply occurs_app_r, occurs_app_l.
    apply occurs_refl. }
  rewrite Hin1, Hin2. cbn [andb].
  rewrite Hshape, split_cut by (discriminate || exact Hfirst).
  rewrite (split_absent Hsubj_free).
  cbn [index nth_error bind].
  assert (Hreplace : replace (OBJECTIVE_MARKER ++ obj_rest) OBJECTIVE_MARKER []
                     = obj_rest).
  { unfold replace.
    change (OBJECTIVE_MARKER ++ obj_rest)
      with ([] ++ OBJECTIVE_MARKER ++ obj_rest).
    rewrite split_cut.
    - rewrite (split_absent Hobj_free). reflexivity.
    - discriminate.
    - apply not_occurs_shorter. simpl. lia. }
  rewrite Hreplace. unfold obj_rest, subj_rest, X, Y, l1, l2, l3, l4.
  rewrite !part_questions by (assumption || reflexivity).
  reflexivity.
Qed.

(** What the parser makes of it: [". "] is looked for in the first three
    characters only, so a number of two digits stays in the question. *)
Lemma parse_questions_numbered_from_ten (unicode_isdigit : pychar -> bool) :
  parse_questions unicode_isdigit reply_numbered_from_ten
  = Return {| objective := [str "10. A"; str "11. B"];
              subjective := [str "C"; str "D"] |}.
Proof. vm_compute. reflexivity. Qed.

(** C8, as stated, fails: the reply has both markers, each followed by
    two lines ["<number>. <question>"], and whatever digits Unicode has
    above ASCII the parser does not return the four questions without
    their numbers. *)
Lemma parse_questions_keeps_long_numbers :
  reply_numbered_from_ten
  = join NL [ str "Objective Questions:"; str "10. A"; str "11. B";
              str "Short Answer Questions:"; str "1. C"; str "2. D" ] /\
  decimal (str "10") /\ decimal (str "11") /\
  ~ exists unicode_isdigit,
      parse_questions unicode_isdigit reply_numbered_from_ten
      = Return {| objective := [str "A"; str "B"];
                  subjective := [str "C"; str "D"] |}.
Proof.
  split; [reflexivity|].
  split; [split; [discriminate | reflexivity]|].
  split; [split; [discriminate | reflexivity]|].
  intros [ud H]. rewrite parse_questions_numbered_from_ten in H.
  discriminate H.
Qed.

Lemma question_text_check (q : pystr) :
  q <> [] -> rstrip q = q -> existsb (N.eqb 10) q = false ->
  str_in OBJECTIVE_MARKER q = false -> str_in SHORT_ANSWER_MARKER q = false ->
  question_text q.
Proof.
  intros H1 H2 H3 H4 H5. repeat split; try assumption.
  - intros Hin. assert (existsb (N.eqb 10) q = true); [|congruence].
    apply existsb_exists. exists 10%N. split; [exact Hin | reflexivity].
  - apply str_in_false, H4.
  - apply str_in_false, H5.
Qed.

Lemma parse_questions_numbered_reply_witness :
  parse_questions (fun _ => false)
    (reply gap_before_second_marker
           (str "1") (str "What is a chunk?") (str "2") (str "Define top_k.")
           (str "1") (str "Explain chunking.") (str "2") (str "Why embed?"))
  = Return {| objective := [str "What is a chunk?"; str "Define top_k."];
              subjective := [str "Explain chunking."; str "Why embed?"] |}.
Proof.
  apply (@parse_questions_numbered_reply (fun _ => false)
           gap_before_second_marker 49 50 49 50)%N;
    try reflexivity;
    apply question_text_check; (discriminate || reflexivity).
Defined.

(** ** What every parsed question looks like *)

Lemma lstrip_idempotent (s : pystr) : lstrip (lstrip s) = lstrip s.
Proof.
  induction s as [|c s IH]; [reflexivity|].
  cbn [lstrip]. destruct (isspace c) eqn:Hc; [exact IH|].
  cbn [lstrip]. rewrite Hc. reflexivity.
Qed.

Lemma rstrip_idempotent (s : pystr) : rstrip (rstrip s) = rstrip s.
Proof.
  unfold rstrip. rewrite rev_involutive, lstrip_idempotent. reflexivity.
Qed.

Lemma rstrip_strip (s : pystr) : rstrip (strip s) = strip s.
Proof. unfold strip. apply rstrip_idempotent. Qed.

Lemma lstrip_incl (c : pychar) (s : pystr) : In c (lstrip s) -> In c s.
Proof.
  induction s as [|a s IH]; [tauto|]. cbn [lstrip].
  destruct (isspace a); [right; auto | tauto].
Qed.

Lemma strip_incl (c : pychar) (s : pystr) : In c (strip s) -> In c s.
Proof.
  unfold strip, rstrip. intros H. apply in_rev in H.
  apply lstrip_incl in H. apply in_rev in H. apply lstrip_incl in H. exact H.
Qed.

(** A string without whitespace at its end has none at the end of any of
    its non-empty suffixes ... *)
Lemma rstrip_suffix (a b : pystr) :
  b <> [] -> rstrip (a ++ b) = a ++ b -> rstrip b = b.
Proof.
  intros Hb H. unfold rstrip in *.
  apply (f_equal (@rev N)) in H. rewrite rev_involutive, rev_app_distr in H.
  rewrite lstrip_app in H.
  destruct (forallb isspace (rev b)) eqn:Hsp.
  - exfalso. pose proof (lstrip_length (rev a)) as Hlen.
    rewrite H, length_app in Hlen.
    assert (length (rev b) <> 0).
    { rewrite length_rev. destruct b; [congruence | discriminate]. }
    lia.
  - apply app_inv_tail in H. rewrite H. apply rev_involutive.
Qed.

(** ... and does not end with a whitespace character. *)
Lemma rstrip_ends_with_space (a : pystr) (c : pychar) :
  isspace c = true -> rstrip (a ++ [c]) <> a ++ [c].
Proof.
  intros Hc H. rewrite rstrip_app_space in H by (cbn; rewrite Hc; reflexivity).
  pose proof (rstrip_length a) as Hlen. rewrite H, length_app in Hlen.
  cbn in Hlen. lia.
Qed.

(** The pieces of [s.split("\n")] hold no line feed. *)
Lemma index_of_char_first (c : pychar) (s : pystr) (i : nat) :
  index_of [c] s = Some i -> ~ In c (firstn i s).
Proof.
  revert i. induction s as [|a s IH]; intros i H.
  - cbn in H. discriminate.
  - cbn [index_of starts_with] in H.
    destruct (N.eqb_spec c a) as [->|Hca].
    + destruct s; cbn in H; injection H as <-; intros [].
    + cbn [andb] in H. destruct (index_of [c] s) as [j|] eqn:Hj; [|discriminate].
      injection H as <-. cbn [firstn]. intros [Hin | Hin]; [congruence|].
      exact (IH j eq_refl Hin).
Qed.

Lemma split_fuel_lines (fuel : nat) :
  forall s, length s <= fuel ->
    Forall (fun line : pystr => ~ In 10%N line) (split_fuel fuel NL s).
Proof.
  induction fuel as [|fuel IH]; intros s Hlen; cbn [split_fuel].
  - destruct s; [|cbn in Hlen; lia]. constructor; [tauto | constructor].
  - destruct (index_of NL s) as [i|] eqn:Hi.
    + constructor; [apply index_of_char_first, Hi|].
      apply IH. destruct (index_of_Some _ _ Hi) as (pre & post & -> & <-).
      rewrite length_skipn, !length_app in *. cbn [length NL] in *. lia.
    + constructor; [|constructor].
      apply index_of_None in Hi. intros Hin. apply Hi. apply occurs_single, Hin.
Qed.

Lemma split_lines (s : pystr) :
  Forall (fun line : pystr => ~ In 10%N line) (split s NL).
Proof. apply split_fuel_lines. apply le_n. Qed.

Section ParsedQuestions.

Variable unicode_isdigit : pychar -> bool.

(** The question a line yields: the stripped line, or what follows the
    first [". "] of it; there is something after that [". "], because the
    stripped line does not end with the space. *)
Lemma parse_line_clean (line q : pystr) :
  ~ In 10%N line ->
  parse_line unicode_isdigit line = Some q -> clean_question q.
Proof.
  intros Hline. unfold parse_line.
  destruct (strip line) as [|x question'] eqn:Hq; [discriminate|].
  destruct (existsb _ _); [|discriminate]. cbv zeta.
  set (question := x :: question') in *.
  assert (Hne : question <> []) by discriminate.
  assert (Hr : rstrip question = question).
  { rewrite <- Hq. apply rstrip_strip. }
  assert (Hnl : ~ In 10%N question).
  { intros Hin. apply Hline. apply strip_incl. rewrite Hq. exact Hin. }
  clearbody question.
  destruct (str_in (str ". ") (slice_to question 3)) eqn:Hin.
  - intros H. injection H as <-.
    apply str_in_true in Hin. unfold slice_to in Hin. cbn [Z.leb Z.compare] in Hin.
    assert (Hocc : occurs (str ". ") question).
    { rewrite <- (firstn_skipn (Z.to_nat 3) question). apply occurs_app_l, Hin. }
    unfold find.
    destruct (index_of (str ". ") question) as [i|] eqn:Hi;
      [|apply index_of_None in Hi; contradiction].
    destruct (index_of_Some _ _ Hi) as (pre & post & Hsplit & Hpre).
    unfold slice_from.
    destruct (Z.leb_spec 0 (Z.of_nat i + 2)); [|lia].
    replace (Z.to_nat (Z.of_nat i + 2)) with (length pre + length (str ". "))
      by (cbn [length str map list_ascii_of_string]; lia).
    assert (Hskip : skipn (length pre + length (str ". ")) question = post).
    { rewrite Hsplit, app_assoc, <- length_app.
      rewrite skipn_app, skipn_all, Nat.sub_diag. reflexivity. }
    rewrite Hskip.
    assert (Hpost : post <> []).
    { intros ->. rewrite app_nil_r in Hsplit.
      change (str ". ") with ([46%N] ++ [32%N]) in Hsplit.
      rewrite app_assoc in Hsplit. rewrite Hsplit in Hr.
      exact (@rstrip_ends_with_space (pre ++ [46%N]) 32%N eq_refl Hr). }
    split; [exact Hpost|]. split.
    + apply (@rstrip_suffix (pre ++ str ". ") post Hpost).
      rewrite <- app_assoc, <- Hsplit. exact Hr.
    + intros Hp. apply Hnl. rewrite Hsplit. apply in_or_app. right.
      apply in_or_app. right. exact Hp.
  - intros H. injection H as <-. repeat split; assumption.
Qed.

Lemma extract_questions_clean (lines : list pystr) :
  Forall (fun line : pystr => ~ In 10%N line) lines ->
  Forall clean_question (extract_questions unicode_isdigit lines).
Proof.
  induction 1 as [|line lines Hline _ IH]; cbn [extract_questions]; [constructor|].
  destruct (parse_line unicode_isdigit line) as [q|] eqn:Hq; [|exact IH].
  constructor; [exact (@parse_line_clean line q Hline Hq) | exact IH].
Qed.

End ParsedQuestions.

(** X5.  [parse_questions] raises on no text ([parts[1]] exists whenever
    the second marker is in the text), and every question of either list
    it returns is a non-empty string on one line with no whitespace at its
    end: stripping the number prefix never leaves an empty question. *)
Theorem parse_questions_clean (unicode_isdigit : pychar -> bool)
    (questions_text : pystr) :
  exists result,
    parse_questions unicode_isdigit questions_text = Return result /\
    Forall clean_question (objective result) /\
    Forall clean_question (subjective result).
Proof.
  destruct (parse_questions_returns unicode_isdigit questions_text) as [result H].
  exists result. split; [exact H|].
  unfold parse_questions in H.
  destruct (_ && _).
  - destruct (index (split questions_text SHORT_ANSWER_MARKER) 0) as [p0|];
      [|discriminate].
    cbn [bind] in H.
    destruct (index (split questions_text SHORT_ANSWER_MARKER) 1) as [p1|];
      [|discriminate].
    cbn [bind] in H. injection H as <-. cbn [objective subjective].
    split; apply extract_questions_clean, split_lines.
  - injection H as <-. split; constructor.
Qed.

(* ================================================================== *)
(** * The generator call *)
(* ================================================================== *)

(** [generate_questions] always returns: whatever the service does, no
    exception leaves the [try]. *)
Lemma generate_questions_returns (generate_content : pystr -> outcome pystr)
    (retrieved_content co_text bloom_level : pystr) :
  exists text,
    generate_questions generate_content retrieved_content co_text bloom_level
    = Return text.
Proof.
  unfold generate_questions.
  destruct (generate_content _) as [text | e]; simpl; eexists; reflexivity.
Qed.

(** C9.  When the call to the generation service raises, on whatever
    prompt, [generate_questions] returns the fixed error string; the
    exception does not reach the caller. *)
Theorem generate_questions_service_failure
    (generate_content : pystr -> outcome pystr)
    (retrieved_content co_text bloom_level : pystr) (e : pyexc) :
  generate_content (full_prompt retrieved_content co_text bloom_level) = Raise e ->
  generate_questions generate_content retrieved_content co_text bloom_level
  = Return GENERATION_ERROR.
Proof.
  intros Hfail. unfold generate_questions. rewrite Hfail. reflexivity.
Qed.

Lemma generate_questions_service_failure_witness :
  generate_questions (fun _ => Raise (ExternalError (str "quota exceeded")))
    (str "Chunks are retrieval units.") (str "CO1") (str "Understand")
  = Return GENERATION_ERROR.
Proof.
  apply (@generate_questions_service_failure _ _ _ _
           (ExternalError (str "quota exceeded"))).
  reflexivity.
Defined.

(* ================================================================== *)
(** * A reference embedder and two reference argsorts *)
(* ================================================================== *)

Example argsort_stable_ex : argsort_stable [3; 1; 3; 0]%Z = [3; 1; 0; 2].
Proof. reflexivity. Qed.

(** On these four values the network and the insertion sort agree ... *)
Example argsort_four_lanes_ex : argsort_four_lanes [3; 1; 3; 0]%Z = [3; 1; 0; 2].
Proof. reflexivity. Qed.

(** ... and on these they do not: the mirrored exchange carries the two
    keys 0 past the two keys 1 in reversed order. *)
Example argsort_four_lanes_ties :
  argsort_stable [1; 1; 0; 0]%Z = [2; 3; 0; 1] /\
  argsort_four_lanes [1; 1; 0; 0]%Z = [3; 2; 1; 0].
Proof. split; reflexivity. Qed.

Section InsertionArgsort.

Variable before : Z -> Z -> bool.
Hypothesis before_true : forall a b, before a b = true -> (a <= b)%Z.
Hypothesis before_false : forall a b, before a b = false -> (b <= a)%Z.

Lemma insert_by_perm (x : nat * Z) (l : list (nat * Z)) :
  Permutation (insert_by before x l) (x :: l).
Proof.
  induction l as [|y l IH]; simpl; [apply Permutation_refl|].
  destruct (before (snd x) (snd y)); [apply Permutation_refl|].
  eapply perm_trans; [apply perm_skip, IH | apply perm_swap].
Qed.

Lemma sort_by_perm (l : list (nat * Z)) : Permutation (sort_by before l) l.
Proof.
  induction l as [|x l IH]; simpl; [constructor|].
  eapply perm_trans; [apply insert_by_perm | apply perm_skip, IH].
Qed.

Lemma insert_by_sorted (x : nat * Z) (l : list (nat * Z)) :
  StronglySorted by_value l ->
  StronglySorted by_value (insert_by before x l).
Proof.
  induction 1 as [|y l Hl IH Hy]; simpl.
  - constructor; constructor.
  - destruct (before (snd x) (snd y)) eqn:Hb.
    + apply before_true in Hb.
      constructor; [constructor; assumption|].
      constructor; [exact Hb|].
      eapply Forall_impl; [|exact Hy]. unfold by_value. intros z Hz. lia.
    + apply before_false in Hb. constructor; [exact IH|].
      eapply Permutation_Forall; [apply Permutation_sym, insert_by_perm|].
      constructor; assumption.
Qed.

Lemma sort_by_sorted (l : list (nat * Z)) :
  StronglySorted by_value (sort_by before l).
Proof.
  induction l as [|x l IH]; simpl; [constructor | apply insert_by_sorted, IH].
Qed.

End InsertionArgsort.

Lemma strongly_sorted_nth (A : Type) (R : A -> A -> Prop) (l : list A) :
  StronglySorted R l ->
  forall a b x y, a < b -> nth_error l a = Some x -> nth_error l b = Some y ->
  R x y.
Proof.
  induction 1 as [|z l Hl IH Hz]; intros a b x y Hab Ha Hb.
  - destruct a; discriminate.
  - destruct b as [|b]; [lia|]. simpl in Hb. destruct a as [|a].
    + simpl in Ha. injection Ha as <-.
      rewrite Forall_forall in Hz. apply Hz. eapply nth_error_In, Hb.
    + simpl in Ha. apply (IH a b); [lia | assumption | assumption].
Qed.

Lemma enumerate_from (ds : list Z) (start i : nat) (d : Z) :
  In (i, d) (combine (seq start (length ds)) ds) ->
  start <= i /\ nth_error ds (i - start) = Some d.
Proof.
  revert start. induction ds as [|x ds IH]; intros start H; simpl in H.
  - contradiction.
  - destruct H as [H | H].
    + injection H as <- <-. rewrite Nat.sub_diag. split; [lia | reflexivity].
    + apply IH in H. destruct H as [Hle Hnth]. split; [lia|].
      replace (i - start) with (S (i - S start)) by lia. exact Hnth.
Qed.

Lemma enumerate_fst (ds : list Z) : map fst (enumerate ds) = seq 0 (length ds).
Proof.
  unfold enumerate. generalize 0.
  induction ds as [|x ds IH]; intros start; simpl; [reflexivity|].
  f_equal. apply IH.
Qed.

(** Both reference argsorts meet what NumPy documents. *)
Lemma insertion_argsort_spec (before : Z -> Z -> bool) :
  (forall a b, before a b = true -> (a <= b)%Z) ->
  (forall a b, before a b = false -> (b <= a)%Z) ->
  argsort_spec Z.leb (fun ds => map fst (sort_by before (enumerate ds))).
Proof.
  intros Ht Hf ds. split.
  - rewrite <- enumerate_fst. apply Permutation_map, sort_by_perm.
  - intros a b ia ib da db Hab Ha Hb Hda Hdb.
    rewrite nth_error_map in Ha, Hb.
    destruct (nth_error (sort_by before (enumerate ds)) a) as [[ia' da']|] eqn:Ea;
      [|discriminate].
    destruct (nth_error (sort_by before (enumerate ds)) b) as [[ib' db']|] eqn:Eb;
      [|discriminate].
    simpl in Ha, Hb. injection Ha as ->. injection Hb as ->.
    pose proof (@strongly_sorted_nth _ _ _
                  (sort_by_sorted before Ht Hf (enumerate ds))
                  a b _ _ Hab Ea Eb) as Hle.
    unfold by_value in Hle. simpl in Hle.
    assert (Hia : nth_error ds ia = Some da').
    { apply nth_error_In in Ea.
      apply (Permutation_in _ (sort_by_perm before (enumerate ds))) in Ea.
      apply enumerate_from in Ea. rewrite Nat.sub_0_r in Ea. apply Ea. }
    assert (Hib : nth_error ds ib = Some db').
    { apply nth_error_In in Eb.
      apply (Permutation_in _ (sort_by_perm before (enumerate ds))) in Eb.
      apply enumerate_from in Eb. rewrite Nat.sub_0_r in Eb. apply Eb. }
    rewrite Hia in Hda. rewrite Hib in Hdb.
    injection Hda as <-. injection Hdb as <-.
    apply Z.leb_le. exact Hle.
Qed.

Lemma argsort_stable_spec : argsort_spec Z.leb argsort_stable.
Proof.
  apply insertion_argsort_spec; intros a b H.
  - apply Z.leb_le, H.
  - apply Z.leb_gt in H. lia.
Qed.

Lemma ref_euclidean_spec :
  euclidean_spec Z.leb 0%Z Z.sub Z.abs.
Proof.
  split.
  - intros v. rewrite Z.sub_diag. reflexivity.
  - intros u v Huv. apply Z.leb_gt. lia.
Qed.

(* ================================================================== *)
(** * The retriever *)
(* ================================================================== *)

Lemma slice_to_firstn (A : Type) (l : list A) (k : Z) :
  exists m, slice_to l k = firstn m l.
Proof. unfold slice_to. destruct (0 <=? k)%Z; eexists; reflexivity. Qed.

Lemma slice_to_len (A : Type) (l : list A) (k : Z) :
  (0 <= k)%Z -> len (slice_to l k) = Z.min k (len l).
Proof.
  intros Hk. unfold slice_to, len.
  destruct (Z.leb_spec 0 k); [|lia]. rewrite length_firstn. lia.
Qed.

(** [[chunks[i] for i in idxs]] returns when every index is in range. *)
Lemma mapM_index (chunks : list pystr) (idxs : list nat) :
  Forall (fun i => i < length chunks) idxs ->
  exists result,
    mapM (fun i => index chunks i) idxs = Return result /\
    Forall2 (fun i c => nth_error chunks i = Some c) idxs result.
Proof.
  induction 1 as [|i idxs Hi _ IH].
  - exists []. split; [reflexivity | constructor].
  - destruct IH as (rest & Hrest & Hall).
    destruct (nth_error chunks i) as [c|] eqn:Hc.
    + exists (c :: rest). split.
      * cbn [mapM]. unfold index at 1. rewrite Hc. cbn [bind].
        rewrite Hrest. reflexivity.
      * constructor; assumption.
    + apply nth_error_None in Hc. lia.
Qed.

Section RetrieverFacts.

Variables vec F : Type.
Variable encode : list pystr -> outcome (list vec).
Variable vsub : vec -> vec -> vec.
Variable norm : vec -> F.
Variable argsort : list F -> list nat.
Variable fle : F -> F -> bool.
Hypothesis argsort_ok : argsort_spec fle argsort.

Lemma argsort_length (ds : list F) : length (argsort ds) = length ds.
Proof.
  rewrite (Permutation_length (proj1 (argsort_ok ds))). apply length_seq.
Qed.

Lemma argsort_range (ds : list F) (i : nat) : In i (argsort ds) <-> i < length ds.
Proof.
  split; intros H.
  - apply (Permutation_in _ (proj1 (argsort_ok ds))) in H.
    apply in_seq in H. lia.
  - apply (Permutation_in _ (Permutation_sym (proj1 (argsort_ok ds)))).
    apply in_seq. lia.
Qed.

Lemma argsort_NoDup (ds : list F) : NoDup (argsort ds).
Proof.
  apply (Permutation_NoDup (Permutation_sym (proj1 (argsort_ok ds)))).
  apply seq_NoDup.
Qed.

(** The run of [semantic_search] once the query is embedded: the chunks at
    a prefix of the ranking. *)
Lemma semantic_search_run (query_text : pystr) (chunks : list pystr)
    (embeddings : list vec) (top_k : Z) (q : vec) (rows : list vec) :
  encode [query_text] = Return (q :: rows) ->
  length chunks = length embeddings ->
  exists m result,
    semantic_search encode vsub norm argsort query_text chunks embeddings top_k
    = Return result /\
    slice_to (argsort (distances_to vsub norm q embeddings)) top_k
    = firstn m (argsort (distances_to vsub norm q embeddings)) /\
    Forall2 (fun i c => nth_error chunks i = Some c)
      (firstn m (argsort (distances_to vsub norm q embeddings))) result /\
    ((0 <= top_k)%Z -> len result = Z.min top_k (len chunks)).
Proof.
  intros Henc Hlen. unfold semantic_search. rewrite Henc.
  cbn [bind index nth_error].
  set (ds := distances_to vsub norm q embeddings).
  destruct (slice_to_firstn (argsort ds) top_k) as [m Hm].
  destruct (@mapM_index chunks (firstn m (argsort ds))) as (result & Hres & Hall).
  - apply Forall_forall. intros i Hi.
    assert (Hin : In i (argsort ds)).
    { rewrite <- (firstn_skipn m (argsort ds)). apply in_or_app. left. exact Hi. }
    apply argsort_range in Hin. unfold ds, distances_to in Hin.
    rewrite length_map in Hin. lia.
  - exists m, result. rewrite Hm. repeat split; [exact Hres | exact Hall |].
    intros Hk. apply Forall2_length in Hall. rewrite <- Hm in Hall.
    pose proof (slice_to_len (argsort ds) Hk) as Hcount.
    unfold len in *. rewrite <- Hall, Hcount, argsort_length.
    unfold ds, distances_to. rewrite length_map, Hlen. reflexivity.
Qed.

End RetrieverFacts.

Lemma firstn_nearest_first (F : Type) (fle : F -> F -> bool)
    (argsort : list F -> list nat) (ds : list F) (m : nat) :
  argsort_spec fle argsort ->
  nearest_first fle ds (firstn m (argsort ds)).
Proof.
  intros Hspec. destruct (Hspec ds) as [Hperm Hsorted].
  pose proof (argsort_NoDup Hspec ds) as Hnd.
  repeat split.
  - rewrite <- (firstn_skipn m (argsort ds)) in Hnd.
    apply NoDup_app_remove_r in Hnd. exact Hnd.
  - intros a b ia ib da db Hab Ha Hb Hda Hdb.
    rewrite nth_error_firstn in Ha, Hb.
    destruct (a <? m); [|discriminate]. destruct (b <? m); [|discriminate].
    exact (Hsorted a b ia ib da db Hab Ha Hb Hda Hdb).
  - intros i j di dj Hi Hj Hdi Hdj.
    apply In_nth_error in Hi. destruct Hi as [a Ha].
    rewrite nth_error_firstn in Ha.
    destruct (Nat.ltb_spec a m) as [Ham|]; [|discriminate].
    assert (Hjin : In j (argsort ds)).
    { apply (argsort_range Hspec). apply nth_error_Some. congruence. }
    apply In_nth_error in Hjin. destruct Hjin as [b Hb].
    destruct (Nat.ltb_spec b m) as [Hbm | Hbm].
    + exfalso. apply Hj. apply (@nth_error_In _ _ b).
      rewrite nth_error_firstn.
      destruct (Nat.ltb_spec b m); [exact Hb | lia].
    + apply (Hsorted a b i j di dj); [lia | assumption..].
Qed.

(** C10, as stated, fails for a negative [top_k]: the slice [[:top_k]]
    then drops entries from the end.  With two chunks and [top_k = -1]
    one chunk comes back, and [min(top_k, n)] is [-1].  (The two distances
    differ, so every argsort gives this ranking.) *)
Lemma semantic_search_negative_top_k :
  distances_to Z.sub Z.abs 2%Z [1; 5]%Z = [1; 3]%Z /\
  semantic_search ref_encode Z.sub Z.abs argsort_stable
    (str "ab") [str "x"; str "y"] [1; 5]%Z (-1) = Return [str "x"] /\
  Z.min (-1) (len [str "x"; str "y"]) = (-1)%Z.
Proof. repeat split. Qed.

(** C10, amended.  On a store of [n] chunks and [n] embeddings, for every
    [top_k] that is not negative, [semantic_search] returns (no index is
    out of range) and the result has [min(top_k, n)] chunks; so a [top_k]
    above [n] gives all [n] chunks.  The call to the embedder is taken to
    have returned at least one row. *)
Theorem semantic_search_count (vec F : Type)
    (encode : list pystr -> outcome (list vec))
    (vsub : vec -> vec -> vec) (norm : vec -> F)
    (argsort : list F -> list nat) (fle : F -> F -> bool)
    (query_text : pystr) (chunks : list pystr) (embeddings : list vec)
    (top_k : Z) (q : vec) (rows : list vec) :
  argsort_spec fle argsort ->
  encode [query_text] = Return (q :: rows) ->
  length chunks = length embeddings ->
  (0 <= top_k)%Z ->
  exists result,
    semantic_search encode vsub norm argsort query_text chunks embeddings top_k
    = Return result /\
    len result = Z.min top_k (len chunks).
Proof.
  intros Hspec Henc Hlen Hk.
  destruct (@semantic_search_run vec F encode vsub norm argsort fle Hspec
              query_text chunks embeddings top_k q rows Henc Hlen)
    as (m & result & Hrun & _ & _ & Hcount).
  exists result. split; [exact Hrun | exact (Hcount Hk)].
Qed.

Lemma semantic_search_count_witness :
  exists result,
    semantic_search ref_encode Z.sub Z.abs argsort_stable
      (str "ab") [str "x"; str "y"] [1; 5]%Z 7 = Return result /\
    len result = Z.min 7 (len [str "x"; str "y"]).
Proof.
  apply (@semantic_search_count Z Z ref_encode Z.sub Z.abs argsort_stable Z.leb
           (str "ab") [str "x"; str "y"] [1; 5]%Z 7 2%Z []).
  - exact argsort_stable_spec.
  - reflexivity.
  - reflexivity.
  - lia.
Defined.

(** C2, as stated, fails on the order of ties.  [np.argsort] is called
    with its default kind, which NumPy documents as not stable, and a
    NumPy that sorts with the vectorised network does reorder equal
    distances.  Four chunks at the distances 1, 1, 0 and 0: the two
    nearest are the third and the fourth, and the claim ranks the third
    first.  The network ranks the fourth first, so with the default
    [top_k] of 1 the chunk returned is the fourth; the full ranking is
    ascending by distance and is the stored order reversed. *)
Lemma semantic_search_tie_order_fails :
  distances_to Z.sub Z.abs 2%Z [3; 3; 2; 2]%Z = [1; 1; 0; 0]%Z /\
  argsort_four_lanes [1; 1; 0; 0]%Z = [3; 2; 1; 0] /\
  map (fun i => nth i [1; 1; 0; 0]%Z 0%Z) [3; 2; 1; 0] = [0; 0; 1; 1]%Z /\
  semantic_search ref_encode Z.sub Z.abs argsort_four_lanes
    (str "ab") [str "first"; str "second"; str "third"; str "fourth"]
    [3; 3; 2; 2]%Z DEFAULT_TOP_K
  = Return [str "fourth"] /\
  semantic_search ref_encode Z.sub Z.abs argsort_four_lanes
    (str "ab") [str "first"; str "second"; str "third"; str "fourth"]
    [3; 3; 2; 2]%Z 4
  = Return [str "fourth"; str "third"; str "second"; str "first"].
Proof. repeat split. Qed.

(** C2, amended.  [semantic_search] returns the chunks at a prefix
    [top_indices] of the ranking by ascending distance: no chunk twice,
    distances ascending along the result, no chunk left out strictly
    closer than one returned, and [min(top_k, n)] of them when [top_k]
    is not negative.  The order among chunks at equal distance is the one
    [np.argsort] gives, which is not fixed.  The result is a function of
    the arguments and of the embedder. *)
Theorem semantic_search_nearest (vec F : Type)
    (encode : list pystr -> outcome (list vec))
    (vsub : vec -> vec -> vec) (norm : vec -> F)
    (argsort : list F -> list nat) (fle : F -> F -> bool)
    (query_text : pystr) (chunks : list pystr) (embeddings : list vec)
    (top_k : Z) (q : vec) (rows : list vec) :
  argsort_spec fle argsort ->
  encode [query_text] = Return (q :: rows) ->
  length chunks = length embeddings ->
  exists top_indices result,
    semantic_search encode vsub norm argsort query_text chunks embeddings top_k
    = Return result /\
    Forall2 (fun i c => nth_error chunks i = Some c) top_indices result /\
    nearest_first fle (distances_to vsub norm q embeddings) top_indices /\
    ((0 <= top_k)%Z -> len result = Z.min top_k (len chunks)).
Proof.
  intros Hspec Henc Hlen.
  destruct (@semantic_search_run vec F encode vsub norm argsort fle Hspec
              query_text chunks embeddings top_k q rows Henc Hlen)
    as (m & result & Hrun & Hslice & Hall & Hcount).
  exists (firstn m (argsort (distances_to vsub norm q embeddings))), result.
  split; [exact Hrun|]. split; [exact Hall|].
  split; [apply firstn_nearest_first, Hspec | exact Hcount].
Qed.

Lemma semantic_search_nearest_witness :
  exists top_indices result,
    semantic_search ref_encode Z.sub Z.abs argsort_stable
      (str "ab") [str "x"; str "y"; str "z"] [7; 1; 3]%Z 2 = Return result /\
    Forall2 (fun i c => nth_error [str "x"; str "y"; str "z"] i = Some c)
      top_indices result /\
    nearest_first Z.leb (distances_to Z.sub Z.abs 2%Z [7; 1; 3]%Z) top_indices /\
    ((0 <= 2)%Z -> len result = Z.min 2 (len [str "x"; str "y"; str "z"])).
Proof.
  apply (@semantic_search_nearest Z Z ref_encode Z.sub Z.abs argsort_stable Z.leb
           (str "ab") [str "x"; str "y"; str "z"] [7; 1; 3]%Z 2 2%Z []).
  - exact argsort_stable_spec.
  - reflexivity.
  - reflexivity.
Defined.

(** The one index at distance zero, every other distance being above
    zero, is the first of the ranking. *)
Lemma argsort_zero_first (F : Type) (argsort : list F -> list nat)
    (fle : F -> F -> bool) (fzero : F) (ds : list F) (i : nat) :
  argsort_spec fle argsort ->
  nth_error ds i = Some fzero ->
  (forall j d, nth_error ds j = Some d -> j <> i -> fle d fzero = false) ->
  exists others, argsort ds = i :: others.
Proof.
  intros Hspec Hdi Hpos.
  destruct (Hspec ds) as [Hperm Hsorted].
  assert (Hin : In i (argsort ds)).
  { apply (argsort_range Hspec). apply nth_error_Some. congruence. }
  destruct (argsort ds) as [|k others] eqn:Hp; [contradiction|].
  exists others. f_equal.
  destruct (Nat.eq_dec k i) as [Hk | Hk]; [exact Hk | exfalso].
  destruct Hin as [Hin | Hin]; [contradiction|].
  apply In_nth_error in Hin. destruct Hin as [b Hb].
  assert (Hkin : In k (argsort ds)) by (rewrite Hp; left; reflexivity).
  apply (argsort_range Hspec) in Hkin.
  destruct (nth_error ds k) as [dk|] eqn:Hdk;
    [|apply nth_error_None in Hdk; lia].
  pose proof (Hsorted 0 (S b) k i dk fzero (Nat.lt_0_succ b) eq_refl Hb Hdk Hdi)
    as Hle.
  rewrite (Hpos k dk Hdk Hk) in Hle. discriminate.
Qed.

(** When the ranking starts with [i] and [top_k] is at least 1, the
    result starts with the chunk at [i]. *)
Lemma semantic_search_first (vec F : Type)
    (encode : list pystr -> outcome (list vec))
    (vsub : vec -> vec -> vec) (norm : vec -> F)
    (argsort : list F -> list nat) (fle : F -> F -> bool)
    (query_text : pystr) (chunks : list pystr) (embeddings : list vec)
    (top_k : Z) (q : vec) (rows : list vec) (i : nat) (rest : list nat) :
  argsort_spec fle argsort ->
  encode [query_text] = Return (q :: rows) ->
  length chunks = length embeddings ->
  (1 <= top_k)%Z ->
  argsort (distances_to vsub norm q embeddings) = i :: rest ->
  exists chunk others,
    nth_error chunks i = Some chunk /\
    semantic_search encode vsub norm argsort query_text chunks embeddings top_k
    = Return (chunk :: others).
Proof.
  intros Hspec Henc Hlen Hk Hrank.
  destruct (@semantic_search_run vec F encode vsub norm argsort fle Hspec
              query_text chunks embeddings top_k q rows Henc Hlen)
    as (m & result & Hrun & Hslice & Hall & _).
  rewrite Hrank in Hslice, Hall.
  assert (Hm : exists m', m = S m').
  { unfold slice_to in Hslice. destruct (Z.leb_spec 0 top_k); [|lia].
    destruct (Z.to_nat top_k) as [|t] eqn:Ht; [lia|].
    destruct m as [|m']; [discriminate | exists m'; reflexivity]. }
  destruct Hm as [m' ->]. cbn [firstn] in Hall.
  inversion Hall as [|? chunk ? others Hchunk Hrest]; subst.
  exists chunk, others. split; [exact Hchunk | exact Hrun].
Qed.

(** C1, as stated, fails in floating point.  In binary32, the embedder's
    dtype, the row [[2**-100]] differs from the query's row [[0.0]], yet
    the distance NumPy computes for it is [0.0], because the square
    underflows: it ties with the row that equals the query's.  Between the
    two tied rows [np.argsort] decides, and whatever it decides, of the two
    stores that hold the two rows in either order one has its exact match
    ranked second. *)
Lemma semantic_search_underflow_tie :
  distances_to (float_vsub 24 128) (float_norm 24 128) [float_zero]
    [[tiny32]; [float_zero]] = [float_zero; float_zero] /\
  distances_to (float_vsub 24 128) (float_norm 24 128) [float_zero]
    [[float_zero]; [tiny32]] = [float_zero; float_zero] /\
  ~ exists argsort : list spec_float -> list nat,
      semantic_search zero_encode (float_vsub 24 128) (float_norm 24 128) argsort
        (str "q") [str "near"; str "exact"] [[tiny32]; [float_zero]]
        DEFAULT_TOP_K
      = Return [str "exact"] /\
      semantic_search zero_encode (float_vsub 24 128) (float_norm 24 128) argsort
        (str "q") [str "exact"; str "near"] [[float_zero]; [tiny32]]
        DEFAULT_TOP_K
      = Return [str "exact"].
Proof.
  assert (HA : distances_to (float_vsub 24 128) (float_norm 24 128) [float_zero]
                 [[tiny32]; [float_zero]] = [float_zero; float_zero])
    by (vm_compute; reflexivity).
  assert (HB : distances_to (float_vsub 24 128) (float_norm 24 128) [float_zero]
                 [[float_zero]; [tiny32]] = [float_zero; float_zero])
    by (vm_compute; reflexivity).
  split; [exact HA|]. split; [exact HB|].
  intros (argsort & H1 & H2).
  unfold semantic_search, zero_encode in H1, H2.
  cbn [map bind index nth_error] in H1, H2.
  rewrite HA in H1. rewrite HB in H2.
  destruct (argsort [float_zero; float_zero]) as [|[|[|k]] rest].
  - vm_compute in H1. discriminate H1.
  - vm_compute in H1. discriminate H1.
  - vm_compute in H2. discriminate H2.
  - destruct k; vm_compute in H1; discriminate H1.
Qed.

(** The same tie in binary64, with [2**-600]. *)
Lemma binary64_underflow_tie :
  distances_to (float_vsub 53 1024) (float_norm 53 1024) [float_zero]
    [[tiny64]; [float_zero]] = [float_zero; float_zero].
Proof. vm_compute. reflexivity. Qed.

(** C1, amended.  When a stored embedding equals the embedding of the
    query, the distance computed for it is zero, and the distance computed
    for every other stored embedding is above zero, then [semantic_search]
    (with [top_k] at least 1, as by default) returns the chunk at that
    index first, its distance being zero. *)
Theorem semantic_search_exact_match (vec F : Type)
    (encode : list pystr -> outcome (list vec))
    (vsub : vec -> vec -> vec) (norm : vec -> F)
    (argsort : list F -> list nat) (fle : F -> F -> bool) (fzero : F)
    (query_text : pystr) (chunks : list pystr) (embeddings : list vec)
    (top_k : Z) (q : vec) (rows : list vec) (i : nat) :
  argsort_spec fle argsort ->
  encode [query_text] = Return (q :: rows) ->
  length chunks = length embeddings ->
  (1 <= top_k)%Z ->
  nth_error embeddings i = Some q ->
  norm (vsub q q) = fzero ->
  (forall j e, nth_error embeddings j = Some e -> j <> i ->
     fle (norm (vsub e q)) fzero = false) ->
  exists chunk others,
    nth_error chunks i = Some chunk /\
    semantic_search encode vsub norm argsort query_text chunks embeddings top_k
    = Return (chunk :: others) /\
    nth_error (distances_to vsub norm q embeddings) i = Some fzero.
Proof.
  intros Hspec Henc Hlen Hk Hi Hzero Hpos.
  assert (Hdi : nth_error (distances_to vsub norm q embeddings) i = Some fzero).
  { unfold distances_to. rewrite nth_error_map, Hi. simpl.
    rewrite Hzero. reflexivity. }
  destruct (@argsort_zero_first F argsort fle fzero
              (distances_to vsub norm q embeddings) i Hspec Hdi) as [rest Hrank].
  { intros j d Hd Hj. unfold distances_to in Hd. rewrite nth_error_map in Hd.
    destruct (nth_error embeddings j) as [e|] eqn:He; [|discriminate].
    simpl in Hd. injection Hd as <-. exact (Hpos j e He Hj). }
  destruct (@semantic_search_first vec F encode vsub norm argsort fle
              query_text chunks embeddings top_k q rows i rest
              Hspec Henc Hlen Hk Hrank) as (chunk & others & Hchunk & Hrun).
  exists chunk, others. auto.
Qed.

Lemma semantic_search_exact_match_witness :
  exists chunk others,
    nth_error [str "x"; str "y"; str "z"] 1 = Some chunk /\
    semantic_search ref_encode Z.sub Z.abs argsort_stable
      (str "ab") [str "x"; str "y"; str "z"] [7; 2; 3]%Z DEFAULT_TOP_K
    = Return (chunk :: others) /\
    nth_error (distances_to Z.sub Z.abs 2%Z [7; 2; 3]%Z) 1 = Some 0%Z.
Proof.
  apply (@semantic_search_exact_match Z Z ref_encode Z.sub Z.abs argsort_stable
           Z.leb 0%Z (str "ab") [str "x"; str "y"; str "z"] [7; 2; 3]%Z
           DEFAULT_TOP_K 2%Z [] 1).
  - exact argsort_stable_spec.
  - reflexivity.
  - reflexivity.
  - unfold DEFAULT_TOP_K. lia.
  - reflexivity.
  - reflexivity.
  - intros [|[|[|j]]] e He Hj; simpl in He; try congruence;
      try (injection He as <-; reflexivity).
    destruct j; discriminate.
Defined.

(** With a norm that is computed exactly, the claim holds as the
    specification words it: one stored embedding equal to the query's, and
    no other, is enough. *)
Lemma semantic_search_exact_match_exact_norm (vec F : Type)
    (encode : list pystr -> outcome (list vec))
    (vsub : vec -> vec -> vec) (norm : vec -> F)
    (argsort : list F -> list nat) (fle : F -> F -> bool) (fzero : F)
    (query_text : pystr) (chunks : list pystr) (embeddings : list vec)
    (top_k : Z) (q : vec) (rows : list vec) (i : nat) :
  argsort_spec fle argsort ->
  euclidean_spec fle fzero vsub norm ->
  encode [query_text] = Return (q :: rows) ->
  length chunks = length embeddings ->
  (1 <= top_k)%Z ->
  nth_error embeddings i = Some q ->
  (forall j e, nth_error embeddings j = Some e -> j <> i -> e <> q) ->
  exists chunk others,
    nth_error chunks i = Some chunk /\
    semantic_search encode vsub norm argsort query_text chunks embeddings top_k
    = Return (chunk :: others).
Proof.
  intros Hspec [Hzero Hpos] Henc Hlen Hk Hi Huniq.
  assert (Hdi : nth_error (distances_to vsub norm q embeddings) i = Some fzero).
  { unfold distances_to. rewrite nth_error_map, Hi. simpl.
    rewrite Hzero. reflexivity. }
  destruct (@argsort_zero_first F argsort fle fzero
              (distances_to vsub norm q embeddings) i Hspec Hdi) as [rest Hrank].
  { intros j d Hd Hj. unfold distances_to in Hd. rewrite nth_error_map in Hd.
    destruct (nth_error embeddings j) as [e|] eqn:He; [|discriminate].
    simpl in Hd. injection Hd as <-. apply Hpos. exact (Huniq j e He Hj). }
  exact (@semantic_search_first vec F encode vsub norm argsort fle
           query_text chunks embeddings top_k q rows i rest
           Hspec Henc Hlen Hk Hrank).
Qed.

(** ** The edges of the retriever *)

Lemma mapM_index_inv (chunks : list pystr) (idxs : list nat) :
  forall result,
    mapM (fun i => index chunks i) idxs = Return result ->
    Forall2 (fun i c => nth_error chunks i = Some c) idxs result.
Proof.
  induction idxs as [|i idxs IH]; intros result H; cbn [mapM] in H.
  - injection H as <-. constructor.
  - unfold index at 1 in H. destruct (nth_error chunks i) as [c|] eqn:Hc;
      [|discriminate].
    cbn [bind] in H.
    destruct (mapM (fun i => index chunks i) idxs) as [rest|]; [|discriminate].
    cbn [bind] in H. injection H as <-.
    constructor; [exact Hc | apply IH; reflexivity].
Qed.

(** [[chunks[i] for i in idxs]] raises [IndexError] when an index is out
    of range. *)
Lemma mapM_index_raises (chunks : list pystr) (idxs : list nat) (i : nat) :
  In i idxs -> length chunks <= i ->
  mapM (fun i => index chunks i) idxs = Raise IndexError.
Proof.
  intros Hin Hi. induction idxs as [|a idxs IH]; [contradiction|].
  cbn [mapM]. unfold index at 1.
  destruct (nth_error chunks a) as [c|] eqn:Hc; [|reflexivity].
  cbn [bind]. destruct Hin as [-> | Hin].
  - apply nth_error_None in Hi. congruence.
  - rewrite (IH Hin). reflexivity.
Qed.

Lemma Forall2_nth_map (chunks : list pystr) (idxs : list nat) (result : list pystr) :
  Forall2 (fun i c => nth_error chunks i = Some c) idxs result ->
  result = map (fun i => nth i chunks []) idxs.
Proof.
  induction 1 as [|i c idxs result Hc _ IH]; [reflexivity|].
  cbn [map]. rewrite (nth_error_nth _ _ [] Hc), <- IH. reflexivity.
Qed.

Lemma map_nth_seq (A : Type) (l : list A) (d : A) :
  map (fun i => nth i l d) (seq 0 (length l)) = l.
Proof.
  apply (nth_ext _ _ d d).
  - rewrite length_map, length_seq. reflexivity.
  - intros n Hn. rewrite length_map, length_seq in Hn.
    rewrite (nth_indep _ _ (nth 0 l d)) by (rewrite length_map, length_seq; exact Hn).
    rewrite (map_nth (fun i => nth i l d) (seq 0 (length l)) 0 n).
    rewrite seq_nth by exact Hn. reflexivity.
Qed.

Lemma ranking_length (vec F : Type) (vsub : vec -> vec -> vec) (norm : vec -> F)
    (argsort : list F -> list nat) (fle : F -> F -> bool)
    (q : vec) (embeddings : list vec) :
  argsort_spec fle argsort ->
  length (argsort (distances_to vsub norm q embeddings)) = length embeddings.
Proof.
  intros Hspec. rewrite (argsort_length Hspec). unfold distances_to.
  apply length_map.
Qed.

(** X6.  Whatever the embedder, the norm and the argsort do, every chunk
    [semantic_search] returns is one of the chunks it was given. *)
Theorem semantic_search_returns_stored_chunks (vec F : Type)
    (encode : list pystr -> outcome (list vec))
    (vsub : vec -> vec -> vec) (norm : vec -> F)
    (argsort : list F -> list nat)
    (query_text : pystr) (chunks : list pystr) (embeddings : list vec)
    (top_k : Z) (result : list pystr) (c : pystr) :
  semantic_search encode vsub norm argsort query_text chunks embeddings top_k
  = Return result ->
  In c result -> In c chunks.
Proof.
  unfold semantic_search. intros H Hc.
  destruct (encode [query_text]) as [rows|]; [|discriminate]. cbn [bind] in H.
  destruct (index rows 0) as [q|]; [|discriminate]. cbn [bind] in H.
  apply mapM_index_inv in H.
  induction H as [|i x idxs result Hx _ IH]; [contradiction|].
  destruct Hc as [<- | Hc]; [exact (nth_error_In _ _ Hx) | exact (IH Hc)].
Qed.

Lemma semantic_search_returns_stored_chunks_witness :
  semantic_search ref_encode Z.sub Z.abs argsort_stable
    (str "ab") [str "x"; str "y"; str "z"] [7; 1; 3]%Z 2
  = Return [str "y"; str "z"] /\
  In (str "z") [str "x"; str "y"; str "z"].
Proof.
  split; [vm_compute; reflexivity|].
  apply (@semantic_search_returns_stored_chunks Z Z ref_encode Z.sub Z.abs
           argsort_stable (str "ab") [str "x"; str "y"; str "z"] [7; 1; 3]%Z 2
           [str "y"; str "z"] (str "z")).
  - vm_compute. reflexivity.
  - right. left. reflexivity.
Defined.

(** X7.  With [top_k] at least the size of the store, [semantic_search]
    returns every stored chunk once: the result is the chunk list in
    another order. *)
Theorem semantic_search_whole_store (vec F : Type)
    (encode : list pystr -> outcome (list vec))
    (vsub : vec -> vec -> vec) (norm : vec -> F)
    (argsort : list F -> list nat) (fle : F -> F -> bool)
    (query_text : pystr) (chunks : list pystr) (embeddings : list vec)
    (top_k : Z) (q : vec) (rows : list vec) :
  argsort_spec fle argsort ->
  encode [query_text] = Return (q :: rows) ->
  length chunks = length embeddings ->
  (len chunks <= top_k)%Z ->
  exists result,
    semantic_search encode vsub norm argsort query_text chunks embeddings top_k
    = Return result /\
    Permutation result chunks.
Proof.
  intros Hspec Henc Hlen Hk.
  destruct (@semantic_search_run vec F encode vsub norm argsort fle Hspec
              query_text chunks embeddings top_k q rows Henc Hlen)
    as (m & result & Hrun & Hslice & Hall & _).
  exists result. split; [exact Hrun|].
  set (ranking := argsort (distances_to vsub norm q embeddings)) in *.
  assert (Hrank : length ranking = length chunks).
  { unfold ranking. rewrite (ranking_length vsub norm q embeddings Hspec). auto. }
  assert (Hwhole : firstn m ranking = ranking).
  { rewrite <- Hslice. unfold slice_to.
    pose proof (len_nonneg chunks).
    destruct (Z.leb_spec 0 top_k); [|lia].
    apply firstn_all2. unfold len in *. lia. }
  rewrite Hwhole in Hall. apply Forall2_nth_map in Hall. rewrite Hall.
  apply (@Permutation_trans _ _
           (map (fun i => nth i chunks []) (seq 0 (length chunks)))).
  - apply Permutation_map. rewrite <- Hrank.
    destruct (Hspec (distances_to vsub norm q embeddings)) as [Hperm _].
    unfold ranking. rewrite (argsort_length Hspec). exact Hperm.
  - rewrite map_nth_seq. apply Permutation_refl.
Qed.

Lemma semantic_search_whole_store_witness :
  exists result,
    semantic_search ref_encode Z.sub Z.abs argsort_stable
      (str "ab") [str "x"; str "y"; str "z"] [7; 1; 3]%Z 5 = Return result /\
    Permutation result [str "x"; str "y"; str "z"].
Proof.
  apply (@semantic_search_whole_store Z Z ref_encode Z.sub Z.abs argsort_stable
           Z.leb (str "ab") [str "x"; str "y"; str "z"] [7; 1; 3]%Z 5 2%Z []).
  - exact argsort_stable_spec.
  - reflexivity.
  - reflexivity.
  - vm_compute. discriminate.
Defined.

(** X8.  A negative [top_k] is not refused: the slice [[:top_k]] leaves
    out the last [-top_k] entries of the ranking, so the call returns
    [max(0, n + top_k)] chunks of a store of [n]. *)
Theorem semantic_search_negative_count (vec F : Type)
    (encode : list pystr -> outcome (list vec))
    (vsub : vec -> vec -> vec) (norm : vec -> F)
    (argsort : list F -> list nat) (fle : F -> F -> bool)
    (query_text : pystr) (chunks : list pystr) (embeddings : list vec)
    (top_k : Z) (q : vec) (rows : list vec) :
  argsort_spec fle argsort ->
  encode [query_text] = Return (q :: rows) ->
  length chunks = length embeddings ->
  (top_k < 0)%Z ->
  exists result,
    semantic_search encode vsub norm argsort query_text chunks embeddings top_k
    = Return result /\
    len result = Z.max 0 (len chunks + top_k).
Proof.
  intros Hspec Henc Hlen Hk.
  destruct (@semantic_search_run vec F encode vsub norm argsort fle Hspec
              query_text chunks embeddings top_k q rows Henc Hlen)
    as (m & result & Hrun & Hslice & Hall & _).
  exists result. split; [exact Hrun|].
  apply Forall2_length in Hall. rewrite <- Hslice in Hall.
  pose proof (ranking_length vsub norm q embeddings Hspec) as Hrank.
  unfold slice_to in Hall. destruct (Z.leb_spec 0 top_k); [lia|].
  rewrite length_firstn in Hall. unfold len in *. lia.
Qed.

Lemma semantic_search_negative_count_witness :
  exists result,
    semantic_search ref_encode Z.sub Z.abs argsort_stable
      (str "ab") [str "x"; str "y"; str "z"] [7; 1; 3]%Z (-1) = Return result /\
    len result = Z.max 0 (len [str "x"; str "y"; str "z"] + -1).
Proof.
  apply (@semantic_search_negative_count Z Z ref_encode Z.sub Z.abs argsort_stable
           Z.leb (str "ab") [str "x"; str "y"; str "z"] [7; 1; 3]%Z (-1) 2%Z []).
  - exact argsort_stable_spec.
  - reflexivity.
  - reflexivity.
  - lia.
Defined.

(** X9.  [semantic_search] relies on [len(chunks) == len(embeddings)] and
    does not check it: with fewer chunks than embeddings and [top_k] at
    least the number of embeddings, the ranking holds an index that
    [chunks] does not have, and the call raises [IndexError]. *)
Theorem semantic_search_missing_chunk (vec F : Type)
    (encode : list pystr -> outcome (list vec))
    (vsub : vec -> vec -> vec) (norm : vec -> F)
    (argsort : list F -> list nat) (fle : F -> F -> bool)
    (query_text : pystr) (chunks : list pystr) (embeddings : list vec)
    (top_k : Z) (q : vec) (rows : list vec) :
  argsort_spec fle argsort ->
  encode [query_text] = Return (q :: rows) ->
  length chunks < length embeddings ->
  (len embeddings <= top_k)%Z ->
  semantic_search encode vsub norm argsort query_text chunks embeddings top_k
  = Raise IndexError.
Proof.
  intros Hspec Henc Hlen Hk. unfold semantic_search. rewrite Henc.
  cbn [bind index nth_error].
  pose proof (ranking_length vsub norm q embeddings Hspec) as Hrank.
  set (ranking := argsort (distances_to vsub norm q embeddings)) in *.
  assert (Hwhole : slice_to ranking top_k = ranking).
  { unfold slice_to. pose proof (len_nonneg embeddings).
    destruct (Z.leb_spec 0 top_k); [|lia].
    apply firstn_all2. unfold len in *. lia. }
  rewrite Hwhole.
  apply (@mapM_index_raises chunks ranking (length chunks)); [|apply le_n].
  apply (argsort_range Hspec). unfold distances_to. rewrite length_map. exact Hlen.
Qed.

Lemma semantic_search_missing_chunk_witness :
  semantic_search ref_encode Z.sub Z.abs argsort_stable
    (str "ab") [str "x"] [7; 1]%Z 2 = Raise IndexError.
Proof.
  apply (@semantic_search_missing_chunk Z Z ref_encode Z.sub Z.abs argsort_stable
           Z.leb (str "ab") [str "x"] [7; 1]%Z 2 2%Z []).
  - exact argsort_stable_spec.
  - reflexivity.
  - cbn. lia.
  - vm_compute. discriminate.
Defined.

(** X10.  With the default [top_k] of 1, when one stored embedding is
    strictly nearer to the query than every other, [semantic_search]
    returns exactly the chunk at its index, whichever way [np.argsort]
    orders equal distances. *)
Theorem semantic_search_unique_nearest (vec F : Type)
    (encode : list pystr -> outcome (list vec))
    (vsub : vec -> vec -> vec) (norm : vec -> F)
    (argsort : list F -> list nat) (fle : F -> F -> bool)
    (query_text : pystr) (chunks : list pystr) (embeddings : list vec)
    (q : vec) (rows : list vec) (i : nat) (e : vec) :
  argsort_spec fle argsort ->
  encode [query_text] = Return (q :: rows) ->
  length chunks = length embeddings ->
  nth_error embeddings i = Some e ->
  (forall j e', nth_error embeddings j = Some e' -> j <> i ->
     fle (norm (vsub e' q)) (norm (vsub e q)) = false) ->
  exists chunk,
    nth_error chunks i = Some chunk /\
    semantic_search encode vsub norm argsort query_text chunks embeddings
      DEFAULT_TOP_K
    = Return [chunk].
Proof.
  intros Hspec Henc Hlen Hi Hfar.
  assert (Hdi : nth_error (distances_to vsub norm q embeddings) i
                = Some (norm (vsub e q))).
  { unfold distances_to. rewrite nth_error_map, Hi. reflexivity. }
  destruct (@argsort_zero_first F argsort fle (norm (vsub e q))
              (distances_to vsub norm q embeddings) i Hspec Hdi) as [rest Hrank].
  { intros j d Hd Hj. unfold distances_to in Hd. rewrite nth_error_map in Hd.
    destruct (nth_error embeddings j) as [e'|] eqn:He; [|discriminate].
    simpl in Hd. injection Hd as <-. exact (Hfar j e' He Hj). }
  destruct (@semantic_search_first vec F encode vsub norm argsort fle
              query_text chunks embeddings DEFAULT_TOP_K q rows i rest
              Hspec Henc Hlen) as (chunk & others & Hchunk & Hrun);
    [unfold DEFAULT_TOP_K; lia | exact Hrank |].
  exists chunk. split; [exact Hchunk|]. rewrite Hrun.
  destruct (@semantic_search_run vec F encode vsub norm argsort fle Hspec
              query_text chunks embeddings DEFAULT_TOP_K q rows Henc Hlen)
    as (m & result & Hrun' & _ & _ & Hcount).
  rewrite Hrun in Hrun'. injection Hrun' as <-.
  specialize (Hcount ltac:(unfold DEFAULT_TOP_K; lia)).
  unfold DEFAULT_TOP_K, len in Hcount. cbn [length] in Hcount.
  destruct others; [reflexivity | cbn [length] in Hcount; lia].
Qed.

Lemma semantic_search_unique_nearest_witness :
  exists chunk,
    nth_error [str "x"; str "y"; str "z"] 2 = Some chunk /\
    semantic_search ref_encode Z.sub Z.abs argsort_stable
      (str "ab") [str "x"; str "y"; str "z"] [7; 5; 3]%Z DEFAULT_TOP_K
    = Return [chunk].
Proof.
  apply (@semantic_search_unique_nearest Z Z ref_encode Z.sub Z.abs argsort_stable
           Z.leb (str "ab") [str "x"; str "y"; str "z"] [7; 5; 3]%Z 2%Z [] 2 3%Z).
  - exact argsort_stable_spec.
  - reflexivity.
  - reflexivity.
  - reflexivity.
  - intros [|[|[|j]]] e' He Hj; simpl in He; try congruence;
      try (injection He as <-; reflexivity).
    destruct j; discriminate.
Defined.

(* ================================================================== *)
(** * The store initializer *)
(* ================================================================== *)

Section InitializerFacts.

Variable vec : Type.
Variable encode : list pystr -> outcome (list vec).
Variable read_file : pystr -> outcome pystr.
Hypothesis encode_ok : encode_spec encode.

Lemma build_returns (cs : list pystr) (s s' : store vec) :
  cs <> [] -> build encode cs s = (s', Return tt) -> store_ready s'.
Proof.
  intros Hcs. unfold build, seq_, assign_chunks, call, assign_embeddings.
  destruct (encode cs) as [rows|e] eqn:Henc; intros H; [|discriminate].
  injection H as <-. exists cs, rows. cbn.
  pose proof (encode_ok Henc) as Hlen.
  repeat split; try assumption.
  intros ->. destruct cs; [congruence | discriminate].
Qed.

Lemma build_raises (cs : list pystr) (s s' : store vec) (e : pyexc) :
  build encode cs s = (s', Raise e) -> encode cs = Raise e.
Proof.
  unfold build, seq_, assign_chunks, call, assign_embeddings.
  destruct (encode cs) as [rows|e'] eqn:Henc; intros H; [discriminate|].
  injection H as _ <-. reflexivity.
Qed.

Lemma initialize_vector_db_unfold (s : store vec) :
  initialize_vector_db encode read_file s
  = match match load_file read_file TRANSCRIPT_PATH with
          | [] => build encode [INIT_CHUNK] s
          | c :: text => build encode (chunk_text (c :: text) DEFAULT_CHUNK_SIZE) s
          end
    with
    | (s', Return a) => (s', Return a)
    | (s', Raise _) => build encode [ERROR_CHUNK] s'
    end.
Proof.
  unfold initialize_vector_db, try_stmt, build.
  destruct (load_file read_file TRANSCRIPT_PATH); reflexivity.
Qed.

End InitializerFacts.

(** C6.  Whenever [initialize_vector_db] returns, whether the transcript
    was read, was empty or missing, or a step of the [try] raised, both
    globals are set, [len(embeddings) == len(chunks)], and neither is
    empty.  The embedder is taken to give one row per text. *)
Theorem initialize_vector_db_store_ready (vec : Type)
    (encode : list pystr -> outcome (list vec))
    (read_file : pystr -> outcome pystr) (s s' : store vec) :
  encode_spec encode ->
  initialize_vector_db encode read_file s = (s', Return tt) ->
  store_ready s'.
Proof.
  intros Hspec. rewrite initialize_vector_db_unfold.
  destruct (load_file read_file TRANSCRIPT_PATH) as [|c text].
  - destruct (build encode [INIT_CHUNK] s) as [s1 [[]|e]] eqn:Hb.
    + intros H. injection H as <-.
      apply (build_returns Hspec (cs := [INIT_CHUNK]) s); [discriminate | exact Hb].
    + apply (build_returns Hspec (cs := [ERROR_CHUNK]) s1). discriminate.
  - destruct (build encode (chunk_text (c :: text) DEFAULT_CHUNK_SIZE) s)
      as [s1 [[]|e]] eqn:Hb.
    + intros H. injection H as <-.
      apply (build_returns Hspec (cs := chunk_text (c :: text) DEFAULT_CHUNK_SIZE) s);
        [apply chunk_text_not_nil | exact Hb].
    + apply (build_returns Hspec (cs := [ERROR_CHUNK]) s1). discriminate.
Qed.

(** The call returns as soon as the embedder accepts the fallback chunk;
    it raises only with the error the embedder raised on that chunk. *)
Lemma initialize_vector_db_returns (vec : Type)
    (encode : list pystr -> outcome (list vec))
    (read_file : pystr -> outcome pystr) (s : store vec) :
  (forall rows, encode [ERROR_CHUNK] = Return rows ->
     exists s', initialize_vector_db encode read_file s = (s', Return tt)) /\
  (forall s' e, initialize_vector_db encode read_file s = (s', Raise e) ->
     encode [ERROR_CHUNK] = Raise e).
Proof.
  rewrite initialize_vector_db_unfold. split.
  - intros rows Hrows.
    destruct (match load_file read_file TRANSCRIPT_PATH with
              | [] => _ | _ :: _ => _ end) as [s1 [[]|e]].
    + exists s1. reflexivity.
    + unfold build, seq_, assign_chunks, call, assign_embeddings.
      rewrite Hrows. eexists. reflexivity.
  - intros s' e.
    destruct (match load_file read_file TRANSCRIPT_PATH with
              | [] => _ | _ :: _ => _ end) as [s1 [[]|e1]].
    + discriminate.
    + apply build_raises.
Qed.

Lemma ref_encode_spec : encode_spec ref_encode.
Proof.
  intros texts rows H. injection H as <-. apply length_map.
Qed.

Lemma initialize_vector_db_store_ready_witness :
  store_ready
    {| chunks := Some [str "One. Two."]; embeddings := Some [9%Z] |}.
Proof.
  apply (@initialize_vector_db_store_ready Z ref_encode
           (fun _ => Return (str "One. Two")) EMPTY_STORE).
  - exact ref_encode_spec.
  - vm_compute. reflexivity.
Defined.

(** ** What a call leaves in the store *)

Section StoreBuilds.

Variable vec : Type.
Variable encode : list pystr -> outcome (list vec).
Variable read_file : pystr -> outcome pystr.

Lemma build_run (cs : list pystr) (s : store vec) :
  build encode cs s
  = match encode cs with
    | Return rows => ({| chunks := Some cs; embeddings := Some rows |}, Return tt)
    | Raise e => ({| chunks := Some cs; embeddings := embeddings s |}, Raise e)
    end.
Proof.
  unfold build, seq_, assign_chunks, call, assign_embeddings.
  destruct (encode cs); reflexivity.
Qed.

Lemma load_file_first_chunks :
  match load_file read_file TRANSCRIPT_PATH with
  | [] => [INIT_CHUNK]
  | c :: text => chunk_text (c :: text) DEFAULT_CHUNK_SIZE
  end = first_chunks read_file.
Proof.
  unfold load_file, first_chunks.
  destruct (read_file TRANSCRIPT_PATH) as [[|c text]|e]; reflexivity.
Qed.

(** The run of [initialize_vector_db]: the [try] block embeds its chunks;
    when the embedder raises there, the handler embeds the error sample;
    when it raises again, the exception leaves the function. *)
Lemma initialize_vector_db_run (s : store vec) :
  initialize_vector_db encode read_file s
  = match encode (first_chunks read_file) with
    | Return rows =>
        ({| chunks := Some (first_chunks read_file); embeddings := Some rows |},
         Return tt)
    | Raise _ =>
        match encode [ERROR_CHUNK] with
        | Return rows =>
            ({| chunks := Some [ERROR_CHUNK]; embeddings := Some rows |}, Return tt)
        | Raise e =>
            ({| chunks := Some [ERROR_CHUNK]; embeddings := embeddings s |}, Raise e)
        end
    end.
Proof.
  rewrite initialize_vector_db_unfold, <- load_file_first_chunks.
  destruct (load_file read_file TRANSCRIPT_PATH) as [|c text];
    rewrite build_run;
    (destruct (encode _) as [rows|e]; [reflexivity|]);
    rewrite build_run; reflexivity.
Qed.

Lemma first_chunks_not_nil : first_chunks read_file <> [].
Proof.
  unfold first_chunks.
  destruct (read_file TRANSCRIPT_PATH) as [[|c text]|e];
    try discriminate. apply chunk_text_not_nil.
Qed.

(** A call that returns has set both globals ... *)
Lemma initialize_vector_db_sets (s s' : store vec) :
  initialize_vector_db encode read_file s = (s', Return tt) -> store_set s'.
Proof.
  rewrite initialize_vector_db_run.
  destruct (encode (first_chunks read_file)) as [rows|e].
  - intros H. injection H as <-. split; discriminate.
  - destruct (encode [ERROR_CHUNK]) as [rows|e']; [|discriminate].
    intros H. injection H as <-. split; discriminate.
Qed.

(** ... to lists of one length that are not empty, when the embedder gives
    one row per text. *)
Lemma startup_store_ready (s0 s1 : store vec) :
  encode_spec encode ->
  initialize_vector_db encode read_file s0 = (s1, Return tt) ->
  store_ready s1.
Proof.
  intros Hspec. rewrite initialize_vector_db_run.
  assert (Hready : forall cs rows,
             cs <> [] -> encode cs = Return rows ->
             store_ready {| chunks := Some cs; embeddings := Some rows |}).
  { intros cs rows Hcs Henc. exists cs, rows. cbn [chunks embeddings].
    pose proof (Hspec _ _ Henc) as Hlen.
    repeat split; try assumption; try reflexivity.
    intros ->. destruct cs; [congruence | discriminate]. }
  destruct (encode (first_chunks read_file)) as [rows|e] eqn:Henc.
  - intros H. injection H as <-.
    exact (Hready _ rows first_chunks_not_nil Henc).
  - destruct (encode [ERROR_CHUNK]) as [rows|e'] eqn:Herr; [|discriminate].
    intros H. injection H as <-. apply Hready; [discriminate | exact Herr].
Qed.

End StoreBuilds.

(** X11.  [initialize_vector_db] rebuilds the store from nothing: a call
    that returns leaves the same store whatever the globals held before,
    and calling it again on that store leaves it as it is. *)
Theorem initialize_vector_db_rebuilds (vec : Type)
    (encode : list pystr -> outcome (list vec))
    (read_file : pystr -> outcome pystr) (s1 s2 s' : store vec) :
  initialize_vector_db encode read_file s1 = (s', Return tt) ->
  initialize_vector_db encode read_file s2 = (s', Return tt) /\
  initialize_vector_db encode read_file s' = (s', Return tt).
Proof.
  rewrite !initialize_vector_db_run.
  destruct (encode (first_chunks read_file)) as [rows|e].
  - intros H. injection H as <-. split; reflexivity.
  - destruct (encode [ERROR_CHUNK]) as [rows|e']; [|discriminate].
    intros H. injection H as <-. split; reflexivity.
Qed.

Lemma initialize_vector_db_rebuilds_witness :
  initialize_vector_db ref_encode ref_read_file
    {| chunks := Some [str "old"; str "older"]; embeddings := None |}
  = (READY_STORE, Return tt) /\
  initialize_vector_db ref_encode ref_read_file READY_STORE
  = (READY_STORE, Return tt).
Proof.
  apply (@initialize_vector_db_rebuilds Z ref_encode ref_read_file EMPTY_STORE).
  vm_compute. reflexivity.
Defined.

(** X12.  [initialize_vector_db] raises only when the embedder raises on
    the error sample, inside the [except] block, and with that exception;
    it then leaves [chunks] set to the error sample and [embeddings] as it
    was before the call: [None] at start-up, or the rows of an older
    build that no longer match [chunks]. *)
Theorem initialize_vector_db_raises (vec : Type)
    (encode : list pystr -> outcome (list vec))
    (read_file : pystr -> outcome pystr) (s s' : store vec) (e : pyexc) :
  initialize_vector_db encode read_file s = (s', Raise e) ->
  encode [ERROR_CHUNK] = Raise e /\
  chunks s' = Some [ERROR_CHUNK] /\
  embeddings s' = embeddings s.
Proof.
  rewrite initialize_vector_db_run.
  destruct (encode (first_chunks read_file)) as [rows|e1]; [discriminate|].
  destruct (encode [ERROR_CHUNK]) as [rows|e2]; [discriminate|].
  intros H. injection H as <- <-. repeat split.
Qed.

Lemma initialize_vector_db_raises_witness :
  no_model [ERROR_CHUNK] = Raise (ExternalError (str "model not loaded")) /\
  chunks {| chunks := Some [ERROR_CHUNK]; embeddings := @None (list Z) |}
  = Some [ERROR_CHUNK] /\
  embeddings {| chunks := Some [ERROR_CHUNK]; embeddings := @None (list Z) |}
  = embeddings EMPTY_STORE.
Proof.
  apply (@initialize_vector_db_raises Z no_model ref_read_file EMPTY_STORE).
  vm_compute. reflexivity.
Defined.

(** X13.  When [initialize_vector_db] returns, both globals are set and
    [embeddings] is what the embedder returned for exactly the list in
    [chunks]; that list is the chunks of the transcript (the initial
    sample when the file is missing or empty), or the error sample when
    the embedder raised on those. *)
Theorem initialize_vector_db_embeds_chunks (vec : Type)
    (encode : list pystr -> outcome (list vec))
    (read_file : pystr -> outcome pystr) (s s' : store vec) :
  initialize_vector_db encode read_file s = (s', Return tt) ->
  exists cs rows,
    s' = {| chunks := Some cs; embeddings := Some rows |} /\
    encode cs = Return rows /\
    (cs = first_chunks read_file \/
     cs = [ERROR_CHUNK] /\ exists e, encode (first_chunks read_file) = Raise e).
Proof.
  rewrite initialize_vector_db_run.
  destruct (encode (first_chunks read_file)) as [rows|e] eqn:Henc.
  - intros H. injection H as <-. exists (first_chunks read_file), rows. auto.
  - destruct (encode [ERROR_CHUNK]) as [rows|e'] eqn:Herr; [|discriminate].
    intros H. injection H as <-. exists [ERROR_CHUNK], rows.
    split; [reflexivity|]. split; [exact Herr|]. right. split; [reflexivity|].
    exists e. reflexivity.
Qed.

Lemma initialize_vector_db_embeds_chunks_witness :
  exists cs rows,
    READY_STORE = {| chunks := Some cs; embeddings := Some rows |} /\
    ref_encode cs = Return rows /\
    (cs = first_chunks ref_read_file \/
     cs = [ERROR_CHUNK] /\
     exists e, ref_encode (first_chunks ref_read_file) = Raise e).
Proof.
  apply (@initialize_vector_db_embeds_chunks Z ref_encode ref_read_file
           EMPTY_STORE).
  vm_compute. reflexivity.
Defined.

(** X14.  A transcript file that cannot be read counts as an empty one
    ([load_file] returns the empty string for it), and either way the store is built
    from the one initial sample chunk, when the embedder accepts it. *)
Theorem initialize_vector_db_no_transcript (vec : Type)
    (encode : list pystr -> outcome (list vec))
    (read_file : pystr -> outcome pystr) (s : store vec) (rows : list vec) :
  (read_file TRANSCRIPT_PATH = Return [] \/
   exists e, read_file TRANSCRIPT_PATH = Raise e) ->
  encode [INIT_CHUNK] = Return rows ->
  initialize_vector_db encode read_file s
  = ({| chunks := Some [INIT_CHUNK]; embeddings := Some rows |}, Return tt).
Proof.
  intros Hfile Henc. rewrite initialize_vector_db_run.
  assert (Hfirst : first_chunks read_file = [INIT_CHUNK]).
  { unfold first_chunks. destruct Hfile as [-> | [e ->]]; reflexivity. }
  rewrite Hfirst, Henc. reflexivity.
Qed.

Lemma initialize_vector_db_no_transcript_witness :
  initialize_vector_db ref_encode
    (fun _ => Raise (ExternalError (str "No such file or directory"))) EMPTY_STORE
  = ({| chunks := Some [INIT_CHUNK]; embeddings := Some [33%Z] |}, Return tt).
Proof.
  apply (@initialize_vector_db_no_transcript Z ref_encode
           (fun _ => Raise (ExternalError (str "No such file or directory")))
           EMPTY_STORE [33%Z]).
  - right. eexists. reflexivity.
  - reflexivity.
Defined.

(** X15.  When the embedder raises on the chunks of the transcript and
    accepts the error sample, the call returns and the store holds the
    error sample alone with its embedding: the chunks assigned before the
    failure are replaced. *)
Theorem initialize_vector_db_embedder_failure (vec : Type)
    (encode : list pystr -> outcome (list vec))
    (read_file : pystr -> outcome pystr) (s : store vec)
    (e : pyexc) (rows : list vec) :
  encode (first_chunks read_file) = Raise e ->
  encode [ERROR_CHUNK] = Return rows ->
  initialize_vector_db encode read_file s
  = ({| chunks := Some [ERROR_CHUNK]; embeddings := Some rows |}, Return tt).
Proof.
  intros Hfirst Herr. rewrite initialize_vector_db_run, Hfirst, Herr.
  reflexivity.
Qed.

Lemma initialize_vector_db_embedder_failure_witness :
  initialize_vector_db fails_on_long_batches
    (fun _ => Return long_sentence) EMPTY_STORE
  = ({| chunks := Some [ERROR_CHUNK]; embeddings := Some [29%Z] |}, Return tt).
Proof.
  apply (@initialize_vector_db_embedder_failure Z fails_on_long_batches
           (fun _ => Return long_sentence) EMPTY_STORE
           (ExternalError (str "out of memory")) [29%Z]).
  - vm_compute. reflexivity.
  - reflexivity.
Defined.

(* ================================================================== *)
(** * The API layer *)
(* ================================================================== *)

(** The sentinel of [generate_questions] holds neither marker. *)
Lemma parse_questions_generation_error (unicode_isdigit : pychar -> bool) :
  parse_questions unicode_isdigit GENERATION_ERROR = Return NO_QUESTIONS.
Proof.
  unfold parse_questions.
  replace (str_in OBJECTIVE_MARKER GENERATION_ERROR) with false
    by (vm_compute; reflexivity).
  reflexivity.
Qed.

(** ** The test of the request body *)

Lemma str_eqb_true (a b : pystr) : str_eqb a b = true <-> a = b.
Proof.
  unfold str_eqb. destruct (list_eq_dec N.eq_dec a b); split; congruence.
Qed.

Lemma is_string_true (key : pystr) (v : json) :
  is_string key v = true <-> v = JString key.
Proof.
  destruct v; cbn [is_string]; try (split; [discriminate | congruence]).
  rewrite str_eqb_true. split; congruence.
Qed.

Lemma contains_holds (data : json) (key : pystr) (b : bool) :
  contains data key = Return b -> (b = true <-> holds_name data key).
Proof.
  destruct data; cbn [contains holds_name]; try discriminate;
    intros H; injection H as <-.
  - apply str_in_true.
  - rewrite existsb_exists. split.
    + intros (v & Hin & Hv). apply is_string_true in Hv. subst v. exact Hin.
    + intros Hin. exists (JString key). split; [exact Hin|].
      apply is_string_true. reflexivity.
  - destruct (dict_get items key) as [v|]; split; try congruence.
    + intros _. exists v. reflexivity.
    + intros [v Hv]. discriminate.
Qed.

(** [in] on a dict, a string or a list returns. *)
Lemma contains_container (data : json) (key : pystr) :
  (exists s, data = JString s) \/ (exists l, data = JArray l) \/
  (exists d, data = JObject d) ->
  exists b, contains data key = Return b.
Proof.
  intros [[s ->] | [[l ->] | [d ->]]]; eexists; reflexivity.
Qed.

Lemma falsy_lacks_name (data : json) (key : pystr) :
  key <> [] -> falsy data = true -> ~ holds_name data key.
Proof.
  intros Hkey. destruct data; cbn [falsy holds_name]; try tauto.
  - destruct s; [|discriminate]. intros _ Hocc.
    apply occurs_length in Hocc. destruct key; [congruence | cbn in Hocc; lia].
  - destruct elements; [tauto | discriminate].
  - destruct items; [|discriminate]. intros _ [v Hv]. discriminate.
Qed.

Lemma required_fields_lacks (data : json) :
  lacks_parameters data -> required_fields data = Return None.
Proof.
  intros Hlack. unfold required_fields.
  destruct (falsy data) eqn:Hfalsy; [reflexivity|].
  assert (Hcont : (exists s, data = JString s) \/ (exists l, data = JArray l) \/
                  (exists d, data = JObject d)).
  { destruct data; cbn [lacks_parameters falsy] in *; eauto.
    - discriminate.
    - subst b. discriminate.
    - subst n. discriminate.
    - destruct Hlack as [sign ->]. discriminate. }
  assert (Hnames : ~ holds_name data COURSE_OUTCOME \/
                   ~ holds_name data BLOOM_LEVEL).
  { destruct Hcont as [[s ->] | [[l ->] | [d ->]]]; exact Hlack. }
  destruct (contains_container COURSE_OUTCOME Hcont) as [b1 H1].
  destruct (contains_container BLOOM_LEVEL Hcont) as [b2 H2].
  rewrite H1. cbn [bind].
  pose proof (contains_holds _ _ H1) as E1.
  pose proof (contains_holds _ _ H2) as E2.
  destruct b1; cbn [negb]; [|reflexivity].
  rewrite H2. cbn [bind].
  destruct b2; cbn [negb]; [|reflexivity].
  exfalso. destruct Hnames as [Hn | Hn]; apply Hn; [apply E1 | apply E2];
    reflexivity.
Qed.

Lemma required_fields_not_an_object (data : json) :
  not_an_object data -> required_fields data = Raise TypeError.
Proof.
  intros Hnot. unfold required_fields.
  destruct data; cbn [not_an_object] in Hnot; try contradiction.
  - subst b. reflexivity.
  - cbn [falsy]. destruct (Z.eqb_spec n 0); [contradiction | reflexivity].
  - destruct x; cbn [falsy]; try reflexivity.
    exfalso. exact (Hnot s eq_refl).
  - destruct Hnot as [Hco Hbloom].
    destruct (falsy (JString s)) eqn:Hfalsy.
    + exfalso. apply (@falsy_lacks_name (JString s) COURSE_OUTCOME);
        [discriminate | exact Hfalsy | exact Hco].
    + cbn [contains bind].
      apply str_in_true in Hco. apply str_in_true in Hbloom.
      rewrite Hco, Hbloom. reflexivity.
  - destruct Hnot as [Hco Hbloom].
    destruct (falsy (JArray elements)) eqn:Hfalsy.
    + exfalso. apply (@falsy_lacks_name (JArray elements) COURSE_OUTCOME);
        [discriminate | exact Hfalsy | exact Hco].
    + pose proof (@contains_holds (JArray elements) COURSE_OUTCOME _ eq_refl)
        as E1.
      pose proof (@contains_holds (JArray elements) BLOOM_LEVEL _ eq_refl)
        as E2.
      apply E1 in Hco. apply E2 in Hbloom.
      cbn [contains bind]. rewrite Hco, Hbloom. reflexivity.
Qed.

Lemma required_fields_object (items : dict) (co bloom : json) :
  dict_get items COURSE_OUTCOME = Some co ->
  dict_get items BLOOM_LEVEL = Some bloom ->
  required_fields (JObject items) = Return (Some (co, bloom)).
Proof.
  intros Hco Hbloom. unfold required_fields.
  destruct items as [|item items]; [discriminate|].
  cbn [falsy contains subscript bind]. rewrite Hco, Hbloom. reflexivity.
Qed.

(** Every body is of one of the three kinds. *)
Lemma required_fields_cases (data : json) :
  not_an_object data \/ lacks_parameters data \/
  exists items co bloom,
    data = JObject items /\
    dict_get items COURSE_OUTCOME = Some co /\
    dict_get items BLOOM_LEVEL = Some bloom.
Proof.
  destruct data as [|b|n|x|s|elements|items].
  - right. left. exact I.
  - destruct b; [left | right; left]; reflexivity.
  - destruct (Z.eq_dec n 0) as [Hn | Hn]; [right; left | left]; exact Hn.
  - destruct x as [sign| | |]; try (left; intros sign' H; discriminate H).
    right. left. exists sign. reflexivity.
  - cbn [not_an_object lacks_parameters holds_name].
    destruct (str_in COURSE_OUTCOME s) eqn:H1;
      [|right; left; left; apply str_in_false, H1].
    destruct (str_in BLOOM_LEVEL s) eqn:H2;
      [|right; left; right; apply str_in_false, H2].
    left. split; apply str_in_true; assumption.
  - pose proof (@contains_holds (JArray elements) COURSE_OUTCOME _ eq_refl) as E1.
    pose proof (@contains_holds (JArray elements) BLOOM_LEVEL _ eq_refl) as E2.
    cbn [not_an_object lacks_parameters].
    destruct (existsb (is_string COURSE_OUTCOME) elements);
      [|right; left; left; intros H; apply E1 in H; discriminate].
    destruct (existsb (is_string BLOOM_LEVEL) elements);
      [|right; left; right; intros H; apply E2 in H; discriminate].
    left. split; [apply E1 | apply E2]; reflexivity.
  - cbn [lacks_parameters holds_name].
    destruct (dict_get items COURSE_OUTCOME) as [co|] eqn:H1;
      [|right; left; left; intros [v Hv]; discriminate].
    destruct (dict_get items BLOOM_LEVEL) as [bloom|] eqn:H2;
      [|right; left; right; intros [v Hv]; discriminate].
    right. right. exists items, co, bloom. auto.
Qed.

(** ** The handler *)

Section ApiFacts.

Variables vec F : Type.
Variable encode : list pystr -> outcome (list vec).
Variable vsub : vec -> vec -> vec.
Variable norm : vec -> F.
Variable argsort : list F -> list nat.
Variable generate_content : pystr -> outcome pystr.
Variable read_file : pystr -> outcome pystr.
Variable unicode_isdigit : pychar -> bool.
Variable encode_value : json -> outcome (list vec).
Variable format_value : json -> pystr.
Variable fle : F -> F -> bool.

Local Abbreviation handler :=
  (api_generate_questions encode vsub norm argsort generate_content read_file
     unicode_isdigit encode_value format_value).
Local Abbreviation try_block :=
  (answer_body encode vsub norm argsort generate_content unicode_isdigit
     encode_value format_value).
Local Abbreviation try_except_block :=
  (answer encode vsub norm argsort generate_content unicode_isdigit
     encode_value format_value).

Lemma ensure_vector_db_set (s : store vec) :
  store_set s -> ensure_vector_db encode read_file s = (s, Return tt).
Proof.
  intros [Hc He]. unfold ensure_vector_db.
  destruct (chunks s); [|congruence]. destruct (embeddings s); [|congruence].
  reflexivity.
Qed.

Lemma ensure_vector_db_unset (s : store vec) :
  ~ store_set s ->
  ensure_vector_db encode read_file s = initialize_vector_db encode read_file s.
Proof.
  intros H. unfold ensure_vector_db, store_set in *.
  destruct (chunks s); [|reflexivity]. destruct (embeddings s); [|reflexivity].
  exfalso. apply H. split; discriminate.
Qed.

Lemma store_ready_set (s : store vec) : store_ready s -> store_set s.
Proof.
  intros (cs & es & Hcs & Hes & _). split; congruence.
Qed.

(** The [try] block with its [except] always hands back a response: the
    answer, or the exception the block raised. *)
Lemma answer_returns (co bloom : json) (s : store vec) :
  (exists questions_dict raw_text,
     try_except_block co bloom s
     = Return {| payload := QuestionsBody co bloom questions_dict raw_text;
                 status := 200 |}) \/
  (exists e,
     try_block co bloom s = Raise e /\
     try_except_block co bloom s
     = Return {| payload := ExceptionBody e; status := 500 |}).
Proof.
  unfold answer. destruct (answer_body _ _ _ _ _ _ _ _ _ _ _) as [r|e] eqn:Hbody;
    cbn [try_except].
  - left. unfold answer_body in Hbody.
    destruct (search_store _ _ _ _ _ _ _) as [found|]; [|discriminate].
    cbn [bind] in Hbody. destruct (index found 0); [|discriminate].
    cbn [bind] in Hbody. destruct (generate_questions _ _ _ _); [|discriminate].
    cbn [bind] in Hbody. destruct (parse_questions _ _); [|discriminate].
    cbn [bind] in Hbody. injection Hbody as <-. eexists _, _. reflexivity.
  - right. exists e. split; reflexivity.
Qed.

(** The handler on a store that is set: no initialisation, and the store
    is handed on as it is. *)
Lemma handler_set (data : json) (s : store vec) :
  store_set s ->
  handler data s
  = match required_fields data with
    | Raise e => (s, Raise e)
    | Return None => (s, Return BAD_REQUEST)
    | Return (Some (co, bloom)) => (s, try_except_block co bloom s)
    end.
Proof.
  intros Hs. unfold api_generate_questions, seq_, call.
  rewrite (ensure_vector_db_set Hs).
  destruct (required_fields data) as [[[co bloom]|]|e]; reflexivity.
Qed.

Lemma handler_object (items : dict) (co bloom : json) (s : store vec) :
  store_set s ->
  dict_get items COURSE_OUTCOME = Some co ->
  dict_get items BLOOM_LEVEL = Some bloom ->
  handler (JObject items) s = (s, try_except_block co bloom s).
Proof.
  intros Hs Hco Hbloom.
  rewrite (handler_set (JObject items) Hs),
    (required_fields_object items Hco Hbloom).
  reflexivity.
Qed.

Lemma handler_store (data : json) (s : store vec) :
  store_set s -> fst (handler data s) = s.
Proof.
  intros Hs. rewrite (handler_set data Hs).
  destruct (required_fields data) as [[[co bloom]|]|e]; reflexivity.
Qed.

(** The search of the handler on a store that is ready: one chunk, which
    is a stored one. *)
Lemma search_store_ready (co : pystr) (s : store vec) (q : vec) (rows : list vec) :
  argsort_spec fle argsort ->
  store_ready s ->
  encode [co] = Return (q :: rows) ->
  exists cs best_chunk,
    chunks s = Some cs /\ In best_chunk cs /\
    search_store encode vsub norm argsort encode_value (JString co) s
    = Return [best_chunk].
Proof.
  intros Hspec (cs & es & Hcs & Hes & Hlen & Hne & _) Henc.
  unfold search_store. rewrite Hcs, Hes.
  destruct (@semantic_search_run vec F encode vsub norm argsort fle Hspec
              co cs es 1 q rows Henc (eq_sym Hlen))
    as (m & result & Hrun & _ & Hall & Hcount).
  specialize (Hcount ltac:(lia)).
  assert (Hone : length result = 1).
  { unfold len in Hcount. destruct cs; [congruence|]. cbn [length] in Hcount. lia. }
  destruct result as [|best [|]]; try discriminate.
  exists cs, best. split; [reflexivity|]. split; [|exact Hrun].
  destruct (firstn m _) as [|i idxs]; inversion Hall; subst.
  eapply nth_error_In. eassumption.
Qed.

Lemma answer_ready (co bloom : pystr) (s : store vec) (q : vec) (rows : list vec) :
  argsort_spec fle argsort ->
  store_ready s ->
  encode [co] = Return (q :: rows) ->
  exists cs best_chunk raw_text questions_dict,
    chunks s = Some cs /\ In best_chunk cs /\
    generate_questions generate_content best_chunk co bloom = Return raw_text /\
    parse_questions unicode_isdigit raw_text = Return questions_dict /\
    try_except_block (JString co) (JString bloom) s
    = Return {| payload := QuestionsBody (JString co) (JString bloom)
                             questions_dict raw_text;
                status := 200 |}.
Proof.
  intros Hspec Hs Henc.
  destruct (@search_store_ready co s q rows Hspec Hs Henc)
    as (cs & best & Hcs & Hin & Hrun).
  destruct (generate_questions_returns generate_content best co bloom)
    as [raw Hraw].
  destruct (parse_questions_returns unicode_isdigit raw) as [qs Hqs].
  exists cs, best, raw, qs. repeat (split; [assumption|]).
  unfold answer, answer_body. rewrite Hrun. cbn [bind index nth_error text_of].
  rewrite Hraw. cbn [bind]. rewrite Hqs. reflexivity.
Qed.

(** X16.  What the handler does with every JSON body, on a store that is
    set.  It never writes the store.  It raises exactly on the bodies
    that are no dict and pass the test of the names ([True], a number
    that is not zero, a string or a list that holds both names), and the
    exception is then a [TypeError] raised outside the [try] block.  On
    every other body it returns: the 400 response, or, for a dict with
    both names, the 200 response that echoes the two values or the 500
    response with the exception the [try] block raised. *)
Theorem api_generate_questions_responds (data : json) (s : store vec) :
  store_set s ->
  fst (handler data s) = s /\
  (not_an_object data -> snd (handler data s) = Raise TypeError) /\
  (forall e, snd (handler data s) = Raise e ->
     e = TypeError /\ not_an_object data) /\
  (forall r, snd (handler data s) = Return r ->
     r = BAD_REQUEST /\ lacks_parameters data \/
     exists items co bloom,
       data = JObject items /\
       dict_get items COURSE_OUTCOME = Some co /\
       dict_get items BLOOM_LEVEL = Some bloom /\
       ((exists questions_dict raw_text,
           r = {| payload := QuestionsBody co bloom questions_dict raw_text;
                  status := 200 |}) \/
        (exists e,
           try_block co bloom s = Raise e /\
           r = {| payload := ExceptionBody e; status := 500 |}))).
Proof.
  intros Hs. split; [exact (handler_store data Hs)|].
  rewrite (handler_set data Hs).
  destruct (required_fields_cases data)
    as [Hnot | [Hlack | (items & co & bloom & -> & Hco & Hbloom)]].
  - rewrite (required_fields_not_an_object _ Hnot). cbn [snd].
    split; [reflexivity|]. split.
    + intros e H. injection H as <-. split; [reflexivity | exact Hnot].
    + intros r H. discriminate H.
  - rewrite (required_fields_lacks _ Hlack). cbn [snd].
    split; [intros Hnot | split].
    + pose proof (required_fields_lacks _ Hlack) as H.
      rewrite (required_fields_not_an_object _ Hnot) in H. discriminate H.
    + intros e H. discriminate H.
    + intros r H. injection H as <-. left. split; [reflexivity | exact Hlack].
  - rewrite (required_fields_object items Hco Hbloom). cbn [snd].
    split; [intros []|]. split.
    + intros e H.
      destruct (answer_returns co bloom s) as [(qs & raw & Ha) | (e' & _ & Ha)];
        rewrite Ha in H; discriminate H.
    + intros r H. right. exists items, co, bloom.
      split; [reflexivity|]. split; [exact Hco|]. split; [exact Hbloom|].
      destruct (answer_returns co bloom s) as [(qs & raw & Ha) | (e' & Hb & Ha)];
        rewrite Ha in H; injection H as <-.
      * left. exists qs, raw. reflexivity.
      * right. exists e'. split; [exact Hb | reflexivity].
Qed.

(** X17.  A body that is [None], [False] or a zero, and a dict, a string
    or a list in which [course_outcome] or [bloom_level] is not (as a
    key, a substring, an element), gets the 400 response with the fixed
    message; neither the embedder nor the generator is called and the
    store stays as it is. *)
Theorem api_generate_questions_missing_parameter (data : json) (s : store vec) :
  store_set s ->
  lacks_parameters data ->
  handler data s = (s, Return BAD_REQUEST).
Proof.
  intros Hs Hlack.
  rewrite (handler_set data Hs), (required_fields_lacks _ Hlack).
  reflexivity.
Qed.

(** X18.  On a store that is ready, a request with both fields whose
    course outcome the embedder embeds gets a 200 response: it echoes the
    two fields, [raw_text] is what [generate_questions] returned for a
    stored chunk, and [questions] is [parse_questions] of that text. *)
Theorem api_generate_questions_answers (d : dict) (co bloom : pystr)
    (s : store vec) (q : vec) (rows : list vec) :
  argsort_spec fle argsort ->
  store_ready s ->
  dict_get d COURSE_OUTCOME = Some (JString co) ->
  dict_get d BLOOM_LEVEL = Some (JString bloom) ->
  encode [co] = Return (q :: rows) ->
  exists cs best_chunk raw_text questions_dict,
    chunks s = Some cs /\ In best_chunk cs /\
    generate_questions generate_content best_chunk co bloom = Return raw_text /\
    parse_questions unicode_isdigit raw_text = Return questions_dict /\
    handler (JObject d) s
    = (s, Return {| payload := QuestionsBody (JString co) (JString bloom)
                                 questions_dict raw_text;
                    status := 200 |}).
Proof.
  intros Hspec Hs Hco Hbloom Henc.
  destruct (@answer_ready co bloom s q rows Hspec Hs Henc)
    as (cs & best & raw & qs & Hcs & Hin & Hraw & Hqs & Hrun).
  exists cs, best, raw, qs. repeat (split; [assumption|]).
  rewrite (handler_object d (store_ready_set Hs) Hco Hbloom), Hrun.
  reflexivity.
Qed.

(** X19.  When the generative service fails, the request still gets a 200
    response: [raw_text] is the sentinel of [generate_questions] and both
    question lists are empty. *)
Theorem api_generate_questions_generator_failure (d : dict) (co bloom : pystr)
    (s : store vec) (q : vec) (rows : list vec) :
  argsort_spec fle argsort ->
  store_ready s ->
  dict_get d COURSE_OUTCOME = Some (JString co) ->
  dict_get d BLOOM_LEVEL = Some (JString bloom) ->
  encode [co] = Return (q :: rows) ->
  (forall prompt, exists e, generate_content prompt = Raise e) ->
  handler (JObject d) s
  = (s, Return {| payload := QuestionsBody (JString co) (JString bloom)
                               NO_QUESTIONS GENERATION_ERROR;
                  status := 200 |}).
Proof.
  intros Hspec Hs Hco Hbloom Henc Hdown.
  destruct (@search_store_ready co s q rows Hspec Hs Henc)
    as (cs & best & _ & _ & Hrun).
  rewrite (handler_object d (store_ready_set Hs) Hco Hbloom).
  unfold answer, answer_body. rewrite Hrun. cbn [bind index nth_error text_of].
  unfold generate_questions.
  destruct (Hdown (full_prompt best co bloom)) as [e ->].
  cbn [bind try_except]. rewrite parse_questions_generation_error. reflexivity.
Qed.

(** X20.  When the embedder raises on the course outcome, the request
    gets a 500 response whose [error] is [str(e)] of that exception; the
    generator is not called and the store stays as it is. *)
Theorem api_generate_questions_embedder_failure (d : dict) (co bloom : pystr)
    (s : store vec) (e : pyexc) :
  store_set s ->
  dict_get d COURSE_OUTCOME = Some (JString co) ->
  dict_get d BLOOM_LEVEL = Some (JString bloom) ->
  encode [co] = Raise e ->
  handler (JObject d) s
  = (s, Return {| payload := ExceptionBody e; status := 500 |}).
Proof.
  intros Hs Hco Hbloom Henc.
  rewrite (handler_object d Hs Hco Hbloom).
  destruct Hs as [Hc He].
  unfold answer, answer_body, search_store, semantic_search.
  destruct (chunks s); [|congruence]. destruct (embeddings s); [|congruence].
  rewrite Henc. reflexivity.
Qed.

(** X21.  A request that finds a global unset runs
    [initialize_vector_db] first.  When that returns, the request is
    served as on the store it built, and leaves that store behind; when
    it raises, the exception leaves the handler, outside its [try] block,
    so no JSON error response is made. *)
Theorem api_generate_questions_lazy_init (data : json) (s : store vec) :
  ~ store_set s ->
  (forall s1,
     initialize_vector_db encode read_file s = (s1, Return tt) ->
     handler data s = handler data s1 /\ fst (handler data s) = s1) /\
  (forall s1 e,
     initialize_vector_db encode read_file s = (s1, Raise e) ->
     handler data s = (s1, Raise e)).
Proof.
  intros Hs. split.
  - intros s1 Hinit.
    pose proof (@initialize_vector_db_sets vec encode read_file s s1 Hinit) as Hs1.
    assert (Heq : handler data s = handler data s1).
    { unfold api_generate_questions. unfold seq_ at 1 3.
      rewrite (ensure_vector_db_unset Hs), Hinit, (ensure_vector_db_set Hs1).
      reflexivity. }
    split; [exact Heq|]. rewrite Heq. exact (handler_store data Hs1).
  - intros s1 e Hinit. unfold api_generate_questions. unfold seq_ at 1.
    rewrite (ensure_vector_db_unset Hs), Hinit. reflexivity.
Qed.

(** X22.  Start-up and request together: once [initialize_vector_db] has
    returned, with an embedder that gives one row per text, a request with
    both fields whose course outcome is embedded gets a 200 response that
    echoes them, and the store stays the one start-up built. *)
Theorem api_generate_questions_after_startup (d : dict) (co bloom : pystr)
    (s0 s1 : store vec) (q : vec) (rows : list vec) :
  argsort_spec fle argsort ->
  encode_spec encode ->
  initialize_vector_db encode read_file s0 = (s1, Return tt) ->
  dict_get d COURSE_OUTCOME = Some (JString co) ->
  dict_get d BLOOM_LEVEL = Some (JString bloom) ->
  encode [co] = Return (q :: rows) ->
  exists questions_dict raw_text,
    handler (JObject d) s1
    = (s1, Return {| payload := QuestionsBody (JString co) (JString bloom)
                                  questions_dict raw_text;
                     status := 200 |}).
Proof.
  intros Hspec Henc_spec Hinit Hco Hbloom Henc.
  pose proof (@startup_store_ready vec encode read_file s0 s1 Henc_spec Hinit)
    as Hs.
  destruct (@answer_ready co bloom s1 q rows Hspec Hs Henc)
    as (cs & best & raw & qs & _ & _ & _ & _ & Hrun).
  exists qs, raw.
  rewrite (handler_object d (store_ready_set Hs) Hco Hbloom), Hrun.
  reflexivity.
Qed.

End ApiFacts.

Lemma READY_STORE_set : store_set READY_STORE.
Proof. split; discriminate. Qed.

Lemma READY_STORE_ready : store_ready READY_STORE.
Proof. exists [str "One. Two."], [9%Z]. repeat split; discriminate. Qed.

Lemma api_generate_questions_responds_witness :
  fst (ref_handler ref_encode service_down
         (JString (str "course_outcome, bloom_level")) READY_STORE)
  = READY_STORE /\
  (not_an_object (JString (str "course_outcome, bloom_level")) ->
   snd (ref_handler ref_encode service_down
          (JString (str "course_outcome, bloom_level")) READY_STORE)
   = Raise TypeError) /\
  (forall e,
     snd (ref_handler ref_encode service_down
            (JString (str "course_outcome, bloom_level")) READY_STORE)
     = Raise e ->
     e = TypeError /\ not_an_object (JString (str "course_outcome, bloom_level"))) /\
  (forall r,
     snd (ref_handler ref_encode service_down
            (JString (str "course_outcome, bloom_level")) READY_STORE)
     = Return r ->
     r = BAD_REQUEST /\
     lacks_parameters (JString (str "course_outcome, bloom_level")) \/
     exists items co bloom,
       JString (str "course_outcome, bloom_level") = JObject items /\
       dict_get items COURSE_OUTCOME = Some co /\
       dict_get items BLOOM_LEVEL = Some bloom /\
       ((exists questions_dict raw_text,
           r = {| payload := QuestionsBody co bloom questions_dict raw_text;
                  status := 200 |}) \/
        (exists e,
           answer_body ref_encode Z.sub Z.abs argsort_stable service_down
             (fun _ => false) rejects_value no_format co bloom READY_STORE
           = Raise e /\
           r = {| payload := ExceptionBody e; status := 500 |}))).
Proof.
  apply (@api_generate_questions_responds Z Z ref_encode Z.sub Z.abs argsort_stable
           service_down ref_read_file (fun _ => false) rejects_value no_format
           (JString (str "course_outcome, bloom_level")) READY_STORE).
  exact READY_STORE_set.
Defined.

Lemma api_generate_questions_missing_parameter_witness :
  ref_handler ref_encode (canned_reply sample_reply)
    (JObject [(COURSE_OUTCOME, JString (str "CO1"))]) READY_STORE
  = (READY_STORE, Return BAD_REQUEST).
Proof.
  apply (@api_generate_questions_missing_parameter Z Z ref_encode Z.sub Z.abs
           argsort_stable (canned_reply sample_reply) ref_read_file (fun _ => false)
           rejects_value no_format
           (JObject [(COURSE_OUTCOME, JString (str "CO1"))]) READY_STORE).
  - exact READY_STORE_set.
  - right. intros [v Hv]. vm_compute in Hv. discriminate Hv.
Defined.

Lemma api_generate_questions_answers_witness :
  exists cs best_chunk raw_text questions_dict,
    chunks READY_STORE = Some cs /\ In best_chunk cs /\
    generate_questions (canned_reply sample_reply) best_chunk
      (str "CO1") (str "Understand") = Return raw_text /\
    parse_questions (fun _ => false) raw_text = Return questions_dict /\
    ref_handler ref_encode (canned_reply sample_reply)
      (JObject (request (str "CO1") (str "Understand"))) READY_STORE
    = (READY_STORE,
       Return {| payload := QuestionsBody (JString (str "CO1"))
                              (JString (str "Understand"))
                              questions_dict raw_text;
                 status := 200 |}).
Proof.
  apply (@api_generate_questions_answers Z Z ref_encode Z.sub Z.abs argsort_stable
           (canned_reply sample_reply) ref_read_file (fun _ => false)
           rejects_value no_format Z.leb
           (request (str "CO1") (str "Understand")) (str "CO1") (str "Understand")
           READY_STORE 3%Z []).
  - exact argsort_stable_spec.
  - exact READY_STORE_ready.
  - reflexivity.
  - reflexivity.
  - reflexivity.
Defined.

Lemma api_generate_questions_generator_failure_witness :
  ref_handler ref_encode service_down
    (JObject (request (str "CO1") (str "Understand"))) READY_STORE
  = (READY_STORE,
     Return {| payload := QuestionsBody (JString (str "CO1"))
                            (JString (str "Understand"))
                            NO_QUESTIONS GENERATION_ERROR;
               status := 200 |}).
Proof.
  apply (@api_generate_questions_generator_failure Z Z ref_encode Z.sub Z.abs
           argsort_stable service_down ref_read_file (fun _ => false)
           rejects_value no_format Z.leb
           (request (str "CO1") (str "Understand")) (str "CO1") (str "Understand")
           READY_STORE 3%Z []).
  - exact argsort_stable_spec.
  - exact READY_STORE_ready.
  - reflexivity.
  - reflexivity.
  - reflexivity.
  - intros prompt. eexists. reflexivity.
Defined.

Lemma api_generate_questions_embedder_failure_witness :
  ref_handler no_model (canned_reply sample_reply)
    (JObject (request (str "CO1") (str "Understand"))) READY_STORE
  = (READY_STORE,
     Return {| payload := ExceptionBody (ExternalError (str "model not loaded"));
               status := 500 |}).
Proof.
  apply (@api_generate_questions_embedder_failure Z Z no_model Z.sub Z.abs
           argsort_stable (canned_reply sample_reply) ref_read_file (fun _ => false)
           rejects_value no_format
           (request (str "CO1") (str "Understand")) (str "CO1") (str "Understand")
           READY_STORE (ExternalError (str "model not loaded"))).
  - exact READY_STORE_set.
  - reflexivity.
  - reflexivity.
  - reflexivity.
Defined.

Lemma api_generate_questions_lazy_init_witness :
  (forall s1,
     initialize_vector_db ref_encode ref_read_file EMPTY_STORE = (s1, Return tt) ->
     ref_handler ref_encode service_down JNull EMPTY_STORE
     = ref_handler ref_encode service_down JNull s1 /\
     fst (ref_handler ref_encode service_down JNull EMPTY_STORE) = s1) /\
  (forall s1 e,
     initialize_vector_db ref_encode ref_read_file EMPTY_STORE = (s1, Raise e) ->
     ref_handler ref_encode service_down JNull EMPTY_STORE = (s1, Raise e)).
Proof.
  apply (@api_generate_questions_lazy_init Z Z ref_encode Z.sub Z.abs
           argsort_stable service_down ref_read_file (fun _ => false)
           rejects_value no_format JNull EMPTY_STORE).
  intros [H _]. apply H. reflexivity.
Defined.

Lemma api_generate_questions_after_startup_witness :
  exists questions_dict raw_text,
    ref_handler ref_encode (canned_reply sample_reply)
      (JObject (request (str "CO1") (str "Understand"))) READY_STORE
    = (READY_STORE,
       Return {| payload := QuestionsBody (JString (str "CO1"))
                              (JString (str "Understand"))
                              questions_dict raw_text;
                 status := 200 |}).
Proof.
  apply (@api_generate_questions_after_startup Z Z ref_encode Z.sub Z.abs
           argsort_stable (canned_reply sample_reply) ref_read_file (fun _ => false)
           rejects_value no_format Z.leb
           (request (str "CO1") (str "Understand")) (str "CO1")
           (str "Understand") EMPTY_STORE READY_STORE 3%Z []).
  - exact argsort_stable_spec.
  - exact ref_encode_spec.
  - vm_compute. reflexivity.
  - reflexivity.
  - reflexivity.
  - reflexivity.
Defined.
